(** * Loan lifecycle engine of sbc-demo-backend: a shallow embedding

    The development follows [server/era.go] (the assessor protocol and
    the REST handlers of the loan lifecycle), [server/era_driver.go],
    the four built-in assessors and the numeric helpers.

    Modelling conventions.
    - A Go [float64] is an exact rational ([Q]).  NaN, the infinities
      and binary rounding error have no counterpart there; comparisons
      and arithmetic are the exact ones.  Where a statement is about
      every [float64] an assessor may return, [processBorrowerApp] is
      given once more on binary64 values ([Binary64]), where a NaN
      compares false with everything.
    - [uint64] counters are [N] with the wrap at [2^64] written out;
      [int64] millisecond timestamps are [Z].
    - Go's [int(f)] truncates toward zero when the result fits a 64-bit
      integer; outside that range the language leaves the result to the
      implementation, which is a field of [GoRuntime].
    - A handler runs its body inside one datastore transaction: when the
      body returns an error nothing is written, otherwise every [Put]
      takes effect.  The two entities of one borrower (profile, loan
      history) form the [Store].  JSON transport and datastore
      failures other than [ErrNoSuchEntity] are outside the model;
      authentication is modelled on its own ([FirebaseAuth]) and the
      handlers start from the authenticated identity. *)

From Stdlib Require Import ZArith NArith QArith Qround Qabs Lqa Lia.
From Stdlib Require Import List String Ascii Bool DecimalString.
From Stdlib Require Import Uint63 Floats.PrimFloat Floats.SpecFloat Floats.FloatOps.
From Stdlib Require DecimalNat Floats.FloatAxioms.
Import ListNotations.

Set Implicit Arguments.
Open Scope Q_scope.

(** ** Numbers *)

(** What the Go runtime and its libraries supply. *)
Class GoRuntime : Type := {
  (** [math.Exp] *)
  math_Exp : Q -> Q;
  (** the result of [int(f)] when [f] truncates outside the 64-bit range *)
  int_overflow : Q -> Z
}.

(** [a < b] on float64 *)
Definition Qltb (a b : Q) : bool :=
  (Qnum a * QDen b <? Qnum b * QDen a)%Z.

Definition min_int64 : Z := (- 2 ^ 63)%Z.
Definition max_int64 : Z := (2 ^ 63 - 1)%Z.

Definition in_int64 (z : Z) : bool :=
  ((min_int64 <=? z) && (z <=? max_int64))%Z.

(** truncation toward zero *)
Definition Qtrunc (f : Q) : Z := Z.quot (Qnum f) (QDen f).

(** Go's conversion [int(f)] *)
Definition int_of_float64 `{GoRuntime} (f : Q) : Z :=
  if in_int64 (Qtrunc f) then Qtrunc f else int_overflow f.

(** [math.Copysign(x, y)]: magnitude of [x], sign of [y] *)
Definition Copysign (x y : Q) : Q :=
  if Qltb y 0 then - Qabs x else Qabs x.

(** [Round] of era.go *)
Definition Round `{GoRuntime} (f : Q) : Q :=
  inject_Z (int_of_float64 (f + Copysign (1 # 2) f)).


(** [uint64] increment *)
Definition uint64_succ (n : N) : N := ((n + 1) mod 2 ^ 64)%N.

(** ** The assessor protocol (era.go, first part) *)

Record BorrowerApp : Type := {
  borrower_id : string;
  principal_amount : Q;
  stated_monthly_income : Q;
  employment_start_month : Z;
  employment_start_year : Z;
  employment_status : string
}.

Definition MAX_INTEREST_RATE : Q := 1 # 10.
Definition MAX_QIN_COLLATERAL : Q := 1 # 2.
Definition GRACE_NUM_LOANS : N := 1%N.

Record BorrowerInformation : Type := {
  no_loans : N;
  successful_loans : N;
  earned_qin : Q
}.

Record ERATerms : Type := {
  interest_rate : Q;
  qin_collateral : Q;
  qin_reward : Q;
  interest_reward : Q;
  offered_by : string
}.

(** The [ERA] interface: one field per method. *)
Record ERA : Type := {
  predictProbDefault : BorrowerApp -> Q;
  predictInterestRate : Q -> Q;
  computeQinCollateral : Q -> N -> Q;
  computeQinReward : Q -> Q -> Q;
  rejectBorrower : Q -> bool
}.

Definition computeInterestReward (fraction interest_rate loan_principal : Q) : Q :=
  fraction * interest_rate * loan_principal.

(** Lines 53-59 of [processBorrowerApp]: a probability that is a number
    is forced into the unit interval.  The three clamps on all of
    [float64], NaN included, are [Binary64.clamp_prob_default],
    [Binary64.clamp_interest_rate] and [Binary64.clamp_qin_reward]. *)
Definition clamp_prob_default (prob_default : Q) : Q :=
  if Qltb prob_default 0 then 0
  else if Qltb 1 prob_default then 1
  else prob_default.

(** Lines 80-86. *)
Definition clamp_interest_rate (interest_rate : Q) : Q :=
  if Qltb interest_rate 0 then 0
  else if Qltb MAX_INTEREST_RATE interest_rate then MAX_INTEREST_RATE
  else interest_rate.

(** Lines 94-98. *)
Definition clamp_qin_reward (qin_reward : Q) : Q :=
  if Qltb qin_reward 0 then 0 else qin_reward.

(** Lines 68-74: the collateral the borrower must post, or [None] when
    the earned qin does not cover it. *)
Definition required_collateral (era : ERA) (prob_default : Q)
    (borrower_information : BorrowerInformation) : option Q :=
  if (GRACE_NUM_LOANS <=? no_loans borrower_information)%N then
    let qin_collateral :=
      computeQinCollateral era prob_default (successful_loans borrower_information) in
    if Qltb (earned_qin borrower_information) qin_collateral then None
    else Some qin_collateral
  else Some 0.

(** [nil] is [None]. *)
Definition processBorrowerApp (era : ERA) (borrower_app : BorrowerApp)
    (borrower_information : BorrowerInformation) (loan_fraction : Q)
    (offered_by : string) : option ERATerms :=
  let prob_default := clamp_prob_default (predictProbDefault era borrower_app) in
  if rejectBorrower era prob_default then None
  else
    match required_collateral era prob_default borrower_information with
    | None => None
    | Some qin_collateral =>
        let interest_rate :=
          clamp_interest_rate (predictInterestRate era prob_default) in
        let interest_reward := loan_fraction * interest_rate in
        let qin_reward :=
          clamp_qin_reward (computeQinReward era prob_default interest_reward) in
        Some {| interest_rate := interest_rate;
                qin_collateral := qin_collateral;
                qin_reward := qin_reward;
                interest_reward := interest_reward;
                offered_by := offered_by |}
    end.

(** ** Numeric helpers (aux.go) *)

(** [dotProduct] panics ([None]) on slices of different length. *)
Fixpoint dotProduct_from (prod : Q) (coefficients features : list Q) : Q :=
  match coefficients, features with
  | c :: cs, f :: fs => dotProduct_from (prod + c * f) cs fs
  | _, _ => prod
  end.

Definition dotProduct (coefficients features : list Q) : option Q :=
  if (List.length coefficients =? List.length features)%nat
  then Some (dotProduct_from 0 coefficients features)
  else None.

Definition logistic `{GoRuntime} (dotprod : Q) : Q :=
  1 / (1 + math_Exp (-(1) * dotprod)).

Definition featureToProb `{GoRuntime} (coefficients features : list Q) : option Q :=
  match dotProduct coefficients features with
  | Some dotProd => Some (logistic dotProd)
  | None => None
  end.

(** [make([]float64, n)] *)
Definition make_float64 (n : nat) : list Q := repeat 0 n.

(** ** The built-in assessors *)

(** The collateral and reward formulas are the same text in all four
    assessors. *)
Definition linear_collateral (prob_default : Q) (num_successful_loans : N) : Q :=
  prob_default * MAX_QIN_COLLATERAL
  * (1 / (inject_Z (Z.of_N num_successful_loans) + 1)).

Definition linear_reward (prob_default interest_reward : Q) : Q :=
  prob_default * interest_reward.

Definition linear_rate (prob_default : Q) : Q :=
  prob_default * MAX_INTEREST_RATE.

(** A panic of [dotProduct] cannot happen below: both slices are built
    with the same length; the [None] branch is never taken
    (see [KivaERA_featureToProb_defined], [ProsperERA_featureToProb_defined]). *)
Definition KivaERA_predictProbDefault `{GoRuntime} (borrower_app : BorrowerApp) : Q :=
  let coefficients :=
    make_float64 2 ++ [- (392992243318379 # 100000000000000);
                       18010882525536 # 10000000000000000] in
  let features := make_float64 2 ++ [1; principal_amount borrower_app] in
  match featureToProb coefficients features with
  | Some prob_default => prob_default
  | None => 0
  end.

Definition KivaERA `{GoRuntime} : ERA := {|
  predictProbDefault := KivaERA_predictProbDefault;
  predictInterestRate := linear_rate;
  computeQinCollateral := linear_collateral;
  computeQinReward := linear_reward;
  rejectBorrower := fun prob_default => Qltb (9 # 10) prob_default
|}.

Definition NUM_COEFFICIENTS : nat := 3.

Definition ProsperERA_predictProbDefault `{GoRuntime} (borrower_app : BorrowerApp) : Q :=
  let coefficients :=
    make_float64 NUM_COEFFICIENTS
    ++ [853254321972573 # 10000000000000000;
        191903762849344 # 10000000000000000000;
        - (281892322338568 # 10000000000000000000)] in
  let features :=
    make_float64 NUM_COEFFICIENTS
    ++ [1; principal_amount borrower_app; stated_monthly_income borrower_app] in
  match featureToProb coefficients features with
  | Some prob_default => prob_default
  | None => 0
  end.

Definition ProsperERA `{GoRuntime} : ERA := {|
  predictProbDefault := ProsperERA_predictProbDefault;
  predictInterestRate := linear_rate;
  computeQinCollateral := linear_collateral;
  computeQinReward := linear_reward;
  rejectBorrower := fun prob_default => Qltb (6 # 10) prob_default
|}.

Definition NaiveERA : ERA := {|
  predictProbDefault := fun _ => 1 # 2;
  predictInterestRate := linear_rate;
  computeQinCollateral := linear_collateral;
  computeQinReward := linear_reward;
  rejectBorrower := fun prob_default => Qltb 1 prob_default
|}.

(** [rand_Float64] is the value [rand.Float64()] returns in this call. *)
Definition RandomERA (rand_Float64 : Q) : ERA := {|
  predictProbDefault := fun _ => rand_Float64 / 2 + (1 # 2);
  predictInterestRate := linear_rate;
  computeQinCollateral := linear_collateral;
  computeQinReward := linear_reward;
  rejectBorrower := fun prob_default => Qltb 1 prob_default
|}.

(** ** The assessor driver (era_driver.go) *)

Definition INITIAL_QIN_BALANCE : Q := 100.
Definition ERA_INTEREST_FRACTION : Q := 2 # 100.

(** The fields the loan path reads; the fiat balances and the borrower
    assignment map are left nil by [constructERADriver]. *)
Record ERADriver : Type := {
  _eras : list ERA;
  _era_external_names : list string;
  _eras_qin_balances : list Q;
  _num_eras : nat
}.

Definition constructERADriver `{GoRuntime} (rand_Float64 : Q) : ERADriver :=
  let eras := [KivaERA; ProsperERA; NaiveERA; RandomERA rand_Float64] in
  {| _eras := eras;
     _era_external_names :=
       ["LendingData"; "IntelligentAnalytica"; "ABC Analytica"; "Star Labs"]%string;
     _eras_qin_balances :=
       [INITIAL_QIN_BALANCE; INITIAL_QIN_BALANCE; INITIAL_QIN_BALANCE;
        INITIAL_QIN_BALANCE];
     _num_eras := List.length eras |}.

(** The loop of [processBorrowerRequest] from index [i] on, with
    [todo] slots of [era_responses] still to fill.  Indexing [_eras] or
    [_era_external_names] out of range panics ([None]). *)
Fixpoint era_responses_from (era_driver : ERADriver) (borrower_app : BorrowerApp)
    (borrower_information : BorrowerInformation) (loan_fraction : Q)
    (i todo : nat) : option (list (option ERATerms)) :=
  match todo with
  | O => Some []
  | S todo' =>
      match nth_error (_eras era_driver) i,
            nth_error (_era_external_names era_driver) i with
      | Some era, Some name =>
          match era_responses_from era_driver borrower_app borrower_information
                  loan_fraction (S i) todo' with
          | Some rest =>
              Some (processBorrowerApp era borrower_app borrower_information
                      loan_fraction name :: rest)
          | None => None
          end
      | _, _ => None
      end
  end.

Fixpoint count_not_nil (era_responses : list (option ERATerms)) : nat :=
  match era_responses with
  | [] => O
  | Some _ :: rest => S (count_not_nil rest)
  | None :: rest => count_not_nil rest
  end.

Definition processBorrowerRequest (era_driver : ERADriver) (borrower_app : BorrowerApp)
    (borrower_information : BorrowerInformation)
    : option (list (option ERATerms) * nat) :=
  let loan_fraction := ERA_INTEREST_FRACTION * principal_amount borrower_app in
  match era_responses_from era_driver borrower_app borrower_information
          loan_fraction 0 (_num_eras era_driver) with
  | Some era_responses => Some (era_responses, count_not_nil era_responses)
  | None => None
  end.

(** ** Entities of the server (era.go, second part) *)

Inductive Error : Type :=
| ErrUserNotFound
| ErrLoanInWrongState
| ErrNoActiveLoan
| ErrInvalidId
| ErrUserAlreadyExists
| ErrUserNotRegistered
| ErrLoanInDefault
| ErrNotEnoughQin
| ErrBadJsonPopulation
| ErrLoanAlreadyExists
| ErrUserDataNotFound
| ErrNoSuchEntity
| errors_New (msg : string)
| runtime_panic (msg : string).

Inductive result (A : Type) : Type :=
| Ok (a : A)
| Err (e : Error).

Arguments Ok {A} a.
Arguments Err {A} e.

Definition bind {A B : Type} (r : result A) (k : A -> result B) : result B :=
  match r with
  | Ok a => k a
  | Err e => Err e
  end.

Notation "x <- r ;; k" := (bind r (fun x => k))
  (at level 61, r at next level, right associativity).
Notation "' pat <- r ;; k" := (bind r (fun x => match x with pat => k end))
  (at level 61, pat pattern, r at next level, right associativity).

Record EmploymentInfo : Type := {
  EmploymentStatus : string;
  EmploymentJobTitle : string;
  EmploymentStartMonth : option Z;
  EmploymentStartYear : option Z;
  EmploymentIncome : option Q;
  EmploymentEducation : string
}.

Record ResidenceInfo : Type := {
  ResidenceAddr1 : string;
  ResidenceAddr2 : string;
  ResidenceDistrict : string;
  ResidenceCity : string;
  ResidencePostal : string;
  ResidenceProvince : string;
  ResidenceStatus : string;
  ResidenceRentAmt : option Q
}.

Record User : Type := {
  Firstname : string;
  Lastname : string;
  PhoneNum : string;
  DateOfBirth : string;
  QinBalance : Q;
  User_DateCreated : Z;
  User_EmploymentInfo : option EmploymentInfo;
  User_ResidenceInfo : option ResidenceInfo
}.

Record LoanRequest : Type := {
  LoanAmount : Q;
  LoanMemo : string;
  LoanPurpose : string;
  TermsAgreed : bool;
  LoanRequest_User : option User
}.

Record LoanTerms : Type := {
  TermId : string;
  InterestRate : Q;
  QinReward : Q;
  QinRequired : Q;
  AmountOwed : Q;
  OfferedBy : string
}.

Record PickupLocation : Type := {
  LocationName : string
}.

Record Repayment : Type := {
  Repayment_Amount : Q;
  Timestamp : Z
}.

Record LoanRecord : Type := {
  LoanId : string;
  Amount : Q;
  CurrencyCode : string;
  DueDate : Z;
  Terms : list LoanTerms;
  AcceptedTerms : option LoanTerms;
  State : string;
  Location : option PickupLocation;
  Repayments : list Repayment;
  Memo : string;
  Request : option LoanRequest;
  RepaidDate : Z;
  DateCreated : Z
}.

Record LoanHistory : Type := {
  LoanRecords : list LoanRecord
}.

Record LoanSelectRequest : Type := {
  SelectedTerm : string;
  LoanSelectRequest_Location : PickupLocation
}.

Record LoanDeleteResponse : Type := {
  Success : bool
}.

(** Field assignments [rec.F = v]. *)
Definition set_State (v : string) (r : LoanRecord) : LoanRecord :=
  {| LoanId := LoanId r; Amount := Amount r; CurrencyCode := CurrencyCode r;
     DueDate := DueDate r; Terms := Terms r; AcceptedTerms := AcceptedTerms r;
     State := v; Location := Location r; Repayments := Repayments r;
     Memo := Memo r; Request := Request r; RepaidDate := RepaidDate r;
     DateCreated := DateCreated r |}.

Definition set_AcceptedTerms (v : option LoanTerms) (r : LoanRecord) : LoanRecord :=
  {| LoanId := LoanId r; Amount := Amount r; CurrencyCode := CurrencyCode r;
     DueDate := DueDate r; Terms := Terms r; AcceptedTerms := v;
     State := State r; Location := Location r; Repayments := Repayments r;
     Memo := Memo r; Request := Request r; RepaidDate := RepaidDate r;
     DateCreated := DateCreated r |}.

Definition set_Location (v : option PickupLocation) (r : LoanRecord) : LoanRecord :=
  {| LoanId := LoanId r; Amount := Amount r; CurrencyCode := CurrencyCode r;
     DueDate := DueDate r; Terms := Terms r; AcceptedTerms := AcceptedTerms r;
     State := State r; Location := v; Repayments := Repayments r;
     Memo := Memo r; Request := Request r; RepaidDate := RepaidDate r;
     DateCreated := DateCreated r |}.

Definition set_DueDate (v : Z) (r : LoanRecord) : LoanRecord :=
  {| LoanId := LoanId r; Amount := Amount r; CurrencyCode := CurrencyCode r;
     DueDate := v; Terms := Terms r; AcceptedTerms := AcceptedTerms r;
     State := State r; Location := Location r; Repayments := Repayments r;
     Memo := Memo r; Request := Request r; RepaidDate := RepaidDate r;
     DateCreated := DateCreated r |}.

Definition set_Repayments (v : list Repayment) (r : LoanRecord) : LoanRecord :=
  {| LoanId := LoanId r; Amount := Amount r; CurrencyCode := CurrencyCode r;
     DueDate := DueDate r; Terms := Terms r; AcceptedTerms := AcceptedTerms r;
     State := State r; Location := Location r; Repayments := v;
     Memo := Memo r; Request := Request r; RepaidDate := RepaidDate r;
     DateCreated := DateCreated r |}.

Definition set_RepaidDate (v : Z) (r : LoanRecord) : LoanRecord :=
  {| LoanId := LoanId r; Amount := Amount r; CurrencyCode := CurrencyCode r;
     DueDate := DueDate r; Terms := Terms r; AcceptedTerms := AcceptedTerms r;
     State := State r; Location := Location r; Repayments := Repayments r;
     Memo := Memo r; Request := Request r; RepaidDate := v;
     DateCreated := DateCreated r |}.

Definition set_Request (v : option LoanRequest) (r : LoanRecord) : LoanRecord :=
  {| LoanId := LoanId r; Amount := Amount r; CurrencyCode := CurrencyCode r;
     DueDate := DueDate r; Terms := Terms r; AcceptedTerms := AcceptedTerms r;
     State := State r; Location := Location r; Repayments := Repayments r;
     Memo := Memo r; Request := v; RepaidDate := RepaidDate r;
     DateCreated := DateCreated r |}.

Definition set_QinBalance (v : Q) (u : User) : User :=
  {| Firstname := Firstname u; Lastname := Lastname u; PhoneNum := PhoneNum u;
     DateOfBirth := DateOfBirth u; QinBalance := v;
     User_DateCreated := User_DateCreated u;
     User_EmploymentInfo := User_EmploymentInfo u;
     User_ResidenceInfo := User_ResidenceInfo u |}.

(** In-place update of the element a pointer [&s[i]] designates. *)
Fixpoint update_nth {A : Type} (i : nat) (f : A -> A) (l : list A) : list A :=
  match l, i with
  | [], _ => []
  | x :: t, O => f x :: t
  | x :: t, S i' => x :: update_nth i' f t
  end.

Definition update_record (i : nat) (f : LoanRecord -> LoanRecord)
    (h : LoanHistory) : LoanHistory :=
  {| LoanRecords := update_nth i f (LoanRecords h) |}.

(** [strconv.Itoa] on a non-negative [int] *)
Definition Itoa (n : nat) : string := NilEmpty.string_of_uint (Nat.to_uint n).

(** ** Loan state and the lazy default check *)

Open Scope string_scope.

Definition IsLoanActive (loanRecord : LoanRecord) : result bool :=
  let s := State loanRecord in
  if s =? "PENDING" then Ok true
  else if s =? "APPROVED" then Ok true
  else if s =? "REJECTED" then Ok false
  else if s =? "ACCEPTED" then Ok true
  else if s =? "SENT" then Ok true
  else if s =? "REPAID" then Ok false
  else if s =? "DEFAULTED" then Ok false
  else if s =? "CANCELED" then Ok false
  else Err (errors_New "Invalid state value").

(** The loop of [ActiveLoanForLoanHistory] from index [i] on.  The
    pointer [&loanHistory.LoanRecords[i]] is the index together with
    the record it designates; [found] is [loanRecord] (with
    [hasFoundLoan] its being non-nil). *)
Fixpoint ActiveLoan_from (records : list LoanRecord) (i : nat)
    (found : option (nat * LoanRecord)) : result (option (nat * LoanRecord)) :=
  match records with
  | [] => Ok found
  | loan :: rest =>
      isActive <- IsLoanActive loan ;;
      if isActive then
        match found with
        | Some _ => Err (errors_New "Found multiple active loans")
        | None => ActiveLoan_from rest (S i) (Some (i, loan))
        end
      else ActiveLoan_from rest (S i) found
  end.

Definition ActiveLoanForLoanHistory (loanHistory : LoanHistory)
    : result (option (nat * LoanRecord)) :=
  ActiveLoan_from (LoanRecords loanHistory) 0 None.

(** [now] is [time.Now().Unix()].  The history is returned as the call
    leaves it: changed only when the answer is [true]. *)
Definition DefaultActiveLoanIfNecessary (now : Z) (loanHistory : LoanHistory)
    : result (bool * LoanHistory) :=
  activeLoan <- ActiveLoanForLoanHistory loanHistory ;;
  match activeLoan with
  | Some (i, loan) =>
      if State loan =? "SENT" then
        if (DueDate loan =? 0)%Z then
          Err (errors_New "Due date not set for SENT loan")
        else
          let currentTime := (now * 1000)%Z in
          if (DueDate loan <? currentTime)%Z then
            Ok (true, update_record i (set_State "DEFAULTED") loanHistory)
          else Ok (false, loanHistory)
      else Ok (false, loanHistory)
  | None => Ok (false, loanHistory)
  end.

(** ** The datastore *)

(** The two entities stored under one borrower's UID. *)
Record Store : Type := {
  user_entity : option User;
  loans_entity : option LoanHistory
}.

Definition put_user (u : User) (s : Store) : Store :=
  {| user_entity := Some u; loans_entity := loans_entity s |}.

Definition put_loans (h : LoanHistory) (s : Store) : Store :=
  {| user_entity := user_entity s; loans_entity := Some h |}.

(** [tx.Get(loanHistoryKey, loanHistory)] where [ErrNoSuchEntity] is
    let through: the fresh [LoanHistory] stays empty. *)
Definition get_loans (s : Store) : LoanHistory :=
  match loans_entity s with
  | Some h => h
  | None => {| LoanRecords := [] |}
  end.

(** [tx.Get(userKey, &user)] with [ErrNoSuchEntity] turned into [e]. *)
Definition get_user (e : Error) (s : Store) : result User :=
  match user_entity s with
  | Some u => Ok u
  | None => Err e
  end.

(** The body works on the store it is given; its writes are kept only
    when it returns no error. *)
Definition RunInTransaction {A : Type} (body : Store -> result (Store * A))
    (s : Store) : Store * result A :=
  match body s with
  | Ok (s', a) => (s', Ok a)
  | Err e => (s, Err e)
  end.

(** ** Handlers *)

Definition string_nonempty (s : string) : bool := negb (s =? "").

Definition is_nil {A : Type} (p : option A) : bool :=
  match p with
  | Some _ => false
  | None => true
  end.

(** The value a pointer designates, or [d] when it is nil. *)
Definition value_or {A : Type} (d : A) (p : option A) : A :=
  match p with
  | Some a => a
  | None => d
  end.

(** [new(EmploymentInfo)], [new(ResidenceInfo)] *)
Definition zero_EmploymentInfo : EmploymentInfo :=
  {| EmploymentStatus := ""; EmploymentJobTitle := "";
     EmploymentStartMonth := None; EmploymentStartYear := None;
     EmploymentIncome := None; EmploymentEducation := "" |}.

Definition zero_ResidenceInfo : ResidenceInfo :=
  {| ResidenceAddr1 := ""; ResidenceAddr2 := ""; ResidenceDistrict := "";
     ResidenceCity := ""; ResidencePostal := ""; ResidenceProvince := "";
     ResidenceStatus := ""; ResidenceRentAmt := None |}.

(** The profile as it is encoded in a response: nil sections are
    replaced by empty ones. *)
Definition with_empty_infos (u : User) : User :=
  {| Firstname := Firstname u; Lastname := Lastname u; PhoneNum := PhoneNum u;
     DateOfBirth := DateOfBirth u; QinBalance := QinBalance u;
     User_DateCreated := User_DateCreated u;
     User_EmploymentInfo :=
       Some (value_or zero_EmploymentInfo (User_EmploymentInfo u));
     User_ResidenceInfo :=
       Some (value_or zero_ResidenceInfo (User_ResidenceInfo u)) |}.

Definition CreateUser (user : User) (now : Z) (s : Store) : Store * result User :=
  if (Firstname user =? "") || (Lastname user =? "")
     || (DateOfBirth user =? "") || (PhoneNum user =? "")
  then (s, Err ErrBadJsonPopulation)
  else
    let user :=
      {| Firstname := Firstname user; Lastname := Lastname user;
         PhoneNum := PhoneNum user; DateOfBirth := DateOfBirth user;
         QinBalance := 0%Q; User_DateCreated := (now * 1000)%Z;
         User_EmploymentInfo := User_EmploymentInfo user;
         User_ResidenceInfo := User_ResidenceInfo user |} in
    let '(s', r) :=
      RunInTransaction
        (fun s =>
           match user_entity s with
           | Some _ => Err ErrUserAlreadyExists
           | None => Ok (put_user user s, user)
           end) s in
    (s', user <- r ;; Ok (with_empty_infos user)).

Definition PatchUser (user : User) (s : Store) : Store * result User :=
  if is_nil (User_EmploymentInfo user) && is_nil (User_ResidenceInfo user)
  then (s, Err ErrBadJsonPopulation)
  else
    let '(s', r) :=
      RunInTransaction
        (fun s =>
           existingUser <- get_user ErrNoSuchEntity s ;;
           let existingUser :=
             {| Firstname := Firstname existingUser;
                Lastname := Lastname existingUser;
                PhoneNum := PhoneNum existingUser;
                DateOfBirth := DateOfBirth existingUser;
                QinBalance := QinBalance existingUser;
                User_DateCreated := User_DateCreated existingUser;
                User_EmploymentInfo :=
                  match User_EmploymentInfo user with
                  | Some e => Some e
                  | None => User_EmploymentInfo existingUser
                  end;
                User_ResidenceInfo :=
                  match User_ResidenceInfo user with
                  | Some r => Some r
                  | None => User_ResidenceInfo existingUser
                  end |} in
           Ok (put_user existingUser s, existingUser)) s in
    (s', finalizedUser <- r ;; Ok (with_empty_infos finalizedUser)).

(** Lines 789-806 of [LoanRequestFun]: the duplicate check and the
    borrower statistics, in one pass over the history. *)
Fixpoint borrowerInfo_from (records : list LoanRecord)
    (borrowerInfo : BorrowerInformation) : result BorrowerInformation :=
  match records with
  | [] => Ok borrowerInfo
  | loan :: rest =>
      active <- IsLoanActive loan ;;
      if active then Err ErrLoanAlreadyExists
      else
        let borrowerInfo :=
          if State loan =? "REPAID" then
            {| no_loans := uint64_succ (no_loans borrowerInfo);
               successful_loans := uint64_succ (successful_loans borrowerInfo);
               earned_qin := earned_qin borrowerInfo |}
          else borrowerInfo in
        let borrowerInfo :=
          if State loan =? "DEFAULTED" then
            {| no_loans := uint64_succ (no_loans borrowerInfo);
               successful_loans := successful_loans borrowerInfo;
               earned_qin := earned_qin borrowerInfo |}
          else borrowerInfo in
        borrowerInfo_from rest borrowerInfo
  end.

Definition zero_LoanTerms : LoanTerms :=
  {| TermId := ""; InterestRate := 0%Q; QinReward := 0%Q; QinRequired := 0%Q;
     AmountOwed := 0%Q; OfferedBy := "" |}.

(** Lines 850-858: the presented terms of one assessor response. *)
Definition present_terms `{GoRuntime} (loanId : string) (amount : Q)
    (currentIndex : nat) (terms : ERATerms) : LoanTerms :=
  let rate := (Round (interest_rate terms * 10000) / 10000)%Q in
  {| TermId := loanId ++ "-" ++ Itoa currentIndex;
     InterestRate := rate;
     QinReward := (Round (qin_reward terms * 100) / 100)%Q;
     QinRequired := (Round (qin_collateral terms * 100) / 100)%Q;
     AmountOwed := (Round ((1 + rate) * amount * 100) / 100)%Q;
     OfferedBy := offered_by terms |}.

(** Lines 845-861: the loop that fills [loanRecord.Terms]; writing past
    the end of the slice panics ([None]). *)
Fixpoint fill_terms `{GoRuntime} (loanId : string) (amount : Q)
    (era_terms : list (option ERATerms)) (currentIndex : nat)
    (Terms : list LoanTerms) : option (list LoanTerms) :=
  match era_terms with
  | [] => Some Terms
  | None :: rest => fill_terms loanId amount rest currentIndex Terms
  | Some terms :: rest =>
      if (currentIndex <? List.length Terms)%nat then
        fill_terms loanId amount rest (S currentIndex)
          (update_nth currentIndex
             (fun _ => present_terms loanId amount currentIndex terms) Terms)
      else None
  end.

(** Lines 863-874: the offer of the platform itself. *)
Definition fallback_terms `{GoRuntime} (loanId : string) (amount : Q) : LoanTerms :=
  let rate := (5 # 100)%Q in
  {| TermId := loanId ++ "-0";
     InterestRate := rate;
     QinReward := (1 # 10)%Q;
     QinRequired := 0%Q;
     AmountOwed := (Round ((1 + rate) * amount * 100) / 100)%Q;
     OfferedBy := "OneDaijo" |}.

(** Lines 840-874. *)
Definition assign_terms `{GoRuntime} (loanId : string) (amount : Q)
    (era_terms : list (option ERATerms)) (num_not_nil : nat)
    : option (list LoanTerms) :=
  if (0 <? num_not_nil)%nat then
    fill_terms loanId amount era_terms 0 (repeat zero_LoanTerms num_not_nil)
  else Some [fallback_terms loanId amount].

(** Lines 808-831: the application handed to the assessors. *)
Definition borrowerApp_of (UID : string) (amount : Q)
    (employment : EmploymentInfo) : BorrowerApp :=
  {| borrower_id := UID;
     principal_amount := amount;
     stated_monthly_income := value_or 0%Q (EmploymentIncome employment);
     employment_start_month := value_or 0%Z (EmploymentStartMonth employment);
     employment_start_year := value_or 0%Z (EmploymentStartYear employment);
     employment_status := EmploymentStatus employment |}.

(** [loanRecord] as it is appended: the fields set before the
    transaction, the id, the profile snapshot, the state and the terms. *)
Definition approved_loanRecord (loanId : string) (request : LoanRequest)
    (user : User) (terms : list LoanTerms) (now_created : Z) : LoanRecord :=
  {| LoanId := loanId; Amount := LoanAmount request;
     CurrencyCode := "PHP"; DueDate := 0;
     Terms := terms; AcceptedTerms := None;
     State := "APPROVED"; Location := None;
     Repayments := []; Memo := LoanMemo request;
     Request :=
       Some {| LoanAmount := LoanAmount request; LoanMemo := LoanMemo request;
               LoanPurpose := LoanPurpose request;
               TermsAgreed := TermsAgreed request;
               LoanRequest_User := Some user |};
     RepaidDate := 0;
     DateCreated := (now_created * 1000)%Z |}.

(** [UID] is the authenticated identity, [request] the decoded body,
    [now_created] and [now_check] the two readings of the clock. *)
Definition LoanRequestFun `{GoRuntime} (eraDriver : ERADriver) (UID : string)
    (request : LoanRequest) (now_created now_check : Z) (s : Store)
    : Store * result LoanRecord :=
  if negb (is_nil (LoanRequest_User request)) || Qeq_bool (LoanAmount request) 0
  then (s, Err ErrBadJsonPopulation)
  else
    let '(s', r) :=
      RunInTransaction
        (fun s =>
           user <- get_user ErrUserNotRegistered s ;;
           match User_EmploymentInfo user, User_ResidenceInfo user with
           | Some employment, Some _ =>
               ' (_, loanHistory) <-
                 DefaultActiveLoanIfNecessary now_check (get_loans s) ;;
               let numPrevLoans := List.length (LoanRecords loanHistory) in
               let loanId := UID ++ "-" ++ Itoa numPrevLoans in
               borrowerInfo <-
                 borrowerInfo_from (LoanRecords loanHistory)
                   {| no_loans := 0; successful_loans := 0;
                      earned_qin := QinBalance user |} ;;
               let borrowerApp :=
                 borrowerApp_of UID (LoanAmount request) employment in
               match processBorrowerRequest eraDriver borrowerApp borrowerInfo with
               | None => Err (runtime_panic "index out of range")
               | Some (era_terms, num_not_nil) =>
                   match assign_terms loanId (LoanAmount request) era_terms
                           num_not_nil with
                   | None => Err (runtime_panic "index out of range")
                   | Some terms =>
                       let loanRecord :=
                         approved_loanRecord loanId request user terms
                           now_created in
                       let loanHistory :=
                         {| LoanRecords :=
                              LoanRecords loanHistory ++ [loanRecord] |} in
                       Ok (put_loans loanHistory s, loanRecord)
                   end
               end
           | _, _ => Err ErrUserDataNotFound
           end) s in
    (s', loanRecord <- r ;; Ok (set_Request None loanRecord)).

Definition GetActiveLoan (now : Z) (s : Store) : Store * result LoanRecord :=
  let '(s', r) :=
    RunInTransaction
      (fun s =>
         ' (didModify, loanHistory) <-
           DefaultActiveLoanIfNecessary now (get_loans s) ;;
         Ok (if didModify : bool then put_loans loanHistory s else s, loanHistory))
      s in
  (s',
   loanHistory <- r ;;
   activeLoan <- ActiveLoanForLoanHistory loanHistory ;;
   match activeLoan with
   | None => Err ErrNoActiveLoan
   | Some (_, loan) => Ok (set_Request None loan)
   end).

Definition LoanTermsForId (termId : string) (loanRecord : LoanRecord)
    : option LoanTerms :=
  find (fun terms => TermId terms =? termId) (Terms loanRecord).

(** [(time.Now().AddDate(0, 0, 30).Unix() / 86400 * 86400) * 1000],
    with [AddDate] taken in UTC. *)
Definition due_date (now : Z) : Z :=
  (Z.quot (now + 30 * 86400) 86400 * 86400 * 1000)%Z.

Definition SelectLoanOffer (loanSelectRequest : LoanSelectRequest) (now : Z)
    (s : Store) : Store * result LoanRecord :=
  let location := LoanSelectRequest_Location loanSelectRequest in
  if (LocationName location =? "") && (SelectedTerm loanSelectRequest =? "")
  then (s, Err ErrBadJsonPopulation)
  else
    let '(s', r) :=
      RunInTransaction
        (fun s =>
           user <- get_user ErrUserNotRegistered s ;;
           let loanHistory := get_loans s in
           active <- ActiveLoanForLoanHistory loanHistory ;;
           match active with
           | None => Err ErrNoActiveLoan
           | Some (i, activeLoan) =>
               if negb (State activeLoan =? "APPROVED") then Err ErrLoanInWrongState
               else
                 activeLoan <-
                   (if string_nonempty (SelectedTerm loanSelectRequest) then
                      match AcceptedTerms activeLoan with
                      | Some _ => Err ErrBadJsonPopulation
                      | None =>
                          match LoanTermsForId (SelectedTerm loanSelectRequest)
                                  activeLoan with
                          | None => Err ErrInvalidId
                          | Some terms =>
                              if Qltb (QinBalance user) (QinRequired terms)
                              then Err ErrNotEnoughQin
                              else Ok (set_AcceptedTerms (Some terms) activeLoan)
                          end
                      end
                    else Ok activeLoan) ;;
                 ' (activeLoan, s) <-
                   (if string_nonempty (LocationName location) then
                      match AcceptedTerms activeLoan with
                      | None => Err ErrBadJsonPopulation
                      | Some accepted =>
                          let activeLoan :=
                            set_State "SENT"
                              (set_DueDate (due_date now)
                                 (set_Location (Some location) activeLoan)) in
                          if Qltb (QinBalance user) (QinRequired accepted) then
                            Err (errors_New
                              "Internal Error: user has less QIN than when loan was selected.")
                          else
                            let user :=
                              set_QinBalance
                                (QinBalance user - QinRequired accepted)%Q user in
                            Ok (activeLoan, put_user user s)
                      end
                    else Ok (activeLoan, s)) ;;
                 Ok (put_loans (update_record i (fun _ => activeLoan) loanHistory) s,
                     activeLoan)
           end) s in
    (s', activeLoan <- r ;; Ok (set_Request None activeLoan)).

(** [now_check] is the clock of the default check, [now_stamp] the one
    of the repayment timestamp. *)
Definition Repay (now_check now_stamp : Z) (s : Store) : Store * result LoanRecord :=
  let '(s', r) :=
    RunInTransaction
      (fun s =>
         user <- get_user ErrUserNotRegistered s ;;
         active <- ActiveLoanForLoanHistory (get_loans s) ;;
         match active with
         | None => Err ErrNoActiveLoan
         | Some (i, activeLoan) =>
             if negb (State activeLoan =? "SENT") then Err ErrLoanInWrongState
             else
               ' (didModify, loanHistory) <-
                 DefaultActiveLoanIfNecessary now_check (get_loans s) ;;
               if negb didModify then
                 match AcceptedTerms activeLoan with
                 | None => Err (runtime_panic "nil pointer dereference")
                 | Some accepted =>
                     let timestamp := (now_stamp * 1000)%Z in
                     let activeLoan :=
                       set_State "REPAID"
                         (set_RepaidDate timestamp
                            (set_Repayments
                               (Repayments activeLoan
                                ++ [{| Repayment_Amount := AmountOwed accepted;
                                       Timestamp := timestamp |}])
                               activeLoan)) in
                     let user :=
                       set_QinBalance
                         (QinBalance user
                          + (QinRequired accepted + QinReward accepted))%Q user in
                     Ok (put_loans
                           (update_record i (fun _ => activeLoan) loanHistory)
                           (put_user user s),
                         (true, activeLoan))
                 end
               else Ok (put_loans loanHistory s, (false, activeLoan))
         end) s in
  (s',
   ' (repaid, activeLoan) <- r ;;
   if repaid : bool then Ok (set_Request None activeLoan)
   else Err ErrLoanInDefault).

Definition DeleteActiveLoan (s : Store) : Store * result LoanDeleteResponse :=
  let '(s', r) :=
    RunInTransaction
      (fun s =>
         let loanHistory := get_loans s in
         active <- ActiveLoanForLoanHistory loanHistory ;;
         match active with
         | None => Err ErrNoActiveLoan
         | Some (i, activeLoan) =>
             if negb (State activeLoan =? "APPROVED")
                && negb (State activeLoan =? "PENDING")
             then Err ErrLoanInWrongState
             else
               Ok (put_loans (update_record i (set_State "CANCELED") loanHistory) s,
                   tt)
         end) s in
  (s', _ <- r ;; Ok {| Success := true |}).

Definition GetLoans (now : Z) (s : Store) : Store * result LoanHistory :=
  let '(s', r) :=
    RunInTransaction
      (fun s =>
         ' (didModify, loanHistory) <-
           DefaultActiveLoanIfNecessary now (get_loans s) ;;
         Ok (if didModify : bool then put_loans loanHistory s else s, loanHistory))
      s in
  (s',
   loanHistory <- r ;;
   Ok {| LoanRecords := map (set_Request None) (LoanRecords loanHistory) |}).

(** ** Reachable stores *)

Inductive Op : Type :=
| OpCreateUser (user : User) (now : Z)
| OpPatchUser (user : User)
| OpLoanRequest (eraDriver : ERADriver) (UID : string) (request : LoanRequest)
    (now_created now_check : Z)
| OpGetActiveLoan (now : Z)
| OpSelectLoanOffer (loanSelectRequest : LoanSelectRequest) (now : Z)
| OpRepay (now_check now_stamp : Z)
| OpDeleteActiveLoan
| OpGetLoans (now : Z).

(** The store an operation leaves behind. *)
Definition run_op `{GoRuntime} (op : Op) (s : Store) : Store :=
  match op with
  | OpCreateUser user now => fst (CreateUser user now s)
  | OpPatchUser user => fst (PatchUser user s)
  | OpLoanRequest eraDriver UID request now_created now_check =>
      fst (LoanRequestFun eraDriver UID request now_created now_check s)
  | OpGetActiveLoan now => fst (GetActiveLoan now s)
  | OpSelectLoanOffer loanSelectRequest now =>
      fst (SelectLoanOffer loanSelectRequest now s)
  | OpRepay now_check now_stamp => fst (Repay now_check now_stamp s)
  | OpDeleteActiveLoan => fst (DeleteActiveLoan s)
  | OpGetLoans now => fst (GetLoans now s)
  end.

Definition run_ops `{GoRuntime} (ops : list Op) (s : Store) : Store :=
  fold_left (fun s op => run_op op s) ops s.

(** Nothing is stored under a UID before its first request. *)
Definition empty_store : Store :=
  {| user_entity := None; loans_entity := None |}.

Definition is_active (loan : LoanRecord) : bool :=
  match IsLoanActive loan with
  | Ok true => true
  | _ => false
  end.

Definition active_count (h : LoanHistory) : nat :=
  List.length (filter is_active (LoanRecords h)).

(** A record whose state is one of the known inactive ones. *)
Definition inactive (loan : LoanRecord) : Prop := IsLoanActive loan = Ok false.

(** The history after a default check, and whether it reported a
    change; an error leaves the history as it was. *)
Definition after_default (now : Z) (h : LoanHistory) : LoanHistory * bool :=
  match DefaultActiveLoanIfNecessary now h with
  | Ok (didModify, h') => (h', didModify)
  | Err _ => (h, false)
  end.

(** ** Vocabulary of the statements and sample data *)

(** An assessor whose raw outputs are all out of range. *)
Definition out_of_range_ERA : ERA := {|
  predictProbDefault := fun _ => 7;
  predictInterestRate := fun _ => 3;
  computeQinCollateral := fun _ _ => 0;
  computeQinReward := fun _ _ => - (4);
  rejectBorrower := fun _ => false
|}.

(** The same assessor, except that it rejects probabilities above 1. *)
Definition out_of_range_ERA' : ERA := {|
  predictProbDefault := fun _ => 7;
  predictInterestRate := fun _ => 3;
  computeQinCollateral := fun _ _ => 0;
  computeQinReward := fun _ _ => - (4);
  rejectBorrower := fun p => Qltb 1 p
|}.

Definition sample_app : BorrowerApp := {|
  borrower_id := "uid";
  principal_amount := 1000;
  stated_monthly_income := 2000;
  employment_start_month := 3;
  employment_start_year := 2015;
  employment_status := "EMPLOYED"
|}.

Definition returning_borrower (qin : Q) : BorrowerInformation := {|
  no_loans := 1;
  successful_loans := 1;
  earned_qin := qin
|}.

(** An assessor whose collateral formula returns a negative amount. *)
Definition negative_collateral_ERA : ERA := {|
  predictProbDefault := fun _ => 1 # 2;
  predictInterestRate := linear_rate;
  computeQinCollateral := fun _ _ => - (5);
  computeQinReward := linear_reward;
  rejectBorrower := fun _ => false
|}.

(** A runtime to evaluate examples with: a crude positive stand-in for
    [math.Exp], and the smallest 64-bit integer on overflow. *)
Definition sample_runtime : GoRuntime := {|
  math_Exp := fun x => if Qltb x 0 then 1 / (1 - x) else 1 + x;
  int_overflow := fun _ => min_int64
|}.

Definition known_states : list string :=
  ["PENDING"; "APPROVED"; "REJECTED"; "ACCEPTED"; "SENT"; "REPAID";
   "DEFAULTED"; "CANCELED"].

Definition known_state (s : string) : bool := existsb (String.eqb s) known_states.

(** The handler failed and wrote nothing. *)
Definition failed_unchanged {A : Type} (s : Store) (out : Store * result A) : Prop :=
  fst out = s /\ exists e, snd out = Err e.

(** The presented terms of the non-nil responses, numbered from [idx]. *)
Fixpoint present_all `{GoRuntime} (loanId : string) (amount : Q)
    (era_terms : list (option ERATerms)) (idx : nat) : list LoanTerms :=
  match era_terms with
  | [] => []
  | None :: rest => present_all loanId amount rest idx
  | Some terms :: rest =>
      present_terms loanId amount idx terms
      :: present_all loanId amount rest (S idx)
  end.

(** Both slices of the driver cover its [_num_eras] indices. *)
Definition driver_ok (d : ERADriver) : Prop :=
  (_num_eras d <= List.length (_eras d))%nat
  /\ (_num_eras d <= List.length (_era_external_names d))%nat.

Definition sample_user (qin : Q) : User := {|
  Firstname := "Ana"; Lastname := "Reyes"; PhoneNum := "555";
  DateOfBirth := "1990-01-01"; QinBalance := qin; User_DateCreated := 0;
  User_EmploymentInfo :=
    Some {| EmploymentStatus := "EMPLOYED"; EmploymentJobTitle := "Clerk";
            EmploymentStartMonth := Some 3%Z; EmploymentStartYear := Some 2015%Z;
            EmploymentIncome := Some 2000; EmploymentEducation := "" |};
  User_ResidenceInfo :=
    Some {| ResidenceAddr1 := "1 Main"; ResidenceAddr2 := "";
            ResidenceDistrict := ""; ResidenceCity := "Manila";
            ResidencePostal := ""; ResidenceProvince := "";
            ResidenceStatus := "rent"; ResidenceRentAmt := None |}
|}.

Definition sample_accepted : LoanTerms := {|
  TermId := "uid-0-0"; InterestRate := 5 # 100; QinReward := 1;
  QinRequired := 10; AmountOwed := 1050; OfferedBy := "ABC Analytica"
|}.

(** A record of 1000 PHP in the given state. *)
Definition sample_record (state : string) (due : Z)
    (accepted : option LoanTerms) : LoanRecord := {|
  LoanId := "uid-0"; Amount := 1000; CurrencyCode := "PHP"; DueDate := due;
  Terms := [sample_accepted]; AcceptedTerms := accepted; State := state;
  Location := None; Repayments := []; Memo := ""; Request := None;
  RepaidDate := 0; DateCreated := 0
|}.

Definition sample_store (qin : Q) (records : list LoanRecord) : Store := {|
  user_entity := Some (sample_user qin);
  loans_entity := Some {| LoanRecords := records |}
|}.

Definition sample_request : LoanRequest := {|
  LoanAmount := 1000; LoanMemo := ""; LoanPurpose := "stock";
  TermsAgreed := true; LoanRequest_User := None
|}.

Definition single_active (s : Store) : Prop :=
  (active_count (get_loans s) <= 1)%nat.

Definition overdue_record : LoanRecord :=
  sample_record "SENT" 200000 (Some sample_accepted).

Definition overdue_store : Store := sample_store 10 [overdue_record].

Definition select_both : LoanSelectRequest := {|
  SelectedTerm := "uid-0-0";
  LoanSelectRequest_Location := {| LocationName := "Makati" |}
|}.

Definition defaulted_store : Store :=
  sample_store 10 [sample_record "DEFAULTED" 200000 (Some sample_accepted)].

(** A borrower past the grace period who holds no qin. *)
Definition broke_borrower : BorrowerInformation := {|
  no_loans := 1;
  successful_loans := 0;
  earned_qin := 0
|}.

Definition two_active_store : Store :=
  sample_store 10 [sample_record "PENDING" 0 None;
                   sample_record "SENT" 200000 (Some sample_accepted)].

Definition unknown_state_store : Store :=
  sample_store 10 [sample_record "REPAID" 0 None; sample_record "LOST" 0 None].

(** ** The rounding code on IEEE binary64 values

    The same [Round] and amount-owed code on Rocq's primitive binary64
    floats, to evaluate the figures of the statements without the
    idealisation.  [int(f)] of a NaN, an infinity or a value outside
    the 64-bit range is [None]. *)

Module Binary64.

Definition int_of_float64 (f : float) : option Z :=
  match Prim2SF f with
  | S754_zero _ => Some 0%Z
  | S754_finite s m e =>
      let magnitude :=
        if (0 <=? e)%Z then (Zpos m * 2 ^ e)%Z else Z.shiftr (Zpos m) (- e) in
      let z := if s then (- magnitude)%Z else magnitude in
      if in_int64 z then Some z else None
  | S754_infinity _ | S754_nan => None
  end.

Definition float64_of_int (z : Z) : float :=
  if (z <? 0)%Z then PrimFloat.opp (PrimFloat.of_uint63 (Uint63.of_Z (- z)))
  else PrimFloat.of_uint63 (Uint63.of_Z z).

Definition Copysign_half (f : float) : float :=
  match Prim2SF f with
  | S754_zero true | S754_finite true _ _ | S754_infinity true => (-0x1p-1)%float
  | _ => 0x1p-1%float
  end.

Definition Round (f : float) : option float :=
  option_map float64_of_int (int_of_float64 (PrimFloat.add f (Copysign_half f))).

(** [Round((1.0 + rate) * amount * 100.0) / 100.0] *)
Definition amount_owed (rate amount : float) : option float :=
  option_map (fun r => PrimFloat.div r 100%float)
    (Round (PrimFloat.mul (PrimFloat.mul (PrimFloat.add 1%float rate) amount)
              100%float)).

(** [Round(rate * 10000.0) / 10000.0] *)
Definition presented_rate (rate : float) : option float :=
  option_map (fun r => PrimFloat.div r 10000%float)
    (Round (PrimFloat.mul rate 10000%float)).

(** The binary64 value of the literal [0.05]. *)
Definition rate_0_05 : float := 0x1.999999999999ap-5%float.

(** *** [processBorrowerApp] on binary64 values

    The assessor protocol once more, with [float64] as the machine has
    it.  [<] and [>] are the comparisons of IEEE 754: both are false
    when an operand is NaN, so a NaN falls through every clamp. *)

Record BorrowerApp : Type := {
  borrower_id : string;
  principal_amount : float;
  stated_monthly_income : float;
  employment_start_month : Z;
  employment_start_year : Z;
  employment_status : string
}.

(** The binary64 value of the literal [0.10]. *)
Definition MAX_INTEREST_RATE : float := 0x1.999999999999ap-4%float.

Record BorrowerInformation : Type := {
  no_loans : N;
  successful_loans : N;
  earned_qin : float
}.

Record ERATerms : Type := {
  interest_rate : float;
  qin_collateral : float;
  qin_reward : float;
  interest_reward : float;
  offered_by : string
}.

Record ERA : Type := {
  predictProbDefault : BorrowerApp -> float;
  predictInterestRate : float -> float;
  computeQinCollateral : float -> N -> float;
  computeQinReward : float -> float -> float;
  rejectBorrower : float -> bool
}.

(** Lines 53-59; [prob_default > 1.0] is [1.0 < prob_default]. *)
Definition clamp_prob_default (prob_default : float) : float :=
  if (prob_default <? 0)%float then 0%float
  else if (1 <? prob_default)%float then 1%float
  else prob_default.

(** Lines 80-86. *)
Definition clamp_interest_rate (interest_rate : float) : float :=
  if (interest_rate <? 0)%float then 0%float
  else if (MAX_INTEREST_RATE <? interest_rate)%float then MAX_INTEREST_RATE
  else interest_rate.

(** Lines 94-98. *)
Definition clamp_qin_reward (qin_reward : float) : float :=
  if (qin_reward <? 0)%float then 0%float else qin_reward.

(** Lines 48-102; [nil] is [None]. *)
Definition processBorrowerApp (era : ERA) (borrower_app : BorrowerApp)
    (borrower_information : BorrowerInformation) (loan_fraction : float)
    (offered_by : string) : option ERATerms :=
  let prob_default := clamp_prob_default (predictProbDefault era borrower_app) in
  if rejectBorrower era prob_default then None
  else
    let collateral :=
      if (GRACE_NUM_LOANS <=? no_loans borrower_information)%N then
        let qin_collateral :=
          computeQinCollateral era prob_default
            (successful_loans borrower_information) in
        if (earned_qin borrower_information <? qin_collateral)%float then None
        else Some qin_collateral
      else Some 0%float in
    match collateral with
    | None => None
    | Some qin_collateral =>
        let interest_rate :=
          clamp_interest_rate (predictInterestRate era prob_default) in
        let interest_reward := (loan_fraction * interest_rate)%float in
        let qin_reward :=
          clamp_qin_reward (computeQinReward era prob_default interest_reward) in
        Some {| interest_rate := interest_rate;
                qin_collateral := qin_collateral;
                qin_reward := qin_reward;
                interest_reward := interest_reward;
                offered_by := offered_by |}
    end.

(** The value is a number between [lo] and [hi]. *)
Definition between (lo hi f : float) : bool :=
  ((lo <=? f) && (f <=? hi))%float.

(** An assessor with the linear formulas of the built-in ones and no
    collateral, whose score is undefined (a division of zero by
    zero). *)
Definition undefined_score_ERA : ERA := {|
  predictProbDefault := fun _ => (0 / 0)%float;
  predictInterestRate := fun prob_default =>
    (prob_default * MAX_INTEREST_RATE)%float;
  computeQinCollateral := fun _ _ => 0%float;
  computeQinReward := fun prob_default interest_reward =>
    (prob_default * interest_reward)%float;
  rejectBorrower := fun prob_default => (1 <? prob_default)%float
|}.

Definition sample_app : BorrowerApp := {|
  borrower_id := "uid";
  principal_amount := 1000%float;
  stated_monthly_income := 2000%float;
  employment_start_month := 3;
  employment_start_year := 2015;
  employment_status := "EMPLOYED"
|}.

Definition first_time_borrower : BorrowerInformation :=
  {| no_loans := 0; successful_loans := 0; earned_qin := 0%float |}.

End Binary64.

(** ** Vocabulary of the further properties *)

(** The changes an operation makes to the active record.  [clock]
    tells which readings of the clock may date a pickup. *)
Inductive record_step (clock : Z -> Prop) : LoanRecord -> LoanRecord -> Prop :=
| step_default loan :
    State loan = "SENT" ->
    record_step clock loan (set_State "DEFAULTED" loan)
| step_accept loan terms :
    State loan = "APPROVED" -> AcceptedTerms loan = None ->
    In terms (Terms loan) ->
    record_step clock loan (set_AcceptedTerms (Some terms) loan)
| step_send loan accepted location now :
    State loan = "APPROVED" -> AcceptedTerms loan = Some accepted ->
    clock now ->
    record_step clock loan
      (set_State "SENT"
         (set_DueDate (due_date now) (set_Location (Some location) loan)))
| step_accept_send loan terms location now :
    State loan = "APPROVED" -> AcceptedTerms loan = None ->
    In terms (Terms loan) -> clock now ->
    record_step clock loan
      (set_State "SENT"
         (set_DueDate (due_date now)
            (set_Location (Some location)
               (set_AcceptedTerms (Some terms) loan))))
| step_repay loan accepted timestamp :
    State loan = "SENT" -> AcceptedTerms loan = Some accepted ->
    record_step clock loan
      (set_State "REPAID"
         (set_RepaidDate timestamp
            (set_Repayments
               (Repayments loan
                ++ [{| Repayment_Amount := AmountOwed accepted;
                       Timestamp := timestamp |}])%list
               loan)))
| step_cancel loan :
    State loan = "APPROVED" \/ State loan = "PENDING" ->
    record_step clock loan (set_State "CANCELED" loan).

(** A history after an operation that appends nothing: unchanged, or
    changed in its active record by one [record_step]. *)
Inductive history_update (clock : Z -> Prop) (h : LoanHistory)
    : LoanHistory -> Prop :=
| history_same : history_update clock h h
| history_changed i loan loan' :
    ActiveLoanForLoanHistory h = Ok (Some (i, loan)) ->
    record_step clock loan loan' ->
    history_update clock h (update_record i (fun _ => loan') h).

(** The clock reading an operation stamps a pickup with. *)
Definition op_clock (op : Op) : Z -> Prop :=
  match op with
  | OpSelectLoanOffer _ now => eq now
  | _ => fun _ => False
  end.

(** The state changes of the lifecycle. *)
Definition transition_allowed (from to : string) : Prop :=
  In (from, to)
    [("APPROVED", "APPROVED"); ("APPROVED", "SENT"); ("SENT", "REPAID");
     ("SENT", "DEFAULTED"); ("APPROVED", "CANCELED"); ("PENDING", "CANCELED")].

(** [GetUser]: the stored profile, read in a transaction. *)
Definition GetUser (s : Store) : Store * result User :=
  let '(s', r) :=
    RunInTransaction
      (fun s => user <- get_user ErrNoSuchEntity s ;; Ok (s, user)) s in
  (s', readUser <- r ;; Ok (with_empty_infos readUser)).

(** The number of records in a given state. *)
Definition count_state (state : string) (records : list LoanRecord) : nat :=
  List.length (filter (fun loan => State loan =? state) records).

(** The qin balance of the stored profile. *)
Definition stored_balance (s : Store) : option Q :=
  match user_entity s with
  | Some user => Some (QinBalance user)
  | None => None
  end.

(** What every record stored by the handlers satisfies. *)
Definition well_formed (loan : LoanRecord) : Prop :=
  known_state (State loan) = true
  /\ State loan <> "PENDING"
  /\ (forall terms, AcceptedTerms loan = Some terms -> In terms (Terms loan))
  /\ (In (State loan) ["SENT"; "REPAID"; "DEFAULTED"] ->
      AcceptedTerms loan <> None /\ (0 < DueDate loan)%Z).

(** The pickups of [ops] are dated at or after the epoch. *)
Definition pickup_clocks_nonneg (ops : list Op) : Prop :=
  Forall (fun op => forall now, op_clock op now -> (0 <= now)%Z) ops.

(** The errors of the taxonomy [Repay] answers with. *)
Definition Repay_errors : list Error :=
  [ErrUserNotRegistered; ErrNoActiveLoan; ErrLoanInWrongState; ErrLoanInDefault].

(** The error a response carries, if any. *)
Definition error_of {A : Type} (r : result A) : option Error :=
  match r with
  | Err e => Some e
  | Ok _ => None
  end.

(** The error an operation answers with. *)
Definition op_error `{GoRuntime} (op : Op) (s : Store) : option Error :=
  match op with
  | OpCreateUser user now => error_of (snd (CreateUser user now s))
  | OpPatchUser user => error_of (snd (PatchUser user s))
  | OpLoanRequest eraDriver UID request now_created now_check =>
      error_of (snd (LoanRequestFun eraDriver UID request now_created now_check s))
  | OpGetActiveLoan now => error_of (snd (GetActiveLoan now s))
  | OpSelectLoanOffer loanSelectRequest now =>
      error_of (snd (SelectLoanOffer loanSelectRequest now s))
  | OpRepay now_check now_stamp => error_of (snd (Repay now_check now_stamp s))
  | OpDeleteActiveLoan => error_of (snd (DeleteActiveLoan s))
  | OpGetLoans now => error_of (snd (GetLoans now s))
  end.

(** A borrower's session from registration to repayment. *)
Definition sample_session `{GoRuntime} : list Op :=
  [OpCreateUser (sample_user 0) 1000;
   OpLoanRequest (constructERADriver (1 # 4)) "uid" sample_request 2000 2000;
   OpSelectLoanOffer select_both 3000;
   OpRepay 4000 4000].

Definition DAY : Z := 86400.

(** A registered borrower whose loan is approved and not yet selected. *)
Definition approved_store : Store :=
  sample_store 10 [sample_record "APPROVED" 0 None].

(** [out] is the outcome of a request that writes the profile. *)
Definition profile_write (s : Store) (out : Store * result User) : Prop :=
  (exists user now, out = CreateUser user now s)
  \/ (exists user, out = PatchUser user s).

(** The fields of a profile no handler writes after registration. *)
Definition same_identity (u u' : User) : Prop :=
  Firstname u' = Firstname u /\ Lastname u' = Lastname u
  /\ PhoneNum u' = PhoneNum u /\ DateOfBirth u' = DateOfBirth u
  /\ User_DateCreated u' = User_DateCreated u.

(** What one operation on the store [s] may leave as the profile. *)
Inductive user_step (op : Op) (s : Store) : option User -> Prop :=
| user_kept : user_step op s (user_entity s)
| user_created user now u' :
    op = OpCreateUser user now ->
    user_entity s = None ->
    QinBalance u' = 0%Q ->
    User_DateCreated u' = (now * 1000)%Z ->
    user_step op s (Some u')
| user_patched patch u u' :
    op = OpPatchUser patch ->
    user_entity s = Some u ->
    same_identity u u' ->
    QinBalance u' = QinBalance u ->
    user_step op s (Some u')
| user_debited request now u i loan accepted :
    op = OpSelectLoanOffer request now ->
    user_entity s = Some u ->
    ActiveLoanForLoanHistory (get_loans s) = Ok (Some (i, loan)) ->
    State loan = "APPROVED" ->
    AcceptedTerms loan = Some accepted
    \/ (AcceptedTerms loan = None /\ In accepted (Terms loan)) ->
    (QinRequired accepted <= QinBalance u)%Q ->
    user_step op s
      (Some (set_QinBalance (QinBalance u - QinRequired accepted)%Q u))
| user_credited now_check now_stamp u i loan accepted :
    op = OpRepay now_check now_stamp ->
    user_entity s = Some u ->
    ActiveLoanForLoanHistory (get_loans s) = Ok (Some (i, loan)) ->
    State loan = "SENT" ->
    AcceptedTerms loan = Some accepted ->
    user_step op s
      (Some (set_QinBalance
               (QinBalance u + (QinRequired accepted + QinReward accepted))%Q u)).

(** The record [select_both] leaves at 1000 on [approved_store]. *)
Definition picked_record : LoanRecord :=
  set_State "SENT"
    (set_DueDate (due_date 1000)
       (set_Location (Some {| LocationName := "Makati" |})
          (set_AcceptedTerms (Some sample_accepted)
             (sample_record "APPROVED" 0 None)))).

(** Every loan request of [ops] is made under the identity [UID]. *)
Definition requests_by (UID : string) (ops : list Op) : Prop :=
  Forall (fun op =>
            match op with
            | OpLoanRequest _ UID' _ _ _ => UID' = UID
            | _ => True
            end) ops.

(** Ids spell out positions: record [i] is [UID-i], its offer [j] is
    [UID-i-j]. *)
Definition ids_numbered (UID : string) (h : LoanHistory) : Prop :=
  forall i loan,
    nth_error (LoanRecords h) i = Some loan ->
    LoanId loan = UID ++ "-" ++ Itoa i
    /\ forall j t,
         nth_error (Terms loan) j = Some t ->
         TermId t = LoanId loan ++ "-" ++ Itoa j.

(** The errors of the taxonomy [LoanRequestFun] answers with. *)
Definition LoanRequest_errors : list Error :=
  [ErrBadJsonPopulation; ErrUserNotRegistered; ErrUserDataNotFound;
   ErrLoanAlreadyExists].

(** The request is well formed, the profile has both sections, and the
    active loan, if there is one, is SENT and overdue at [now_check]. *)
Definition loan_request_admissible (request : LoanRequest) (now_check : Z)
    (s : Store) : Prop :=
  LoanRequest_User request = None
  /\ Qeq_bool (LoanAmount request) 0 = false
  /\ (exists user employment residence,
        user_entity s = Some user
        /\ User_EmploymentInfo user = Some employment
        /\ User_ResidenceInfo user = Some residence)
  /\ forall i loan,
       ActiveLoanForLoanHistory (get_loans s) = Ok (Some (i, loan)) ->
       State loan = "SENT" /\ (DueDate loan < now_check * 1000)%Z.

(** The balance covers the collateral of terms that are accepted and
    not yet picked up. *)
Definition collateral_covered (s : Store) : Prop :=
  forall i loan accepted,
    ActiveLoanForLoanHistory (get_loans s) = Ok (Some (i, loan)) ->
    State loan = "APPROVED" ->
    AcceptedTerms loan = Some accepted ->
    exists user,
      user_entity s = Some user
      /\ (QinRequired accepted <= QinBalance user)%Q.

(** The errors of the taxonomy [SelectLoanOffer] and [DeleteActiveLoan]
    answer with. *)
Definition Select_errors : list Error :=
  [ErrBadJsonPopulation; ErrUserNotRegistered; ErrNoActiveLoan;
   ErrLoanInWrongState; ErrInvalidId; ErrNotEnoughQin].

Definition Delete_errors : list Error :=
  [ErrNoActiveLoan; ErrLoanInWrongState].



(** [s'] is the store a successful repayment or cancellation leaves. *)
Definition loan_closed (s : Store) (s' : Store) : Prop :=
  (exists now_check now_stamp repaid,
     Repay now_check now_stamp s = (s', Ok repaid))
  \/ (exists response, DeleteActiveLoan s = (s', Ok response)).

(** ** Status codes *)

Definition StatusBadRequest : Z := 400.
Definition StatusNotFound : Z := 404.
Definition StatusConflict : Z := 409.
Definition StatusInternalServerError : Z := 500.

(** [GetErrorCode] on the errors of the handlers modelled here; the four
    authentication errors belong to [DoAuth].  Errors made on the spot
    with [errors.New], and panics where they are carried as errors, take
    the default branch. *)
Definition GetErrorCode (err : Error) : Z :=
  match err with
  | ErrUserNotFound => StatusNotFound
  | ErrLoanInWrongState => StatusBadRequest
  | ErrNoActiveLoan => StatusNotFound
  | ErrInvalidId => StatusNotFound
  | ErrUserAlreadyExists => StatusConflict
  | ErrUserNotRegistered => StatusNotFound
  | ErrLoanInDefault => StatusBadRequest
  | ErrNoSuchEntity => StatusNotFound
  | ErrNotEnoughQin => StatusBadRequest
  | ErrBadJsonPopulation => StatusBadRequest
  | ErrLoanAlreadyExists => StatusConflict
  | ErrUserDataNotFound => StatusNotFound
  | errors_New _ | runtime_panic _ => StatusInternalServerError
  end.

(** The driver of a loan request holds the assessors it counts. *)
Definition op_driver_ok (op : Op) : Prop :=
  match op with
  | OpLoanRequest eraDriver _ _ _ _ => driver_ok eraDriver
  | _ => True
  end.

(** ** Authentication (era.go, [Auth] and [DoAuth])

    [Auth] answers one request at a time on a pair of channels; a
    handler sends its token and takes the next answer.  The two ends are
    modelled apart: [respond] is the answer [Auth] computes for a
    request, [DoAuth] is what a handler makes of the answer it
    receives. *)
Module FirebaseAuth.

Inductive AuthError : Type :=
| ErrAuthFailed
| ErrEmailNotValidated
| ErrUserDisabled
| ErrAuthTokenNotProvided.

Definition AuthError_eqb (a b : AuthError) : bool :=
  match a, b with
  | ErrAuthFailed, ErrAuthFailed
  | ErrEmailNotValidated, ErrEmailNotValidated
  | ErrUserDisabled, ErrUserDisabled
  | ErrAuthTokenNotProvided, ErrAuthTokenNotProvided => true
  | _, _ => false
  end.

(** [auth.UserRecord], as far as [Auth] reads it. *)
Record UserRecord : Type := {
  Disabled : bool;
  EmailVerified : bool;
  UID : string
}.

(** The two calls [Auth] makes on the Firebase client; [None] is a
    non-nil error. *)
Record Client : Type := {
  VerifyIDToken : string -> option string;
  GetUser : string -> option UserRecord
}.

(** [UserInfo_UID] is [UserInfo.UID], empty in the zero value. *)
Record FirebaseAuthResponse : Type := {
  Success : bool;
  Error : option AuthError;
  UserInfo_UID : string
}.

Definition zero_response : FirebaseAuthResponse :=
  {| Success := false; Error := None; UserInfo_UID := "" |}.

(** The body of the [authRequests] case of [Auth]. *)
Definition respond (client : Client) (token : string) : FirebaseAuthResponse :=
  match VerifyIDToken client token with
  | None =>
      {| Success := false; Error := Some ErrAuthFailed; UserInfo_UID := "" |}
  | Some tokenUID =>
      match GetUser client tokenUID with
      | None =>
          {| Success := false; Error := Some ErrAuthFailed; UserInfo_UID := "" |}
      | Some userObj =>
          if Disabled userObj then
            {| Success := false; Error := Some ErrUserDisabled;
               UserInfo_UID := UID userObj |}
          else if negb (EmailVerified userObj) then
            {| Success := false; Error := Some ErrEmailNotValidated;
               UserInfo_UID := UID userObj |}
          else
            {| Success := true; Error := None; UserInfo_UID := UID userObj |}
      end
  end.

(** [token] is the [X-firebase-token] header, [response] the answer
    taken from [authResponses]. *)
Definition DoAuth (token : string) (requireEmailVerification : bool)
    (response : FirebaseAuthResponse)
    : FirebaseAuthResponse * option AuthError :=
  if token =? "" then (zero_response, Some ErrAuthTokenNotProvided)
  else if negb (Success response) then
    if negb requireEmailVerification
       && match Error response with
          | Some e => AuthError_eqb e ErrEmailNotValidated
          | None => false
          end
    then (response, None)
    else (response, Error response)
  else (response, None).

End FirebaseAuth.

(** * Properties *)

Close Scope string_scope.

(** ** Comparisons and rounding *)

Lemma Qltb_lt (a b : Q) : Qltb a b = true <-> a < b.
Proof. unfold Qltb, Qlt. apply Z.ltb_lt. Qed.

Lemma Qltb_ge (a b : Q) : Qltb a b = false <-> b <= a.
Proof. unfold Qltb, Qle. apply Z.ltb_ge. Qed.

Ltac case_Qltb a b :=
  let E := fresh "E" in
  destruct (Qltb a b) eqn:E;
  [apply Qltb_lt in E | apply Qltb_ge in E].

Lemma clamp_prob_default_bounds (p : Q) :
  0 <= clamp_prob_default p <= 1.
Proof.
  unfold clamp_prob_default.
  case_Qltb p 0; [lra|].
  case_Qltb 1 p; lra.
Qed.

Lemma clamp_prob_default_id (p : Q) :
  0 <= p <= 1 -> clamp_prob_default p = p.
Proof.
  intros [H0 H1]. unfold clamp_prob_default.
  case_Qltb p 0; [lra|].
  case_Qltb 1 p; [lra|reflexivity].
Qed.

Lemma clamp_interest_rate_bounds (r : Q) :
  0 <= clamp_interest_rate r <= MAX_INTEREST_RATE.
Proof.
  unfold clamp_interest_rate, MAX_INTEREST_RATE.
  case_Qltb r 0; [lra|].
  case_Qltb (1 # 10) r; lra.
Qed.

Lemma clamp_qin_reward_nonneg (r : Q) : 0 <= clamp_qin_reward r.
Proof.
  unfold clamp_qin_reward. case_Qltb r 0; lra.
Qed.

(** Every method call inside [processBorrowerApp] passes the clamped
    probability: two assessors that agree on the unit interval are
    indistinguishable. *)
Lemma processBorrowerApp_ext (era era' : ERA) app info lf name :
  predictProbDefault era app = predictProbDefault era' app ->
  (forall p, 0 <= p <= 1 ->
     rejectBorrower era p = rejectBorrower era' p
     /\ predictInterestRate era p = predictInterestRate era' p
     /\ (forall n, computeQinCollateral era p n = computeQinCollateral era' p n)
     /\ (forall r, computeQinReward era p r = computeQinReward era' p r)) ->
  processBorrowerApp era app info lf name = processBorrowerApp era' app info lf name.
Proof.
  intros Hp Hagree. unfold processBorrowerApp, required_collateral.
  rewrite <- Hp.
  destruct (Hagree _ (clamp_prob_default_bounds (predictProbDefault era app)))
    as (Hrej & Hrate & Hcol & Hrew).
  rewrite <- Hrej, <- Hrate, <- Hcol.
  destruct (rejectBorrower era _); [reflexivity|].
  destruct (GRACE_NUM_LOANS <=? no_loans info)%N.
  - destruct (Qltb _ _); [reflexivity|]. now rewrite Hrew.
  - now rewrite Hrew.
Qed.

Lemma processBorrowerApp_emitted_bounds (era : ERA) app info lf name terms :
  processBorrowerApp era app info lf name = Some terms ->
  0 <= interest_rate terms <= MAX_INTEREST_RATE /\ 0 <= qin_reward terms.
Proof.
  unfold processBorrowerApp.
  destruct (rejectBorrower era _); [discriminate|].
  destruct (required_collateral era _ info); [|discriminate].
  intros [= <-]. cbn.
  split; [apply clamp_interest_rate_bounds | apply clamp_qin_reward_nonneg].
Qed.

(** Whatever number an assessor returns, the probability handed to its
    other methods lies in the unit interval (the raw value is clamped,
    and assessors that agree on the unit interval give the same
    result), every emitted response has an interest rate between 0 and
    [MAX_INTEREST_RATE], and its qin reward is not negative.  This is
    the behaviour on raw outputs that are numbers; what the clamps do
    with a NaN is settled on binary64 values below. *)
Theorem clamping_bounds (era : ERA) (app : BorrowerApp)
    (info : BorrowerInformation) (lf : Q) (name : string) :
  0 <= clamp_prob_default (predictProbDefault era app) <= 1
  /\ (forall era' : ERA,
        predictProbDefault era app = predictProbDefault era' app ->
        (forall p, 0 <= p <= 1 ->
           rejectBorrower era p = rejectBorrower era' p
           /\ predictInterestRate era p = predictInterestRate era' p
           /\ (forall n, computeQinCollateral era p n = computeQinCollateral era' p n)
           /\ (forall r, computeQinReward era p r = computeQinReward era' p r)) ->
        processBorrowerApp era app info lf name
        = processBorrowerApp era' app info lf name)
  /\ (forall terms,
        processBorrowerApp era app info lf name = Some terms ->
        0 <= interest_rate terms <= MAX_INTEREST_RATE
        /\ 0 <= qin_reward terms).
Proof.
  split; [apply clamp_prob_default_bounds|].
  split; [intros era'; apply processBorrowerApp_ext|].
  intros terms. apply processBorrowerApp_emitted_bounds.
Qed.

Lemma clamping_bounds_witness :
  processBorrowerApp out_of_range_ERA sample_app (returning_borrower 0) 20 "X"
  = processBorrowerApp out_of_range_ERA' sample_app (returning_borrower 0) 20 "X"
  /\ exists terms,
       processBorrowerApp out_of_range_ERA sample_app (returning_borrower 0) 20 "X"
       = Some terms
       /\ (0 <= interest_rate terms <= MAX_INTEREST_RATE
           /\ 0 <= qin_reward terms).
Proof.
  pose proof (clamping_bounds out_of_range_ERA sample_app
                (returning_borrower 0) 20 "X") as (_ & Hext & Hemit).
  split.
  - apply Hext; [reflexivity|].
    intros p [_ Hp]. cbn.
    repeat split. symmetry. now apply Qltb_ge.
  - eexists. split; [reflexivity|].
    apply Hemit. reflexivity.
Defined.

(** *** The clamps on binary64 values *)

Lemma SFcompare_antisym (x y : spec_float) :
  SFcompare y x = option_map CompOpp (SFcompare x y).
Proof.
  destruct x as [s1|s1| |s1 m1 e1], y as [s2|s2| |s2 m2 e2]; cbn;
    try reflexivity;
    try (destruct s1; reflexivity);
    try (destruct s2; reflexivity);
    try (destruct s1, s2; reflexivity).
  assert (Hm : Pos.compare_cont Eq m2 m1
               = CompOpp (Pos.compare_cont Eq m1 m2))
    by (rewrite Pos.compare_cont_antisym; reflexivity).
  destruct s1, s2; cbn; try reflexivity;
    rewrite (Z.compare_antisym e1 e2);
    destruct (e1 ?= e2)%Z; cbn;
    rewrite ?Hm, ?CompOpp_involutive; reflexivity.
Qed.

Lemma SFcompare_refl (x : spec_float) :
  x <> S754_nan -> SFcompare x x = Some Eq.
Proof.
  destruct x as [s|s| |s m e]; cbn; intros Hx;
    try contradiction; try reflexivity.
  - destruct s; reflexivity.
  - destruct s; rewrite Z.compare_refl, Pos.compare_cont_refl; reflexivity.
Qed.

Lemma is_nan_Prim2SF (f : float) :
  is_nan f = true <-> Prim2SF f = S754_nan.
Proof.
  unfold is_nan. rewrite FloatAxioms.eqb_spec. unfold SFeqb. split.
  - intros Hf. destruct (Prim2SF f) as [s|s| |s m e] eqn:Hx; try reflexivity;
      rewrite SFcompare_refl in Hf by discriminate; discriminate.
  - intros ->. reflexivity.
Qed.

Lemma is_nan_false_Prim2SF (f : float) :
  is_nan f = false <-> Prim2SF f <> S754_nan.
Proof.
  rewrite <- is_nan_Prim2SF. destruct (is_nan f); split; congruence.
Qed.

Lemma ltb_nan (x y : float) :
  is_nan x = true \/ is_nan y = true ->
  (x <? y)%float = false /\ (x <=? y)%float = false.
Proof.
  rewrite !is_nan_Prim2SF, FloatAxioms.ltb_spec, FloatAxioms.leb_spec. unfold SFltb, SFleb.
  intros [-> | ->]; [split; reflexivity|].
  destruct (Prim2SF x); split; reflexivity.
Qed.

Lemma ltb_false_leb (x y : float) :
  is_nan x = false -> is_nan y = false ->
  (x <? y)%float = false -> (y <=? x)%float = true.
Proof.
  rewrite !is_nan_false_Prim2SF, FloatAxioms.ltb_spec, FloatAxioms.leb_spec. unfold SFltb, SFleb.
  intros Hx Hy. rewrite (SFcompare_antisym (Prim2SF x) (Prim2SF y)).
  destruct (SFcompare (Prim2SF x) (Prim2SF y)) as [[| |]|] eqn:Hc; cbn;
    try reflexivity; try discriminate.
  destruct (Prim2SF x), (Prim2SF y); cbn in Hc; congruence.
Qed.

Lemma clamps_keep_nan (f : float) :
  is_nan f = true ->
  Binary64.clamp_prob_default f = f
  /\ Binary64.clamp_interest_rate f = f
  /\ Binary64.clamp_qin_reward f = f.
Proof.
  intros Hf.
  unfold Binary64.clamp_prob_default, Binary64.clamp_interest_rate,
    Binary64.clamp_qin_reward.
  rewrite (proj1 (ltb_nan f 0 (or_introl Hf))).
  rewrite (proj1 (ltb_nan 1 f (or_intror Hf))).
  rewrite (proj1 (ltb_nan Binary64.MAX_INTEREST_RATE f (or_intror Hf))).
  auto.
Qed.

Lemma clamps_bound_numbers (f : float) :
  is_nan f = false ->
  Binary64.between 0 1 (Binary64.clamp_prob_default f) = true
  /\ Binary64.between 0 Binary64.MAX_INTEREST_RATE
       (Binary64.clamp_interest_rate f) = true
  /\ (0 <=? Binary64.clamp_qin_reward f)%float = true.
Proof.
  intros Hf.
  unfold Binary64.between, Binary64.clamp_prob_default,
    Binary64.clamp_interest_rate, Binary64.clamp_qin_reward.
  destruct (f <? 0)%float eqn:Hneg; [repeat split; reflexivity|].
  pose proof (@ltb_false_leb f 0 Hf eq_refl Hneg) as Hzero.
  repeat split.
  - destruct (1 <? f)%float eqn:Hone; [reflexivity|].
    rewrite Hzero. exact (@ltb_false_leb 1 f eq_refl Hf Hone).
  - destruct (Binary64.MAX_INTEREST_RATE <? f)%float eqn:Hmax; [reflexivity|].
    rewrite Hzero.
    exact (@ltb_false_leb Binary64.MAX_INTEREST_RATE f eq_refl Hf Hmax).
  - exact Hzero.
Qed.

Lemma clamps_is_nan (f : float) :
  is_nan (Binary64.clamp_prob_default f) = is_nan f
  /\ is_nan (Binary64.clamp_interest_rate f) = is_nan f
  /\ is_nan (Binary64.clamp_qin_reward f) = is_nan f.
Proof.
  destruct (is_nan f) eqn:Hf.
  - destruct (@clamps_keep_nan f Hf) as (-> & -> & ->). auto.
  - destruct (@clamps_bound_numbers f Hf) as (Hp & Hr & Hq).
    unfold Binary64.between in Hp, Hr.
    apply andb_prop in Hp, Hr. destruct Hp as [Hp _], Hr as [Hr _].
    assert (Hnum : forall g, (0 <=? g)%float = true -> is_nan g = false).
    { intros g Hg. destruct (is_nan g) eqn:Hnan; [|reflexivity].
      rewrite (proj2 (ltb_nan 0 g (or_intror Hnan))) in Hg. discriminate. }
    auto.
Qed.

(** On binary64 values an emitted rate or reward is out of range only
    by being NaN, which it is exactly when the assessor's raw value is;
    the same holds for the probability handed to the assessor's other
    methods.  The infinities are clamped like any number. *)
Lemma emitted_terms_bounded_or_nan (era : Binary64.ERA)
    (app : Binary64.BorrowerApp) (info : Binary64.BorrowerInformation)
    (lf : float) (name : string) (terms : Binary64.ERATerms) :
  Binary64.processBorrowerApp era app info lf name = Some terms ->
  let raw := Binary64.predictProbDefault era app in
  let prob := Binary64.clamp_prob_default raw in
  let raw_rate := Binary64.predictInterestRate era prob in
  let raw_reward :=
    Binary64.computeQinReward era prob (Binary64.interest_reward terms) in
  is_nan prob = is_nan raw
  /\ (is_nan raw = false -> Binary64.between 0 1 prob = true)
  /\ is_nan (Binary64.interest_rate terms) = is_nan raw_rate
  /\ (is_nan raw_rate = false ->
      Binary64.between 0 Binary64.MAX_INTEREST_RATE
        (Binary64.interest_rate terms) = true)
  /\ is_nan (Binary64.qin_reward terms) = is_nan raw_reward
  /\ (is_nan raw_reward = false ->
      (0 <=? Binary64.qin_reward terms)%float = true).
Proof.
  unfold Binary64.processBorrowerApp.
  destruct (Binary64.rejectBorrower era _); [discriminate|].
  match goal with
  | |- match ?c with _ => _ end = _ -> _ => destruct c; [|discriminate]
  end.
  intros [= <-]. cbn.
  repeat split;
    try apply clamps_is_nan;
    intros Hnum; apply (@clamps_bound_numbers _ Hnum).
Qed.

(** C5.  The claim fails on the code for an assessor whose score is not
    a number.  A NaN is neither below 0 nor above 1, so the first clamp
    takes the branch commented "if between 0 and 1, then take no
    action" and hands the NaN on; it passes [rejectBorrower], the rate
    and the reward computed from it are NaN again, and both pass their
    clamps the same way.  The response is emitted with a probability, a
    rate and a reward outside the ranges the clamps are there for. *)
Theorem undefined_score_passes_the_clamps :
  let era := Binary64.undefined_score_ERA in
  let prob :=
    Binary64.clamp_prob_default
      (Binary64.predictProbDefault era Binary64.sample_app) in
  exists terms,
    Binary64.processBorrowerApp era Binary64.sample_app
      Binary64.first_time_borrower 20%float "X" = Some terms
    /\ is_nan prob = true
    /\ Binary64.between 0 1 prob = false
    /\ is_nan (Binary64.interest_rate terms) = true
    /\ Binary64.between 0 Binary64.MAX_INTEREST_RATE
         (Binary64.interest_rate terms) = false
    /\ is_nan (Binary64.qin_reward terms) = true
    /\ (0 <=? Binary64.qin_reward terms)%float = false.
Proof.
  intros era prob. eexists. split; [vm_compute; reflexivity|].
  repeat split; vm_compute; reflexivity.
Qed.

(** ** The built-in scorers *)

(** [dotProduct] does not panic in the built-in scorers: the
    probability is the logistic of the dot product. *)
Lemma KivaERA_featureToProb_defined `{GoRuntime} (borrower_app : BorrowerApp) :
  KivaERA_predictProbDefault borrower_app
  = logistic
      (0 + 0 * 0 + 0 * 0
       + - (392992243318379 # 100000000000000) * 1
       + (18010882525536 # 10000000000000000) * principal_amount borrower_app).
Proof. reflexivity. Qed.

Lemma ProsperERA_featureToProb_defined `{GoRuntime} (borrower_app : BorrowerApp) :
  ProsperERA_predictProbDefault borrower_app
  = logistic
      (0 + 0 * 0 + 0 * 0 + 0 * 0
       + (853254321972573 # 10000000000000000) * 1
       + (191903762849344 # 10000000000000000000)
         * principal_amount borrower_app
       + - (281892322338568 # 10000000000000000000)
         * stated_monthly_income borrower_app).
Proof. reflexivity. Qed.

(** ** Collateral *)

(** C6. The collateral of an emitted response is whatever
    [computeQinCollateral] returned: for an assessor returning -5 and a
    borrower past the grace period holding no qin, the response is
    emitted with collateral -5. *)
Theorem collateral_not_clamped :
  exists terms,
    processBorrowerApp negative_collateral_ERA sample_app
      (returning_borrower 0) 20 "X" = Some terms
    /\ qin_collateral terms == - (5)
    /\ ~ 0 <= qin_collateral terms.
Proof.
  eexists. split; [reflexivity|]. cbn. split; [reflexivity|].
  intros H. unfold Qle in H. cbn in H. lia.
Qed.

(** The collateral is not negative as soon as the assessor's formula is
    not negative on the unit interval. *)
Lemma collateral_nonneg (era : ERA) app info lf name terms :
  (forall p n, 0 <= p <= 1 -> 0 <= computeQinCollateral era p n) ->
  processBorrowerApp era app info lf name = Some terms ->
  0 <= qin_collateral terms.
Proof.
  intros Hpos. unfold processBorrowerApp, required_collateral.
  destruct (rejectBorrower era _); [discriminate|].
  destruct (GRACE_NUM_LOANS <=? no_loans info)%N.
  - destruct (Qltb _ _); [discriminate|].
    intros [= <-]. cbn. apply Hpos, clamp_prob_default_bounds.
  - intros [= <-]. cbn. lra.
Qed.

Lemma inject_N_nonneg (n : N) : 0 <= inject_Z (Z.of_N n).
Proof.
  change 0 with (inject_Z 0). rewrite <- Zle_Qle. lia.
Qed.

Lemma linear_collateral_nonneg (p : Q) (n : N) :
  0 <= p -> 0 <= linear_collateral p n.
Proof.
  intros Hp. unfold linear_collateral, MAX_QIN_COLLATERAL.
  pose proof (inject_N_nonneg n) as Hn.
  apply Qmult_le_0_compat; [lra|].
  apply Qle_shift_div_l; lra.
Qed.

Lemma linear_collateral_antitone (p : Q) (s1 s2 : N) :
  0 <= p -> (s1 <= s2)%N ->
  linear_collateral p s2 <= linear_collateral p s1.
Proof.
  intros Hp Hs. unfold linear_collateral, MAX_QIN_COLLATERAL.
  pose proof (inject_N_nonneg s1) as H1.
  assert (H12 : inject_Z (Z.of_N s1) <= inject_Z (Z.of_N s2))
    by (rewrite <- Zle_Qle; lia).
  set (a := inject_Z (Z.of_N s1)) in *.
  set (b := inject_Z (Z.of_N s2)) in *.
  assert (Hinv : 1 / (b + 1) <= 1 / (a + 1)).
  { apply Qle_shift_div_l; [lra|].
    unfold Qdiv. rewrite Qmult_1_l, Qmult_comm.
    apply Qle_shift_div_r; lra. }
  rewrite (Qmult_comm _ (1 / (b + 1))), (Qmult_comm _ (1 / (a + 1))).
  apply Qmult_le_compat_r; [exact Hinv | lra].
Qed.

(** With the built-in formula the collateral of an emitted response
    is not negative. *)
Lemma builtin_collateral_nonneg (era : ERA) app info lf name terms :
  computeQinCollateral era = linear_collateral ->
  processBorrowerApp era app info lf name = Some terms ->
  0 <= qin_collateral terms.
Proof.
  intros Hformula. apply collateral_nonneg.
  intros p n [Hp _]. rewrite Hformula. now apply linear_collateral_nonneg.
Qed.

(** C7. For a probability of default (a value that is not negative)
    the collateral each built-in assessor asks for does not grow with
    the number of successful loans. *)
Theorem collateral_weakly_decreasing `{GoRuntime} (rand_Float64 prob : Q)
    (s1 s2 : N) :
  0 <= prob -> (s1 <= s2)%N ->
  computeQinCollateral KivaERA prob s2 <= computeQinCollateral KivaERA prob s1
  /\ computeQinCollateral ProsperERA prob s2
     <= computeQinCollateral ProsperERA prob s1
  /\ computeQinCollateral NaiveERA prob s2 <= computeQinCollateral NaiveERA prob s1
  /\ computeQinCollateral (RandomERA rand_Float64) prob s2
     <= computeQinCollateral (RandomERA rand_Float64) prob s1.
Proof.
  intros Hp Hs. cbn.
  repeat split; now apply linear_collateral_antitone.
Qed.

Lemma collateral_weakly_decreasing_witness :
  let H := sample_runtime in
  computeQinCollateral KivaERA (1 # 2) 3 <= computeQinCollateral KivaERA (1 # 2) 1
  /\ computeQinCollateral ProsperERA (1 # 2) 3
     <= computeQinCollateral ProsperERA (1 # 2) 1
  /\ computeQinCollateral NaiveERA (1 # 2) 3
     <= computeQinCollateral NaiveERA (1 # 2) 1
  /\ computeQinCollateral (RandomERA (1 # 4)) (1 # 2) 3
     <= computeQinCollateral (RandomERA (1 # 4)) (1 # 2) 1.
Proof.
  intros H.
  apply (@collateral_weakly_decreasing H (1 # 4) (1 # 2) 1%N 3%N).
  - unfold Qle. cbn. lia.
  - lia.
Defined.

(** ** Rounding *)














(** ** The active loan *)

Lemma update_nth_app {A : Type} (f : A -> A) (pre : list A) (x : A) (post : list A) :
  update_nth (List.length pre) f (pre ++ x :: post) = pre ++ f x :: post.
Proof.
  induction pre as [|y pre IH]; cbn; [reflexivity|]. now rewrite IH.
Qed.

Lemma is_active_true (loan : LoanRecord) :
  is_active loan = true <-> IsLoanActive loan = Ok true.
Proof.
  unfold is_active. destruct (IsLoanActive loan) as [[|]|]; split; congruence.
Qed.

Lemma inactive_not_active (loan : LoanRecord) :
  inactive loan -> is_active loan = false.
Proof. unfold inactive, is_active. now intros ->. Qed.

Lemma filter_inactive (l : list LoanRecord) :
  Forall inactive l -> filter is_active l = [].
Proof.
  induction 1 as [|x l Hx _ IH]; cbn; [reflexivity|].
  now rewrite (inactive_not_active Hx).
Qed.

(** A history with one designated record and only inactive records
    around it. *)
Lemma active_count_around (pre post : list LoanRecord) (loan : LoanRecord) :
  Forall inactive pre -> Forall inactive post ->
  active_count {| LoanRecords := pre ++ loan :: post |}
  = if is_active loan then 1%nat else 0%nat.
Proof.
  intros Hpre Hpost. unfold active_count. cbn.
  rewrite filter_app, (filter_inactive Hpre). cbn.
  rewrite (filter_inactive Hpost). now destruct (is_active loan).
Qed.

Lemma ActiveLoan_from_inactive (l : list LoanRecord) (i : nat) found :
  Forall inactive l -> ActiveLoan_from l i found = Ok found.
Proof.
  intros Hl. revert i. induction Hl as [|x l Hx _ IH]; intros i; cbn.
  - reflexivity.
  - rewrite Hx. cbn. apply IH.
Qed.

(** What a successful scan says about the records it has seen. *)
Lemma ActiveLoan_from_inv (l : list LoanRecord) (i : nat) found res :
  ActiveLoan_from l i found = Ok res ->
  (res = found /\ Forall inactive l)
  \/ (found = None
      /\ exists pre loan post,
           l = pre ++ loan :: post
           /\ res = Some ((i + List.length pre)%nat, loan)
           /\ IsLoanActive loan = Ok true
           /\ Forall inactive pre /\ Forall inactive post).
Proof.
  revert i found. induction l as [|x l IH]; intros i found; cbn.
  - intros [= <-]. left. split; [reflexivity | constructor].
  - destruct (IsLoanActive x) as [[|]|] eqn:Hx; cbn; [| |discriminate].
    + destruct found as [p|]; [discriminate|].
      intros Hscan. right. split; [reflexivity|].
      destruct (IH _ _ Hscan) as [[-> Hl]|[[=] _]].
      exists [], x, l. cbn. rewrite Nat.add_0_r.
      repeat split; auto.
    + intros Hscan.
      destruct (IH _ _ Hscan)
        as [[-> Hl]|(-> & pre & loan & post & -> & -> & Hact & Hpre & Hpost)].
      * left. split; [reflexivity | now constructor].
      * right. split; [reflexivity|].
        exists (x :: pre), loan, post. cbn.
        rewrite Nat.add_succ_r.
        repeat split; auto.
Qed.

Lemma ActiveLoanForLoanHistory_None (h : LoanHistory) :
  ActiveLoanForLoanHistory h = Ok None <-> Forall inactive (LoanRecords h).
Proof.
  unfold ActiveLoanForLoanHistory. split.
  - intros Hscan.
    destruct (ActiveLoan_from_inv _ _ _ Hscan)
      as [[_ Hl]|(_ & pre & loan & post & _ & [=] & _)].
    exact Hl.
  - apply ActiveLoan_from_inactive.
Qed.

Lemma ActiveLoanForLoanHistory_Some (h : LoanHistory) (i : nat) (loan : LoanRecord) :
  ActiveLoanForLoanHistory h = Ok (Some (i, loan)) <->
  exists pre post,
    LoanRecords h = pre ++ loan :: post
    /\ i = List.length pre
    /\ IsLoanActive loan = Ok true
    /\ Forall inactive pre /\ Forall inactive post.
Proof.
  unfold ActiveLoanForLoanHistory. split.
  - intros Hscan.
    destruct (ActiveLoan_from_inv _ _ _ Hscan)
      as [[[=] _]|(_ & pre & loan' & post & Hl & [= -> ->] & Hact & Hpre & Hpost)].
    exists pre, post. auto.
  - intros (pre & post & -> & -> & Hact & Hpre & Hpost).
    change (List.length pre) with (0 + List.length pre)%nat.
    generalize 0%nat. induction Hpre as [|x pre Hx _ IH]; intros k; cbn.
    + rewrite Hact. cbn. rewrite Nat.add_0_r.
      now apply ActiveLoan_from_inactive.
    + rewrite Hx. cbn. rewrite IH. do 3 f_equal. lia.
Qed.

Lemma active_count_None (h : LoanHistory) :
  ActiveLoanForLoanHistory h = Ok None -> active_count h = 0%nat.
Proof.
  intros Hn. apply ActiveLoanForLoanHistory_None in Hn.
  unfold active_count. now rewrite (filter_inactive Hn).
Qed.

Lemma active_count_Some (h : LoanHistory) (i : nat) (loan : LoanRecord) :
  ActiveLoanForLoanHistory h = Ok (Some (i, loan)) -> active_count h = 1%nat.
Proof.
  intros Hs. apply ActiveLoanForLoanHistory_Some in Hs.
  destruct Hs as (pre & post & Hl & _ & Hact & Hpre & Hpost).
  destruct h as [l]. cbn in Hl. subst l.
  rewrite active_count_around by assumption.
  apply is_active_true in Hact. now rewrite Hact.
Qed.

(** Writing through the pointer the scan returned. *)
Lemma active_count_update (h : LoanHistory) (i : nat) (loan : LoanRecord)
    (f : LoanRecord -> LoanRecord) :
  ActiveLoanForLoanHistory h = Ok (Some (i, loan)) ->
  active_count (update_record i f h) = if is_active (f loan) then 1%nat else 0%nat.
Proof.
  intros Hs. apply ActiveLoanForLoanHistory_Some in Hs.
  destruct Hs as (pre & post & Hl & -> & Hact & Hpre & Hpost).
  unfold update_record. rewrite Hl, update_nth_app.
  now apply active_count_around.
Qed.

(** Any successful scan bounds the number of active records. *)
Lemma active_count_scanned (h : LoanHistory) res :
  ActiveLoanForLoanHistory h = Ok res -> (active_count h <= 1)%nat.
Proof.
  destruct res as [[i loan]|]; intros Hs.
  - rewrite (active_count_Some _ Hs). lia.
  - rewrite (active_count_None _ Hs). lia.
Qed.

(** ** The lazy default check *)

Open Scope string_scope.

Lemma DefaultActiveLoanIfNecessary_inv (now : Z) (h : LoanHistory) b h' :
  DefaultActiveLoanIfNecessary now h = Ok (b, h') ->
  (b = false /\ h' = h /\ exists res, ActiveLoanForLoanHistory h = Ok res)
  \/ (b = true
      /\ exists i loan,
           ActiveLoanForLoanHistory h = Ok (Some (i, loan))
           /\ State loan = "SENT"
           /\ DueDate loan <> 0%Z
           /\ (DueDate loan < now * 1000)%Z
           /\ h' = update_record i (set_State "DEFAULTED") h).
Proof.
  unfold DefaultActiveLoanIfNecessary.
  destruct (ActiveLoanForLoanHistory h) as [[[i loan]|]|] eqn:Hs; cbn;
    [| |discriminate].
  - destruct (State loan =? "SENT") eqn:Hst.
    + destruct (DueDate loan =? 0)%Z eqn:Hz; [discriminate|].
      destruct (DueDate loan <? now * 1000)%Z eqn:Hd; intros [= <- <-].
      * right. split; [reflexivity|]. exists i, loan.
        apply String.eqb_eq in Hst. apply Z.eqb_neq in Hz. apply Z.ltb_lt in Hd.
        auto.
      * left. eauto.
    + intros [= <- <-]. left. eauto.
  - intros [= <- <-]. left. eauto.
Qed.

(** When the check fires. *)
Lemma DefaultActiveLoanIfNecessary_fires (now : Z) (h : LoanHistory) i loan :
  ActiveLoanForLoanHistory h = Ok (Some (i, loan)) ->
  State loan = "SENT" -> DueDate loan <> 0%Z -> (DueDate loan < now * 1000)%Z ->
  DefaultActiveLoanIfNecessary now h
  = Ok (true, update_record i (set_State "DEFAULTED") h).
Proof.
  intros Hs Hst Hz Hd. unfold DefaultActiveLoanIfNecessary. rewrite Hs. cbn.
  rewrite Hst. cbn.
  apply Z.eqb_neq in Hz. apply Z.ltb_lt in Hd. now rewrite Hz, Hd.
Qed.

(** When the check leaves the history alone. *)
Lemma DefaultActiveLoanIfNecessary_quiet (now : Z) (h : LoanHistory) i loan :
  ActiveLoanForLoanHistory h = Ok (Some (i, loan)) ->
  State loan <> "SENT"
  \/ (DueDate loan <> 0%Z /\ (now * 1000 <= DueDate loan)%Z) ->
  DefaultActiveLoanIfNecessary now h = Ok (false, h).
Proof.
  intros Hs Hquiet. unfold DefaultActiveLoanIfNecessary. rewrite Hs. cbn.
  destruct Hquiet as [Hst|[Hz Hd]].
  - apply String.eqb_neq in Hst. now rewrite Hst.
  - destruct (State loan =? "SENT"); [|reflexivity].
    apply Z.eqb_neq in Hz. apply Z.ltb_ge in Hd. now rewrite Hz, Hd.
Qed.

(** Once the active record left the active states, no record is active. *)
Lemma ActiveLoan_deactivated (h : LoanHistory) i loan (f : LoanRecord -> LoanRecord) :
  ActiveLoanForLoanHistory h = Ok (Some (i, loan)) ->
  inactive (f loan) ->
  ActiveLoanForLoanHistory (update_record i f h) = Ok None.
Proof.
  intros Hs Hf. apply ActiveLoanForLoanHistory_Some in Hs.
  destruct Hs as (pre & post & Hl & -> & _ & Hpre & Hpost).
  apply ActiveLoanForLoanHistory_None. cbn.
  rewrite Hl, update_nth_app. apply Forall_app. split; [assumption|].
  now constructor.
Qed.

(** The record stays (or becomes) the active one. *)
Lemma ActiveLoan_kept (h : LoanHistory) i loan (f : LoanRecord -> LoanRecord) :
  ActiveLoanForLoanHistory h = Ok (Some (i, loan)) ->
  IsLoanActive (f loan) = Ok true ->
  ActiveLoanForLoanHistory (update_record i f h) = Ok (Some (i, f loan)).
Proof.
  intros Hs Hf. apply ActiveLoanForLoanHistory_Some in Hs.
  destruct Hs as (pre & post & Hl & -> & _ & Hpre & Hpost).
  apply ActiveLoanForLoanHistory_Some. exists pre, post. cbn.
  rewrite Hl, update_nth_app. auto.
Qed.

Lemma DefaultActiveLoanIfNecessary_fired_no_active (now : Z) (h h' : LoanHistory) :
  DefaultActiveLoanIfNecessary now h = Ok (true, h') ->
  ActiveLoanForLoanHistory h' = Ok None.
Proof.
  intros Hd. apply DefaultActiveLoanIfNecessary_inv in Hd.
  destruct Hd as [[[=] _]|(_ & i & loan & Hs & _ & _ & _ & ->)].
  now apply (ActiveLoan_deactivated _ _ Hs).
Qed.

(** C8. A second default check at the same time finds nothing to do:
    it reports no modification and leaves the history as the first
    check left it. *)
Theorem default_check_idempotent (now : Z) (h : LoanHistory) :
  after_default now (fst (after_default now h))
  = (fst (after_default now h), false)
  /\ match DefaultActiveLoanIfNecessary now h with
     | Ok (_, h1) => DefaultActiveLoanIfNecessary now h1 = Ok (false, h1)
     | Err e => DefaultActiveLoanIfNecessary now h = Err e
     end.
Proof.
  unfold after_default.
  destruct (DefaultActiveLoanIfNecessary now h) as [[b h1]|e] eqn:Hd; cbn.
  - assert (H1 : DefaultActiveLoanIfNecessary now h1 = Ok (false, h1)).
    { destruct b.
      - apply DefaultActiveLoanIfNecessary_fired_no_active in Hd.
        unfold DefaultActiveLoanIfNecessary. now rewrite Hd.
      - destruct (DefaultActiveLoanIfNecessary_inv _ _ Hd)
          as [(_ & -> & _)|[[=] _]].
        exact Hd. }
    now rewrite H1.
  - now rewrite Hd.
Qed.

(** ** Malformed histories *)

Lemma IsLoanActive_known (loan : LoanRecord) :
  known_state (State loan) = true <-> exists b, IsLoanActive loan = Ok b.
Proof.
  unfold known_state, IsLoanActive. cbn.
  repeat match goal with
         | |- context [State loan =? ?c] => destruct (State loan =? c)
         end; cbn; split; eauto; try discriminate.
  intros [b [=]].
Qed.

Lemma IsLoanActive_unknown (loan : LoanRecord) :
  known_state (State loan) = false <-> exists e, IsLoanActive loan = Err e.
Proof.
  pose proof (IsLoanActive_known loan) as Hk.
  destruct (known_state (State loan)); split.
  - discriminate.
  - intros [e He]. destruct Hk as [Hk _]. destruct (Hk eq_refl) as [b Hb]. congruence.
  - intros _. destruct (IsLoanActive loan) as [b|e]; [|eauto].
    destruct Hk as [_ Hk]. discriminate Hk. eauto.
  - reflexivity.
Qed.

Lemma inactive_known (loan : LoanRecord) :
  inactive loan -> known_state (State loan) = true.
Proof. intros Hi. apply IsLoanActive_known. eauto. Qed.

Lemma ActiveLoanForLoanHistory_known (h : LoanHistory) res :
  ActiveLoanForLoanHistory h = Ok res ->
  Forall (fun loan => known_state (State loan) = true) (LoanRecords h).
Proof.
  destruct res as [[i loan]|]; intros Hs.
  - apply ActiveLoanForLoanHistory_Some in Hs.
    destruct Hs as (pre & post & -> & _ & Hact & Hpre & Hpost).
    apply Forall_app. split; [|constructor].
    + eapply Forall_impl; [|exact Hpre]. apply inactive_known.
    + apply IsLoanActive_known. eauto.
    + eapply Forall_impl; [|exact Hpost]. apply inactive_known.
  - apply ActiveLoanForLoanHistory_None in Hs.
    eapply Forall_impl; [|exact Hs]. apply inactive_known.
Qed.

Lemma ActiveLoanForLoanHistory_malformed (h : LoanHistory) :
  (1 < active_count h)%nat
  \/ Exists (fun loan => known_state (State loan) = false) (LoanRecords h) ->
  exists e, ActiveLoanForLoanHistory h = Err e.
Proof.
  intros Hbad.
  destruct (ActiveLoanForLoanHistory h) as [res|e] eqn:Hs; [|eauto].
  exfalso. destruct Hbad as [Hmany|Hunknown].
  - pose proof (active_count_scanned _ Hs). lia.
  - apply ActiveLoanForLoanHistory_known in Hs.
    apply Exists_exists in Hunknown. destruct Hunknown as (loan & Hin & Hu).
    rewrite Forall_forall in Hs. specialize (Hs _ Hin). congruence.
Qed.

Lemma DefaultActiveLoanIfNecessary_scan_error (now : Z) (h : LoanHistory) e :
  ActiveLoanForLoanHistory h = Err e ->
  DefaultActiveLoanIfNecessary now h = Err e.
Proof.
  intros Hs. unfold DefaultActiveLoanIfNecessary. now rewrite Hs.
Qed.

Section ScanError.
Context `{GoRuntime}.
Variable s : Store.
Variable e : Error.
Hypothesis Hscan : ActiveLoanForLoanHistory (get_loans s) = Err e.

Lemma LoanRequestFun_scan_error eraDriver UID request now_created now_check :
  failed_unchanged s
    (LoanRequestFun eraDriver UID request now_created now_check s).
Proof.
  unfold failed_unchanged, LoanRequestFun, RunInTransaction, get_user.
  destruct (_ || _); [cbn; eauto|].
  destruct (user_entity s) as [user|]; [|cbn; eauto].
  cbn.
  destruct (User_EmploymentInfo user); [|cbn; eauto].
  destruct (User_ResidenceInfo user); [|cbn; eauto].
  rewrite (DefaultActiveLoanIfNecessary_scan_error _ _ Hscan). cbn. eauto.
Qed.

Lemma GetActiveLoan_scan_error now :
  GetActiveLoan now s = (s, Err e).
Proof.
  unfold GetActiveLoan, RunInTransaction.
  now rewrite (DefaultActiveLoanIfNecessary_scan_error _ _ Hscan).
Qed.

Lemma GetLoans_scan_error now :
  GetLoans now s = (s, Err e).
Proof.
  unfold GetLoans, RunInTransaction.
  now rewrite (DefaultActiveLoanIfNecessary_scan_error _ _ Hscan).
Qed.

Lemma SelectLoanOffer_scan_error loanSelectRequest now :
  failed_unchanged s (SelectLoanOffer loanSelectRequest now s).
Proof.
  unfold failed_unchanged, SelectLoanOffer, RunInTransaction, get_user.
  destruct (_ && _); [cbn; eauto|].
  destruct (user_entity s) as [user|]; [|cbn; eauto].
  cbn. rewrite Hscan. cbn. eauto.
Qed.

Lemma Repay_scan_error now_check now_stamp :
  failed_unchanged s (Repay now_check now_stamp s).
Proof.
  unfold failed_unchanged, Repay, RunInTransaction, get_user.
  destruct (user_entity s) as [user|]; [|cbn; eauto].
  cbn. rewrite Hscan. cbn. eauto.
Qed.

Lemma DeleteActiveLoan_scan_error :
  DeleteActiveLoan s = (s, Err e).
Proof.
  unfold DeleteActiveLoan, RunInTransaction. now rewrite Hscan.
Qed.
End ScanError.

(** C10. A history with more than one active record, or with a record
    whose state is not one of the eight known ones, makes
    [ActiveLoanForLoanHistory] return an error; each of the six loan
    operations then fails and leaves the store as it was.  ACCEPTED
    counts as active, REJECTED as inactive. *)
Theorem malformed_history_rejected `{GoRuntime} (s : Store) :
  (1 < active_count (get_loans s))%nat
  \/ Exists (fun loan => known_state (State loan) = false)
       (LoanRecords (get_loans s)) ->
  (exists e, ActiveLoanForLoanHistory (get_loans s) = Err e)
  /\ (forall eraDriver UID request now_created now_check,
        failed_unchanged s
          (LoanRequestFun eraDriver UID request now_created now_check s))
  /\ (forall now, failed_unchanged s (GetActiveLoan now s))
  /\ (forall loanSelectRequest now,
        failed_unchanged s (SelectLoanOffer loanSelectRequest now s))
  /\ (forall now_check now_stamp,
        failed_unchanged s (Repay now_check now_stamp s))
  /\ failed_unchanged s (DeleteActiveLoan s)
  /\ (forall now, failed_unchanged s (GetLoans now s))
  /\ (forall loan, State loan = "ACCEPTED" -> IsLoanActive loan = Ok true)
  /\ (forall loan, State loan = "REJECTED" -> IsLoanActive loan = Ok false).
Proof.
  intros Hbad.
  destruct (ActiveLoanForLoanHistory_malformed _ Hbad) as [e He].
  split; [eauto|].
  split; [intros; now apply (@LoanRequestFun_scan_error _ _ _ He)|].
  split; [intros; rewrite (@GetActiveLoan_scan_error _ _ He); split; cbn; eauto|].
  split; [intros; now apply (@SelectLoanOffer_scan_error _ _ He)|].
  split; [intros; now apply (@Repay_scan_error _ _ He)|].
  split; [rewrite (@DeleteActiveLoan_scan_error _ _ He); split; cbn; eauto|].
  split; [intros; rewrite (@GetLoans_scan_error _ _ He); split; cbn; eauto|].
  split; intros loan Hst; unfold IsLoanActive; now rewrite Hst.
Qed.

(** ** Offers *)

Open Scope list_scope.

Lemma fill_terms_present `{GoRuntime} loanId amount era_terms :
  forall idx pre,
    List.length pre = idx ->
    fill_terms loanId amount era_terms idx
      (pre ++ repeat zero_LoanTerms (count_not_nil era_terms))
    = Some (pre ++ present_all loanId amount era_terms idx).
Proof.
  induction era_terms as [|[terms|] rest IH]; intros idx pre Hlen;
    cbn [fill_terms count_not_nil present_all repeat].
  - reflexivity.
  - assert (Hlt : (idx <? List.length
                     (pre ++ zero_LoanTerms
                        :: repeat zero_LoanTerms (count_not_nil rest)))%nat
                  = true).
    { apply Nat.ltb_lt. rewrite length_app. cbn. lia. }
    rewrite Hlt. subst idx. rewrite update_nth_app.
    change (pre ++ ?x :: ?l) with (pre ++ [x] ++ l).
    rewrite !app_assoc. apply IH. rewrite length_app. cbn. lia.
  - now apply IH.
Qed.

Lemma present_all_nonempty `{GoRuntime} loanId amount era_terms idx :
  (0 < count_not_nil era_terms)%nat ->
  present_all loanId amount era_terms idx <> [].
Proof.
  induction era_terms as [|[terms|] rest IH]; cbn; intros Hc.
  - lia.
  - discriminate.
  - now apply IH.
Qed.

(** With the count [processBorrowerRequest] returns, the loop never
    writes out of range. *)
Lemma assign_terms_counted `{GoRuntime} loanId amount era_terms :
  assign_terms loanId amount era_terms (count_not_nil era_terms)
  = Some (if (0 <? count_not_nil era_terms)%nat
          then present_all loanId amount era_terms 0
          else [fallback_terms loanId amount]).
Proof.
  unfold assign_terms. destruct (0 <? count_not_nil era_terms)%nat; [|reflexivity].
  exact (@fill_terms_present _ loanId amount era_terms 0%nat [] eq_refl).
Qed.

Lemma processBorrowerRequest_count d app info era_terms n :
  processBorrowerRequest d app info = Some (era_terms, n) ->
  n = count_not_nil era_terms.
Proof.
  unfold processBorrowerRequest.
  destruct (era_responses_from _ _ _ _ _ _); [|discriminate].
  now intros [= <- <-].
Qed.

Lemma era_responses_from_rejected d app info lf :
  forall todo i era_terms,
    era_responses_from d app info lf i todo = Some era_terms ->
    (forall j era name,
        (j < i + todo)%nat ->
        nth_error (_eras d) j = Some era ->
        nth_error (_era_external_names d) j = Some name ->
        processBorrowerApp era app info lf name = None) ->
    count_not_nil era_terms = 0%nat.
Proof.
  induction todo as [|todo IH]; intros i era_terms; cbn.
  - now intros [= <-].
  - destruct (nth_error (_eras d) i) as [era|] eqn:He; [|discriminate].
    destruct (nth_error (_era_external_names d) i) as [name|] eqn:Hn;
      [|discriminate].
    destruct (era_responses_from d app info lf (S i) todo) as [rest|] eqn:Hr;
      [|discriminate].
    intros [= <-] Hrej. cbn.
    rewrite (Hrej i era name) by (assumption || lia).
    apply (IH _ _ Hr). intros j era' name' Hj. apply Hrej. lia.
Qed.

Lemma era_responses_from_defined d app info lf :
  forall todo i,
    (i + todo <= List.length (_eras d))%nat ->
    (i + todo <= List.length (_era_external_names d))%nat ->
    exists era_terms, era_responses_from d app info lf i todo = Some era_terms.
Proof.
  induction todo as [|todo IH]; intros i He Hn; cbn; [eauto|].
  destruct (nth_error (_eras d) i) as [era|] eqn:Hei.
  2:{ apply nth_error_None in Hei. lia. }
  destruct (nth_error (_era_external_names d) i) as [name|] eqn:Hni.
  2:{ apply nth_error_None in Hni. lia. }
  destruct (IH (S i)) as [rest Hrest]; [lia | lia |].
  rewrite Hrest. eauto.
Qed.

Lemma processBorrowerRequest_defined d app info :
  driver_ok d ->
  exists era_terms,
    processBorrowerRequest d app info
    = Some (era_terms, count_not_nil era_terms).
Proof.
  intros [He Hn]. unfold processBorrowerRequest.
  destruct (era_responses_from_defined d app info
              (ERA_INTEREST_FRACTION * principal_amount app) (_num_eras d) 0)
    as [era_terms Hr]; [lia | lia |].
  rewrite Hr. eauto.
Qed.

(** The driver of the server never indexes out of range. *)
Lemma constructERADriver_ok `{GoRuntime} (rand_Float64 : Q) :
  driver_ok (constructERADriver rand_Float64).
Proof. split; cbn; lia. Qed.

(** The duplicate check lets through exactly the histories without an
    active record. *)
Lemma borrowerInfo_from_inv (l : list LoanRecord) :
  forall info info',
    borrowerInfo_from l info = Ok info' -> Forall inactive l.
Proof.
  induction l as [|loan l IH]; intros info info'; cbn; [constructor|].
  destruct (IsLoanActive loan) as [[|]|] eqn:Ha; cbn; try discriminate.
  intros Hr. constructor; [exact Ha|]. eapply IH, Hr.
Qed.

Lemma borrowerInfo_from_inactive (l : list LoanRecord) :
  Forall inactive l ->
  forall info, exists info', borrowerInfo_from l info = Ok info'.
Proof.
  induction 1 as [|loan l Hloan _ IH]; intros info; cbn; [eauto|].
  rewrite Hloan. cbn. apply IH.
Qed.

Lemma borrowerInfo_from_active (pre post : list LoanRecord) (loan : LoanRecord) :
  Forall inactive pre -> IsLoanActive loan = Ok true ->
  forall info,
    borrowerInfo_from (pre ++ loan :: post) info = Err ErrLoanAlreadyExists.
Proof.
  induction 1 as [|x pre Hx _ IH]; intros Hact info; cbn.
  - now rewrite Hact.
  - rewrite Hx. cbn. now apply IH.
Qed.

(** The two outcomes of [LoanRequestFun]. *)
Lemma LoanRequestFun_inv `{GoRuntime} d UID request now_created now_check s s' r :
  LoanRequestFun d UID request now_created now_check s = (s', r) ->
  (s' = s /\ exists e, r = Err e)
  \/ exists user employment b h1 info era_terms n terms,
       user_entity s = Some user
       /\ User_EmploymentInfo user = Some employment
       /\ DefaultActiveLoanIfNecessary now_check (get_loans s) = Ok (b, h1)
       /\ borrowerInfo_from (LoanRecords h1)
            {| no_loans := 0; successful_loans := 0;
               earned_qin := QinBalance user |} = Ok info
       /\ processBorrowerRequest d
            (borrowerApp_of UID (LoanAmount request) employment) info
          = Some (era_terms, n)
       /\ assign_terms (UID ++ "-" ++ Itoa (List.length (LoanRecords h1)))%string
            (LoanAmount request) era_terms n = Some terms
       /\ let stored :=
            approved_loanRecord
              (UID ++ "-" ++ Itoa (List.length (LoanRecords h1)))%string
              request user terms now_created in
          s' = put_loans {| LoanRecords := LoanRecords h1 ++ [stored] |} s
          /\ r = Ok (set_Request None stored).
Proof.
  unfold LoanRequestFun, RunInTransaction, get_user.
  destruct (_ || _); [intros [= <- <-]; left; eauto|].
  destruct (user_entity s) as [user|] eqn:Hu; cbn;
    [|intros [= <- <-]; left; eauto].
  destruct (User_EmploymentInfo user) as [employment|] eqn:Hemp;
    [|intros [= <- <-]; left; eauto].
  destruct (User_ResidenceInfo user); [|intros [= <- <-]; left; eauto].
  destruct (DefaultActiveLoanIfNecessary now_check (get_loans s))
    as [[b h1]|e] eqn:Hd; cbn; [|intros [= <- <-]; left; eauto].
  destruct (borrowerInfo_from _ _) as [info|e] eqn:Hinfo; cbn;
    [|intros [= <- <-]; left; eauto].
  destruct (processBorrowerRequest _ _ _) as [[era_terms n]|] eqn:Hreq;
    [|intros [= <- <-]; left; eauto].
  destruct (assign_terms _ _ _ _) as [terms|] eqn:Hterms;
    [|intros [= <- <-]; left; eauto].
  intros [= <- <-]. right.
  exists user, employment, b, h1, info, era_terms, n, terms.
  repeat split; assumption || reflexivity.
Qed.

(** The offer of the platform itself, field by field. *)
Lemma fallback_terms_fields `{GoRuntime} loanId amount :
  fallback_terms loanId amount
  = {| TermId := (loanId ++ "-0")%string;
       InterestRate := 5 # 100;
       QinReward := 1 # 10;
       QinRequired := 0;
       AmountOwed := Round ((1 + (5 # 100)) * amount * 100) / 100;
       OfferedBy := "OneDaijo" |}.
Proof. reflexivity. Qed.

(** C4. When every assessor of the driver turns the application down,
    the terms assigned to the loan are the single offer of the
    platform: rate 0.05, reward 0.10, no collateral, id [loanId-0],
    offered by OneDaijo.  Whatever the assessors answer, the terms are
    never empty, and so are the terms of every record [LoanRequestFun]
    returns and appends. *)
Theorem fallback_offer `{GoRuntime} (d : ERADriver) :
  (forall app info era_terms n loanId amount,
      processBorrowerRequest d app info = Some (era_terms, n) ->
      (forall j era name,
          (j < _num_eras d)%nat ->
          nth_error (_eras d) j = Some era ->
          nth_error (_era_external_names d) j = Some name ->
          processBorrowerApp era app info
            (ERA_INTEREST_FRACTION * principal_amount app) name = None) ->
      assign_terms loanId amount era_terms n
      = Some [{| TermId := (loanId ++ "-0")%string;
                 InterestRate := 5 # 100;
                 QinReward := 1 # 10;
                 QinRequired := 0;
                 AmountOwed := Round ((1 + (5 # 100)) * amount * 100) / 100;
                 OfferedBy := "OneDaijo" |}])
  /\ (forall app info era_terms n loanId amount,
        processBorrowerRequest d app info = Some (era_terms, n) ->
        exists terms,
          assign_terms loanId amount era_terms n = Some terms /\ terms <> [])
  /\ (forall UID request now_created now_check s s' loanRecord,
        LoanRequestFun d UID request now_created now_check s
        = (s', Ok loanRecord) ->
        Terms loanRecord <> []
        /\ (exists app info era_terms n,
              processBorrowerRequest d app info = Some (era_terms, n)
              /\ assign_terms (LoanId loanRecord) (Amount loanRecord) era_terms n
                 = Some (Terms loanRecord))
        /\ exists earlier stored,
             LoanRecords (get_loans s') = earlier ++ [stored]
             /\ set_Request None stored = loanRecord).
Proof.
  assert (Hnonempty : forall app info era_terms n loanId amount,
             processBorrowerRequest d app info = Some (era_terms, n) ->
             exists terms,
               assign_terms loanId amount era_terms n = Some terms
               /\ terms <> []).
  { intros app info era_terms n loanId amount Hreq.
    rewrite (processBorrowerRequest_count _ _ _ Hreq), assign_terms_counted.
    eexists. split; [reflexivity|].
    destruct (0 <? count_not_nil era_terms)%nat eqn:Hc; [|discriminate].
    apply present_all_nonempty. now apply Nat.ltb_lt. }
  split; [|split; [exact Hnonempty|]].
  - intros app info era_terms n loanId amount Hreq Hrej.
    rewrite (processBorrowerRequest_count _ _ _ Hreq), assign_terms_counted.
    unfold processBorrowerRequest in Hreq.
    destruct (era_responses_from _ _ _ _ _ _) as [rs|] eqn:Hrs; [|discriminate].
    injection Hreq as <- _.
    now rewrite (era_responses_from_rejected _ _ _ _ _ _ Hrs Hrej).
  - intros UID request now_created now_check s s' loanRecord Hrun.
    apply LoanRequestFun_inv in Hrun.
    destruct Hrun as [[_ [e [=]]]|Hrun].
    destruct Hrun
      as (user & employment & b & h1 & info & era_terms & n & terms
          & _ & _ & _ & _ & Hreq & Hterms & -> & [= ->]).
    cbn. split; [|split].
    + destruct (Hnonempty _ _ _ _ (UID ++ "-" ++ Itoa (List.length (LoanRecords h1)))%string
                  (LoanAmount request) Hreq) as (terms' & Ht & Hne).
      congruence.
    + eexists _, info, era_terms, n. split; [exact Hreq | exact Hterms].
    + eexists (LoanRecords h1), _. split; reflexivity.
Qed.

(** ** Presented terms *)






(** ** Single active loan *)

Lemma DefaultActiveLoanIfNecessary_count (now : Z) (h : LoanHistory) b h1 :
  DefaultActiveLoanIfNecessary now h = Ok (b, h1) ->
  (active_count h1 <= 1)%nat.
Proof.
  intros Hd. destruct b.
  - apply DefaultActiveLoanIfNecessary_fired_no_active in Hd.
    rewrite (active_count_None _ Hd). lia.
  - destruct (DefaultActiveLoanIfNecessary_inv _ _ Hd)
      as [(_ & -> & res & Hs)|[[=] _]].
    apply (active_count_scanned _ Hs).
Qed.

Lemma active_count_update_le (h : LoanHistory) i loan f :
  ActiveLoanForLoanHistory h = Ok (Some (i, loan)) ->
  (active_count (update_record i f h) <= 1)%nat.
Proof.
  intros Hs. rewrite (active_count_update _ f Hs).
  destruct (is_active (f loan)); lia.
Qed.

Lemma active_count_appended (h : LoanHistory) (loan : LoanRecord) :
  Forall inactive (LoanRecords h) ->
  active_count {| LoanRecords := LoanRecords h ++ [loan] |}
  = if is_active loan then 1%nat else 0%nat.
Proof.
  intros Hh. apply active_count_around; [assumption | constructor].
Qed.

Lemma get_loans_put_loans (h : LoanHistory) (s : Store) :
  get_loans (put_loans h s) = h.
Proof. reflexivity. Qed.

Lemma get_loans_put_user (u : User) (s : Store) :
  get_loans (put_user u s) = get_loans s.
Proof. reflexivity. Qed.

Section Preservation.
Context `{GoRuntime}.
Variable s : Store.
Hypothesis Hs : single_active s.

Lemma CreateUser_single_active user now :
  single_active (fst (CreateUser user now s)).
Proof.
  unfold CreateUser, RunInTransaction.
  destruct (_ || _); [exact Hs|].
  destruct (user_entity s); exact Hs.
Qed.

Lemma PatchUser_single_active user :
  single_active (fst (PatchUser user s)).
Proof.
  unfold PatchUser, RunInTransaction, get_user.
  destruct (_ && _); [exact Hs|].
  destruct (user_entity s); exact Hs.
Qed.

Lemma LoanRequestFun_single_active d UID request now_created now_check :
  single_active (fst (LoanRequestFun d UID request now_created now_check s)).
Proof.
  destruct (LoanRequestFun d UID request now_created now_check s)
    as [s' r] eqn:Hrun.
  apply LoanRequestFun_inv in Hrun. cbn.
  destruct Hrun as [[-> _]|Hrun]; [exact Hs|].
  destruct Hrun
    as (user & employment & b & h1 & info & era_terms & n & terms
        & _ & _ & _ & Hinfo & _ & _ & -> & _).
  unfold single_active. rewrite get_loans_put_loans.
  rewrite (active_count_appended _ _ (borrowerInfo_from_inv _ _ Hinfo)).
  cbn. lia.
Qed.

Lemma GetActiveLoan_single_active now :
  single_active (fst (GetActiveLoan now s)).
Proof.
  unfold GetActiveLoan, RunInTransaction.
  destruct (DefaultActiveLoanIfNecessary now (get_loans s))
    as [[[|] h1]|e] eqn:Hd; cbn; try exact Hs.
  exact (DefaultActiveLoanIfNecessary_count _ _ Hd).
Qed.

Lemma GetLoans_single_active now :
  single_active (fst (GetLoans now s)).
Proof.
  unfold GetLoans, RunInTransaction.
  destruct (DefaultActiveLoanIfNecessary now (get_loans s))
    as [[[|] h1]|e] eqn:Hd; cbn; try exact Hs.
  exact (DefaultActiveLoanIfNecessary_count _ _ Hd).
Qed.

Lemma SelectLoanOffer_single_active loanSelectRequest now :
  single_active (fst (SelectLoanOffer loanSelectRequest now s)).
Proof.
  unfold SelectLoanOffer, RunInTransaction, get_user.
  destruct (_ && _); [exact Hs|].
  destruct (user_entity s) as [user|]; cbn; [|exact Hs].
  destruct (ActiveLoanForLoanHistory (get_loans s)) as [[[i loan]|]|e] eqn:Ha;
    cbn; try exact Hs.
  destruct (negb _); [exact Hs|].
  match goal with
  | |- context [bind ?x _] => destruct x as [loan1|e]; cbn; [|exact Hs]
  end.
  match goal with
  | |- context [bind ?x _] => destruct x as [[loan2 s2]|e]; cbn; [|exact Hs]
  end.
  exact (active_count_update_le _ _ Ha).
Qed.

Lemma Repay_single_active now_check now_stamp :
  single_active (fst (Repay now_check now_stamp s)).
Proof.
  unfold Repay, RunInTransaction, get_user.
  destruct (user_entity s) as [user|]; cbn; [|exact Hs].
  destruct (ActiveLoanForLoanHistory (get_loans s)) as [[[i loan]|]|e] eqn:Ha;
    cbn; try exact Hs.
  destruct (negb _); [exact Hs|].
  destruct (DefaultActiveLoanIfNecessary now_check (get_loans s))
    as [[[|] h1]|e] eqn:Hd; cbn; try exact Hs.
  - exact (DefaultActiveLoanIfNecessary_count _ _ Hd).
  - destruct (AcceptedTerms loan); cbn; [|exact Hs].
    destruct (DefaultActiveLoanIfNecessary_inv _ _ Hd)
      as [(_ & -> & _)|[[=] _]].
    exact (active_count_update_le _ _ Ha).
Qed.

Lemma DeleteActiveLoan_single_active :
  single_active (fst (DeleteActiveLoan s)).
Proof.
  unfold DeleteActiveLoan, RunInTransaction.
  destruct (ActiveLoanForLoanHistory (get_loans s)) as [[[i loan]|]|e] eqn:Ha;
    cbn; try exact Hs.
  destruct (_ && _); cbn; [exact Hs|].
  exact (active_count_update_le _ _ Ha).
Qed.

Lemma run_op_single_active op : single_active (run_op op s).
Proof.
  destruct op; cbn.
  - apply CreateUser_single_active.
  - apply PatchUser_single_active.
  - apply LoanRequestFun_single_active.
  - apply GetActiveLoan_single_active.
  - apply SelectLoanOffer_single_active.
  - apply Repay_single_active.
  - apply DeleteActiveLoan_single_active.
  - apply GetLoans_single_active.
Qed.
End Preservation.

Lemma run_ops_single_active `{GoRuntime} (ops : list Op) :
  forall s, single_active s -> single_active (run_ops ops s).
Proof.
  induction ops as [|op ops IH]; intros s Hs; cbn; [exact Hs|].
  apply IH. now apply run_op_single_active.
Qed.


(** [LoanRequestFun] on a complete profile whose history holds an
    active record that the default check leaves alone. *)
Lemma LoanRequestFun_already_exists `{GoRuntime} d UID request now_created
    now_check s user employment residence i loan :
  LoanRequest_User request = None ->
  Qeq_bool (LoanAmount request) 0 = false ->
  user_entity s = Some user ->
  User_EmploymentInfo user = Some employment ->
  User_ResidenceInfo user = Some residence ->
  ActiveLoanForLoanHistory (get_loans s) = Ok (Some (i, loan)) ->
  DefaultActiveLoanIfNecessary now_check (get_loans s) = Ok (false, get_loans s) ->
  LoanRequestFun d UID request now_created now_check s
  = (s, Err ErrLoanAlreadyExists).
Proof.
  intros Hnil Hamount Hu Hemp Hres Ha Hd.
  unfold LoanRequestFun, RunInTransaction, get_user.
  rewrite Hnil, Hamount, Hu. cbn. rewrite Hemp, Hres, Hd. cbn.
  apply ActiveLoanForLoanHistory_Some in Ha.
  destruct Ha as (pre & post & -> & _ & Hact & Hpre & _).
  now rewrite (@borrowerInfo_from_active pre post loan Hpre Hact).
Qed.



(** ** Repayment *)

(** C2. Repaying a SENT loan with accepted terms on an existing
    profile.  If the default check of this call reports no
    modification, exactly one repayment of the amount owed is appended,
    the record becomes REPAID (no record is active any more), and the
    qin balance grows by the collateral plus the reward.  If the
    default check fires, the call fails with [ErrLoanInDefault]; the
    defaulted history is stored and the profile is not written. *)
Theorem repay_settlement (s : Store) (user : User) (now_check now_stamp : Z)
    (i : nat) (loan : LoanRecord) (accepted : LoanTerms) :
  user_entity s = Some user ->
  ActiveLoanForLoanHistory (get_loans s) = Ok (Some (i, loan)) ->
  State loan = "SENT" ->
  AcceptedTerms loan = Some accepted ->
  (forall h,
      DefaultActiveLoanIfNecessary now_check (get_loans s) = Ok (false, h) ->
      let repayment :=
        {| Repayment_Amount := AmountOwed accepted;
           Timestamp := (now_stamp * 1000)%Z |} in
      let repaid :=
        set_State "REPAID"
          (set_RepaidDate (now_stamp * 1000)%Z
             (set_Repayments (Repayments loan ++ [repayment]) loan)) in
      let user' :=
        set_QinBalance
          (QinBalance user + (QinRequired accepted + QinReward accepted)) user in
      Repay now_check now_stamp s
      = (put_loans (update_record i (fun _ => repaid) (get_loans s))
           (put_user user' s),
         Ok (set_Request None repaid))
      /\ Repayments repaid = Repayments loan ++ [repayment]
      /\ State repaid = "REPAID"
      /\ QinBalance user'
         == QinBalance user + QinRequired accepted + QinReward accepted
      /\ ActiveLoanForLoanHistory
           (get_loans (fst (Repay now_check now_stamp s))) = Ok None)
  /\ (forall h,
        DefaultActiveLoanIfNecessary now_check (get_loans s) = Ok (true, h) ->
        Repay now_check now_stamp s = (put_loans h s, Err ErrLoanInDefault)
        /\ user_entity (fst (Repay now_check now_stamp s)) = Some user).
Proof.
  intros Hu Ha Hst Hacc. split.
  - intros h Hd. cbn zeta.
    destruct (DefaultActiveLoanIfNecessary_inv _ _ Hd)
      as [(_ & -> & _)|[[=] _]].
    assert (Hrun : Repay now_check now_stamp s
                   = (put_loans
                        (update_record i
                           (fun _ =>
                              set_State "REPAID"
                                (set_RepaidDate (now_stamp * 1000)%Z
                                   (set_Repayments
                                      (Repayments loan
                                       ++ [{| Repayment_Amount := AmountOwed accepted;
                                              Timestamp := (now_stamp * 1000)%Z |}])
                                      loan)))
                           (get_loans s))
                        (put_user
                           (set_QinBalance
                              (QinBalance user
                               + (QinRequired accepted + QinReward accepted))
                              user) s),
                      Ok (set_Request None
                            (set_State "REPAID"
                               (set_RepaidDate (now_stamp * 1000)%Z
                                  (set_Repayments
                                     (Repayments loan
                                      ++ [{| Repayment_Amount := AmountOwed accepted;
                                             Timestamp := (now_stamp * 1000)%Z |}])
                                     loan)))))).
    { unfold Repay, RunInTransaction, get_user.
      rewrite Hu. cbn. rewrite Ha. cbn. rewrite Hst. cbn.
      rewrite Hd. cbn. rewrite Hacc. reflexivity. }
    split; [exact Hrun|].
    split; [reflexivity|]. split; [reflexivity|]. split; [cbn; ring|].
    rewrite Hrun. cbn [fst]. rewrite get_loans_put_loans.
    now apply (ActiveLoan_deactivated _ _ Ha).
  - intros h Hd.
    assert (Hrun : Repay now_check now_stamp s
                   = (put_loans h s, Err ErrLoanInDefault)).
    { unfold Repay, RunInTransaction, get_user.
      rewrite Hu. cbn. rewrite Ha. cbn. rewrite Hst. cbn.
      rewrite Hd. reflexivity. }
    split; [exact Hrun|]. rewrite Hrun. exact Hu.
Qed.

Lemma repay_settlement_witness :
  let s := sample_store 10 [sample_record "SENT" 200000 (Some sample_accepted)] in
  (exists s' repaid user',
      Repay 100 101 s = (s', Ok repaid)
      /\ user_entity s' = Some user'
      /\ QinBalance user' = 21
      /\ State repaid = "REPAID"
      /\ Repayments repaid
         = [{| Repayment_Amount := 1050; Timestamp := 101000 |}])
  /\ exists s',
       Repay 300 301 s = (s', Err ErrLoanInDefault)
       /\ user_entity s' = Some (sample_user 10).
Proof.
  intros s. split.
  - destruct (@repay_settlement s (sample_user 10) 100 101 0%nat
                (sample_record "SENT" 200000 (Some sample_accepted))
                sample_accepted eq_refl eq_refl eq_refl eq_refl) as [Hrepay _].
    destruct (Hrepay _ eq_refl) as (Hrun & _).
    do 3 eexists. split; [exact Hrun|].
    repeat split.
  - destruct (@repay_settlement s (sample_user 10) 300 301 0%nat
                (sample_record "SENT" 200000 (Some sample_accepted))
                sample_accepted eq_refl eq_refl eq_refl eq_refl) as [_ Hdefault].
    destruct (Hdefault _ eq_refl) as (Hrun & Huser).
    eexists. split; [exact Hrun|]. reflexivity.
Defined.

(** ** Where the default check runs *)

(** C3, as stated, fails: the active record is SENT and its due date
    (200000 ms) lies before the current time (300 s), yet after
    [SelectLoanOffer] and after [DeleteActiveLoan] the store is the one
    before the call and the record is not DEFAULTED. *)
Lemma default_check_skipped_by_select_and_cancel :
  let s := overdue_store in
  let now := 300%Z in
  (ActiveLoanForLoanHistory (get_loans s) = Ok (Some (0%nat, overdue_record))
   /\ State overdue_record = "SENT"
   /\ (DueDate overdue_record < now * 1000)%Z)
  /\ (SelectLoanOffer select_both now s = (s, Err ErrLoanInWrongState)
      /\ ~ exists loan,
             nth_error
               (LoanRecords (get_loans (fst (SelectLoanOffer select_both now s))))
               0 = Some loan
             /\ State loan = "DEFAULTED")
  /\ (DeleteActiveLoan s = (s, Err ErrLoanInWrongState)
      /\ ~ exists loan,
             nth_error (LoanRecords (get_loans (fst (DeleteActiveLoan s)))) 0
             = Some loan
             /\ State loan = "DEFAULTED").
Proof.
  cbn zeta. split; [repeat split|]. split.
  - split; [reflexivity|]. intros (loan & [= <-] & [=]).
  - split; [reflexivity|]. intros (loan & [= <-] & [=]).
Qed.

Section DefaultFires.
Context `{GoRuntime}.
Variable s : Store.
Variable now : Z.
Variable h' : LoanHistory.
Hypothesis Hfires :
  DefaultActiveLoanIfNecessary now (get_loans s) = Ok (true, h').

Lemma GetActiveLoan_default_fires :
  GetActiveLoan now s = (put_loans h' s, Err ErrNoActiveLoan).
Proof.
  unfold GetActiveLoan, RunInTransaction. rewrite Hfires. cbn.
  now rewrite (DefaultActiveLoanIfNecessary_fired_no_active _ _ Hfires).
Qed.

Lemma GetLoans_default_fires :
  GetLoans now s
  = (put_loans h' s,
     Ok {| LoanRecords := map (set_Request None) (LoanRecords h') |}).
Proof.
  unfold GetLoans, RunInTransaction. now rewrite Hfires.
Qed.

Lemma default_fires_on_SENT :
  exists i loan,
    ActiveLoanForLoanHistory (get_loans s) = Ok (Some (i, loan))
    /\ State loan = "SENT".
Proof.
  destruct (DefaultActiveLoanIfNecessary_inv _ _ Hfires)
    as [[[=] _]|(_ & i & loan & Ha & Hst & _)].
  eauto.
Qed.

Lemma Repay_default_fires user now_stamp :
  user_entity s = Some user ->
  Repay now now_stamp s = (put_loans h' s, Err ErrLoanInDefault).
Proof.
  intros Hu. destruct default_fires_on_SENT as (i & loan & Ha & Hst).
  unfold Repay, RunInTransaction, get_user.
  rewrite Hu. cbn. rewrite Ha. cbn. rewrite Hst. cbn. now rewrite Hfires.
Qed.

Lemma LoanRequestFun_default_fires d UID request now_created
    user employment residence :
  LoanRequest_User request = None ->
  Qeq_bool (LoanAmount request) 0 = false ->
  user_entity s = Some user ->
  User_EmploymentInfo user = Some employment ->
  User_ResidenceInfo user = Some residence ->
  driver_ok d ->
  exists stored,
    LoanRequestFun d UID request now_created now s
    = (put_loans {| LoanRecords := LoanRecords h' ++ [stored] |} s,
       Ok (set_Request None stored)).
Proof.
  intros Hnil Hamount Hu Hemp Hres Hd.
  pose proof (DefaultActiveLoanIfNecessary_fired_no_active _ _ Hfires) as Hnone.
  apply ActiveLoanForLoanHistory_None in Hnone.
  destruct (borrowerInfo_from_inactive Hnone
              {| no_loans := 0; successful_loans := 0;
                 earned_qin := QinBalance user |}) as [info Hinfo].
  destruct (processBorrowerRequest_defined
              (borrowerApp_of UID (LoanAmount request) employment) info Hd)
    as [era_terms Hreq].
  unfold LoanRequestFun, RunInTransaction, get_user.
  rewrite Hnil, Hamount, Hu. cbn. rewrite Hemp, Hres, Hfires. cbn.
  rewrite Hinfo. cbn. rewrite Hreq, assign_terms_counted. cbn. eauto.
Qed.

Lemma SelectLoanOffer_default_fires loanSelectRequest :
  failed_unchanged s (SelectLoanOffer loanSelectRequest now s)
  /\ (forall user,
        user_entity s = Some user ->
        (LocationName (LoanSelectRequest_Location loanSelectRequest) =? "")
        && (SelectedTerm loanSelectRequest =? "") = false ->
        SelectLoanOffer loanSelectRequest now s = (s, Err ErrLoanInWrongState)).
Proof.
  destruct default_fires_on_SENT as (i & loan & Ha & Hst).
  unfold failed_unchanged, SelectLoanOffer, RunInTransaction, get_user.
  split.
  - destruct (_ && _); [cbn; eauto|].
    destruct (user_entity s); cbn; [|eauto].
    rewrite Ha. cbn. rewrite Hst. cbn. eauto.
  - intros user Hu ->. rewrite Hu. cbn. rewrite Ha. cbn. now rewrite Hst.
Qed.

Lemma DeleteActiveLoan_default_fires :
  DeleteActiveLoan s = (s, Err ErrLoanInWrongState).
Proof.
  destruct default_fires_on_SENT as (i & loan & Ha & Hst).
  unfold DeleteActiveLoan, RunInTransaction.
  rewrite Ha. cbn. now rewrite Hst.
Qed.
End DefaultFires.

(** C3, amended.  When the active record is SENT with a due date that
    is set and lies before the current time, the default check turns
    it into DEFAULTED.  [GetActiveLoan] and [GetLoans] store that
    history before they answer; [Repay], once the profile is read,
    stores it and fails with [ErrLoanInDefault]; [LoanRequestFun], once
    the request and the profile are accepted, appends the new record to
    it.  [SelectLoanOffer] and [DeleteActiveLoan] do not run the check:
    they fail (with [ErrLoanInWrongState] on a valid request) and write
    nothing. *)
Theorem default_check_where_evaluated `{GoRuntime} (s : Store) (now : Z)
    (i : nat) (loan : LoanRecord) :
  ActiveLoanForLoanHistory (get_loans s) = Ok (Some (i, loan)) ->
  State loan = "SENT" ->
  DueDate loan <> 0%Z ->
  (DueDate loan < now * 1000)%Z ->
  let h' := update_record i (set_State "DEFAULTED") (get_loans s) in
  GetActiveLoan now s = (put_loans h' s, Err ErrNoActiveLoan)
  /\ GetLoans now s
     = (put_loans h' s,
        Ok {| LoanRecords := map (set_Request None) (LoanRecords h') |})
  /\ (forall user now_stamp,
        user_entity s = Some user ->
        Repay now now_stamp s = (put_loans h' s, Err ErrLoanInDefault))
  /\ (forall d UID request now_created user employment residence,
        LoanRequest_User request = None ->
        Qeq_bool (LoanAmount request) 0 = false ->
        user_entity s = Some user ->
        User_EmploymentInfo user = Some employment ->
        User_ResidenceInfo user = Some residence ->
        driver_ok d ->
        exists stored,
          LoanRequestFun d UID request now_created now s
          = (put_loans {| LoanRecords := LoanRecords h' ++ [stored] |} s,
             Ok (set_Request None stored)))
  /\ (forall loanSelectRequest,
        failed_unchanged s (SelectLoanOffer loanSelectRequest now s)
        /\ (forall user,
              user_entity s = Some user ->
              (LocationName (LoanSelectRequest_Location loanSelectRequest) =? "")
              && (SelectedTerm loanSelectRequest =? "") = false ->
              SelectLoanOffer loanSelectRequest now s
              = (s, Err ErrLoanInWrongState)))
  /\ DeleteActiveLoan s = (s, Err ErrLoanInWrongState).
Proof.
  intros Ha Hst Hz Hdue h'.
  pose proof (DefaultActiveLoanIfNecessary_fires now _ Ha Hst Hz Hdue) as Hfires.
  fold h' in Hfires.
  split; [exact (@GetActiveLoan_default_fires _ _ _ Hfires)|].
  split; [exact (@GetLoans_default_fires _ _ _ Hfires)|].
  split; [intros user now_stamp;
          exact (@Repay_default_fires _ _ _ Hfires user now_stamp)|].
  split; [intros; eapply LoanRequestFun_default_fires; eassumption|].
  split; [intros r; exact (@SelectLoanOffer_default_fires _ _ _ Hfires r)|].
  exact (@DeleteActiveLoan_default_fires _ _ _ Hfires).
Qed.

Lemma default_check_where_evaluated_witness :
  let H := sample_runtime in
  let d := constructERADriver (1 # 4) in
  GetActiveLoan 300 overdue_store = (defaulted_store, Err ErrNoActiveLoan)
  /\ fst (GetLoans 300 overdue_store) = defaulted_store
  /\ Repay 300 301 overdue_store = (defaulted_store, Err ErrLoanInDefault)
  /\ (exists stored,
        LoanRequestFun d "uid" sample_request 299 300 overdue_store
        = (put_loans
             {| LoanRecords := LoanRecords (get_loans defaulted_store) ++ [stored] |}
             overdue_store,
           Ok (set_Request None stored)))
  /\ SelectLoanOffer select_both 300 overdue_store
     = (overdue_store, Err ErrLoanInWrongState)
  /\ DeleteActiveLoan overdue_store = (overdue_store, Err ErrLoanInWrongState).
Proof.
  intros H d.
  assert (Hdue : (DueDate overdue_record < 300 * 1000)%Z) by (cbn; lia).
  assert (Hset : DueDate overdue_record <> 0%Z) by (cbn; lia).
  destruct (@default_check_where_evaluated H overdue_store 300 0%nat
              overdue_record eq_refl eq_refl Hset Hdue)
    as (Hget & Hlist & Hrepay & Hrequest & Hselect & Hcancel).
  split; [exact Hget|].
  split; [now rewrite Hlist|].
  split; [exact (Hrepay _ 301%Z eq_refl)|].
  split.
  - apply (Hrequest d "uid" sample_request 299%Z (sample_user 10) _ _
             eq_refl eq_refl eq_refl eq_refl eq_refl).
    split; cbn; lia.
  - split; [|exact Hcancel].
    exact (proj2 (Hselect select_both) _ eq_refl eq_refl).
Defined.

Lemma fallback_offer_witness :
  let H := sample_runtime in
  let d := constructERADriver (1 # 4) in
  processBorrowerRequest d sample_app broke_borrower
  = Some ([None; None; None; None], 0%nat)
  /\ assign_terms "uid-1" 1000 [None; None; None; None] 0
     = Some [{| TermId := "uid-1-0";
                InterestRate := 5 # 100;
                QinReward := 1 # 10;
                QinRequired := 0;
                AmountOwed := Round ((1 + (5 # 100)) * 1000 * 100) / 100;
                OfferedBy := "OneDaijo" |}]
  /\ exists s' loanRecord,
       LoanRequestFun d "uid" sample_request 299 300 defaulted_store
       = (s', Ok loanRecord)
       /\ Terms loanRecord <> [].
Proof.
  intros H d.
  destruct (@fallback_offer H d) as (Hfallback & _ & Hrequest).
  assert (Hreq : processBorrowerRequest d sample_app broke_borrower
                 = Some ([None; None; None; None], 0%nat))
    by (vm_compute; reflexivity).
  split; [exact Hreq|]. split.
  - apply (Hfallback sample_app broke_borrower _ _ "uid-1" 1000 Hreq).
    intros j era name Hj.
    destruct j as [|[|[|[|j]]]]; try (cbn in Hj; lia);
      intros [= <-] [= <-]; vm_compute; reflexivity.
  - destruct (LoanRequestFun d "uid" sample_request 299 300 defaulted_store)
      as [s' [loanRecord|e]] eqn:Hout.
    + exists s', loanRecord. split; [reflexivity|].
      exact (proj1 (Hrequest _ _ _ _ _ _ _ Hout)).
    + vm_compute in Hout. discriminate Hout.
Defined.

Lemma malformed_history_rejected_witness :
  let H := sample_runtime in
  ((exists e, ActiveLoanForLoanHistory (get_loans two_active_store) = Err e)
   /\ failed_unchanged two_active_store (Repay 300 301 two_active_store))
  /\ ((exists e, ActiveLoanForLoanHistory (get_loans unknown_state_store) = Err e)
      /\ failed_unchanged unknown_state_store
           (LoanRequestFun (constructERADriver (1 # 4)) "uid" sample_request
              299 300 unknown_state_store)).
Proof.
  intros H. split.
  - assert (Hbad : (1 < active_count (get_loans two_active_store))%nat
                   \/ Exists (fun loan => known_state (State loan) = false)
                        (LoanRecords (get_loans two_active_store)))
      by (left; cbn; lia).
    destruct (@malformed_history_rejected H two_active_store Hbad)
      as (Herr & _ & _ & _ & Hrepay & _).
    split; [exact Herr | apply Hrepay].
  - assert (Hbad : (1 < active_count (get_loans unknown_state_store))%nat
                   \/ Exists (fun loan => known_state (State loan) = false)
                        (LoanRecords (get_loans unknown_state_store)))
      by (right; apply Exists_cons_tl, Exists_cons_hd; reflexivity).
    destruct (@malformed_history_rejected H unknown_state_store Hbad)
      as (Herr & Hrequest & _).
    split; [exact Herr | apply Hrequest].
Defined.

(** ** The figures on binary64 values *)

(** Principal 1000 at the literal rate 0.05 gives exactly 1050, the
    presented rate of 0.05 is 0.05 again, and 10 + (10 + 1) is 21. *)
Lemma binary64_figures :
  Binary64.amount_owed Binary64.rate_0_05 1000%float = Some 1050%float
  /\ Binary64.presented_rate Binary64.rate_0_05 = Some Binary64.rate_0_05
  /\ PrimFloat.add 10%float (PrimFloat.add 10%float 1%float) = 21%float.
Proof. repeat split; vm_compute; reflexivity. Qed.

(** * Further properties of the code *)

(** ** When an assessor makes an offer *)

(** X1. An assessor contributes no offer exactly when it rejects the
    clamped probability, or when the borrower is past the grace period
    and holds less qin than the collateral the assessor computes. *)
Theorem processBorrowerApp_nil_iff (era : ERA) (app : BorrowerApp)
    (info : BorrowerInformation) (lf : Q) (name : string) :
  let p := clamp_prob_default (predictProbDefault era app) in
  processBorrowerApp era app info lf name = None
  <-> rejectBorrower era p = true
      \/ ((GRACE_NUM_LOANS <= no_loans info)%N
          /\ earned_qin info
             < computeQinCollateral era p (successful_loans info)).
Proof.
  cbn zeta. unfold processBorrowerApp, required_collateral.
  destruct (rejectBorrower era _); [split; auto|].
  destruct (GRACE_NUM_LOANS <=? no_loans info)%N eqn:Hg.
  - apply N.leb_le in Hg.
    match goal with
    | |- context [Qltb ?a ?b] => case_Qltb a b
    end.
    + split; auto.
    + split; [discriminate|]. intros [[=]|[_ Hlt]]. lra.
  - apply N.leb_gt in Hg. split; [discriminate|].
    intros [[=]|[Hle _]]. lia.
Qed.

Lemma processBorrowerApp_emitted_collateral (era : ERA) (app : BorrowerApp)
    (info : BorrowerInformation) (lf : Q) (name : string) (terms : ERATerms) :
  processBorrowerApp era app info lf name = Some terms ->
  offered_by terms = name
  /\ interest_reward terms = lf * interest_rate terms
  /\ (((no_loans info < GRACE_NUM_LOANS)%N /\ qin_collateral terms = 0)
      \/ ((GRACE_NUM_LOANS <= no_loans info)%N
          /\ qin_collateral terms
             = computeQinCollateral era
                 (clamp_prob_default (predictProbDefault era app))
                 (successful_loans info)
          /\ qin_collateral terms <= earned_qin info)).
Proof.
  unfold processBorrowerApp, required_collateral.
  destruct (rejectBorrower era _); [discriminate|].
  destruct (GRACE_NUM_LOANS <=? no_loans info)%N eqn:Hg.
  - apply N.leb_le in Hg.
    match goal with
    | |- context [Qltb ?a ?b] => case_Qltb a b
    end; [discriminate|].
    intros [= <-]. cbn. auto 6.
  - apply N.leb_gt in Hg. intros [= <-]. cbn. auto.
Qed.

(** X2. An emitted response is affordable and carries the assessor's
    name: within the grace period its collateral is 0, past it the
    collateral is what the assessor computed and does not exceed the
    borrower's qin; the interest reward is the loan fraction times the
    emitted rate. *)
Theorem emitted_response_affordable (era : ERA) (app : BorrowerApp)
    (info : BorrowerInformation) (lf : Q) (name : string) (terms : ERATerms) :
  processBorrowerApp era app info lf name = Some terms ->
  offered_by terms = name
  /\ interest_reward terms = lf * interest_rate terms
  /\ (((no_loans info < GRACE_NUM_LOANS)%N /\ qin_collateral terms = 0)
      \/ ((GRACE_NUM_LOANS <= no_loans info)%N
          /\ qin_collateral terms
             = computeQinCollateral era
                 (clamp_prob_default (predictProbDefault era app))
                 (successful_loans info)
          /\ qin_collateral terms <= earned_qin info)).
Proof. apply processBorrowerApp_emitted_collateral. Qed.

Lemma emitted_response_affordable_witness :
  exists terms,
    processBorrowerApp NaiveERA sample_app (returning_borrower 1) 20
      "ABC Analytica" = Some terms
    /\ offered_by terms = "ABC Analytica"
    /\ qin_collateral terms <= 1.
Proof.
  eexists. split; [reflexivity|].
  destruct (@emitted_response_affordable NaiveERA sample_app
              (returning_borrower 1) 20 "ABC Analytica" _ eq_refl)
    as (Hname & _ & [[Hgrace _]|(_ & _ & Hle)]).
  - unfold GRACE_NUM_LOANS in Hgrace. cbn in Hgrace. lia.
  - split; [exact Hname | exact Hle].
Defined.

(** ** The built-in assessors *)

Lemma logistic_unit `{GoRuntime} (d : Q) :
  0 < math_Exp (- (1) * d) -> 0 < logistic d < 1.
Proof.
  intros He. unfold logistic. split.
  - apply Qlt_shift_div_l; lra.
  - apply Qlt_shift_div_r; lra.
Qed.

(** X3. With a positive exponential the two regression scorers return
    a probability strictly between 0 and 1, so the clamp of
    [processBorrowerApp] leaves it as it is. *)
Theorem builtin_scorers_unit_interval `{GoRuntime} (app : BorrowerApp) :
  (forall x, 0 < math_Exp x) ->
  (0 < predictProbDefault KivaERA app < 1
   /\ clamp_prob_default (predictProbDefault KivaERA app)
      = predictProbDefault KivaERA app)
  /\ (0 < predictProbDefault ProsperERA app < 1
      /\ clamp_prob_default (predictProbDefault ProsperERA app)
         = predictProbDefault ProsperERA app).
Proof.
  intros Hexp. cbn [predictProbDefault KivaERA ProsperERA].
  rewrite KivaERA_featureToProb_defined, ProsperERA_featureToProb_defined.
  split.
  - match goal with
    | |- context [logistic ?d] => pose proof (logistic_unit d (Hexp _)) as Hu
    end.
    split; [exact Hu|]. apply clamp_prob_default_id. lra.
  - match goal with
    | |- context [logistic ?d] => pose proof (logistic_unit d (Hexp _)) as Hu
    end.
    split; [exact Hu|]. apply clamp_prob_default_id. lra.
Qed.

Lemma sample_runtime_Exp_positive (x : Q) : 0 < @math_Exp sample_runtime x.
Proof.
  cbn. case_Qltb x 0.
  - apply Qlt_shift_div_l; lra.
  - lra.
Qed.

Lemma builtin_scorers_unit_interval_witness :
  let H := sample_runtime in
  0 < predictProbDefault KivaERA sample_app < 1
  /\ 0 < predictProbDefault ProsperERA sample_app < 1.
Proof.
  intros H.
  destruct (@builtin_scorers_unit_interval H sample_app
              sample_runtime_Exp_positive) as [[Hk _] [Hp _]].
  split; assumption.
Defined.

(** X4. For an assessor with the built-in linear rate and reward
    formulas the other two clamps do nothing either: the emitted rate
    is the probability times [MAX_INTEREST_RATE], and for a loan
    fraction that is not negative the emitted reward is the probability
    times the interest reward.  A negative loan fraction (a negative
    principal) earns no reward. *)
Theorem builtin_formulas_not_clamped (era : ERA) (app : BorrowerApp)
    (info : BorrowerInformation) (lf : Q) (name : string) (terms : ERATerms) :
  predictInterestRate era = linear_rate ->
  computeQinReward era = linear_reward ->
  processBorrowerApp era app info lf name = Some terms ->
  let p := clamp_prob_default (predictProbDefault era app) in
  interest_rate terms = p * MAX_INTEREST_RATE
  /\ (0 <= lf -> qin_reward terms = p * (lf * (p * MAX_INTEREST_RATE)))
  /\ (lf <= 0 -> qin_reward terms == 0).
Proof.
  intros Hrate Hreward. cbn zeta. unfold processBorrowerApp.
  pose proof (clamp_prob_default_bounds (predictProbDefault era app)) as [Hp0 Hp1].
  set (p := clamp_prob_default (predictProbDefault era app)) in *.
  destruct (rejectBorrower era p); [discriminate|].
  destruct (required_collateral era p info); [|discriminate].
  intros [= <-]. cbn. rewrite Hrate, Hreward.
  assert (Hr : clamp_interest_rate (linear_rate p) = p * MAX_INTEREST_RATE).
  { unfold clamp_interest_rate, linear_rate, MAX_INTEREST_RATE.
    case_Qltb (p * (1 # 10)) 0; [lra|].
    case_Qltb (1 # 10) (p * (1 # 10)); [lra|reflexivity]. }
  rewrite Hr. split; [reflexivity|].
  unfold clamp_qin_reward, linear_reward, MAX_INTEREST_RATE.
  assert (Hq : 0 <= p * (1 # 10)) by lra.
  split; intros Hlf.
  - case_Qltb (p * (lf * (p * (1 # 10)))) 0; [|reflexivity].
    exfalso.
    assert (0 <= lf * (p * (1 # 10))) by (apply Qmult_le_0_compat; assumption).
    assert (0 <= p * (lf * (p * (1 # 10))))
      by (apply Qmult_le_0_compat; assumption).
    lra.
  - case_Qltb (p * (lf * (p * (1 # 10)))) 0; [reflexivity|].
    assert (Hneg : p * (lf * (p * (1 # 10))) <= 0).
    { setoid_replace (p * (lf * (p * (1 # 10))))
        with (- (p * (- lf * (p * (1 # 10))))) by ring.
      assert (0 <= - lf * (p * (1 # 10)))
        by (apply Qmult_le_0_compat; lra).
      assert (0 <= p * (- lf * (p * (1 # 10))))
        by (apply Qmult_le_0_compat; assumption).
      lra. }
    lra.
Qed.

Lemma builtin_formulas_not_clamped_witness :
  exists terms,
    processBorrowerApp NaiveERA sample_app (returning_borrower 1) 20
      "ABC Analytica" = Some terms
    /\ interest_rate terms = (1 # 2) * MAX_INTEREST_RATE
    /\ qin_reward terms = (1 # 2) * (20 * ((1 # 2) * MAX_INTEREST_RATE)).
Proof.
  eexists. split; [reflexivity|].
  destruct (@builtin_formulas_not_clamped NaiveERA sample_app
              (returning_borrower 1) 20 "ABC Analytica" _
              eq_refl eq_refl eq_refl) as (Hrate & Hreward & _).
  split; [exact Hrate|]. apply Hreward. unfold Qle. cbn. lia.
Defined.

Lemma never_rejected_in_grace (era : ERA) app info lf name :
  (forall p, 0 <= p <= 1 -> rejectBorrower era p = false) ->
  (no_loans info < GRACE_NUM_LOANS)%N ->
  exists terms,
    processBorrowerApp era app info lf name = Some terms
    /\ qin_collateral terms = 0.
Proof.
  intros Hrej Hg. unfold processBorrowerApp, required_collateral.
  rewrite (Hrej _ (clamp_prob_default_bounds _)).
  apply N.leb_gt in Hg. rewrite Hg. eexists. split; reflexivity.
Qed.

Lemma reject_above_one (p : Q) : 0 <= p <= 1 -> Qltb 1 p = false.
Proof. intros [_ Hp]. now apply Qltb_ge. Qed.

(** X5. A borrower within the grace period always gets an offer from
    the naive and from the random assessor of the server's driver, both
    without collateral: at least two of the four answers are offers,
    and the platform's own offer is not used. *)
Theorem builtin_driver_offers_in_grace `{GoRuntime} (rand_Float64 : Q)
    (app : BorrowerApp) (info : BorrowerInformation) :
  (no_loans info < GRACE_NUM_LOANS)%N ->
  exists kiva prosper naive random,
    processBorrowerRequest (constructERADriver rand_Float64) app info
    = Some ([kiva; prosper; Some naive; Some random],
            count_not_nil [kiva; prosper; Some naive; Some random])
    /\ (2 <= count_not_nil [kiva; prosper; Some naive; Some random])%nat
    /\ qin_collateral naive = 0
    /\ qin_collateral random = 0
    /\ forall loanId amount,
         assign_terms loanId amount [kiva; prosper; Some naive; Some random]
           (count_not_nil [kiva; prosper; Some naive; Some random])
         = Some (present_all loanId amount
                   [kiva; prosper; Some naive; Some random] 0).
Proof.
  intros Hg.
  set (lf := ERA_INTEREST_FRACTION * principal_amount app).
  destruct (@never_rejected_in_grace NaiveERA app info lf "ABC Analytica"
              reject_above_one Hg) as (naive & Hn & Hnc).
  destruct (@never_rejected_in_grace (RandomERA rand_Float64) app info lf
              "Star Labs" reject_above_one Hg) as (random & Hr & Hrc).
  exists (processBorrowerApp KivaERA app info lf "LendingData"),
    (processBorrowerApp ProsperERA app info lf "IntelligentAnalytica"),
    naive, random.
  assert (Hcount : forall a b : option ERATerms,
             (2 <= count_not_nil [a; b; Some naive; Some random])%nat)
    by (intros [a|] [b|]; cbn; lia).
  split; [|split; [apply Hcount|split; [exact Hnc|split; [exact Hrc|]]]].
  - unfold processBorrowerRequest.
    cbn [constructERADriver _num_eras _eras _era_external_names List.length
         era_responses_from nth_error].
    fold lf. now rewrite Hn, Hr.
  - intros loanId amount. rewrite assign_terms_counted.
    match goal with
    | |- context [(0 <? ?n)%nat] =>
        replace (0 <? n)%nat with true; [reflexivity|]
    end.
    symmetry. apply Nat.ltb_lt.
    pose proof (Hcount (processBorrowerApp KivaERA app info lf "LendingData")
                  (processBorrowerApp ProsperERA app info lf
                     "IntelligentAnalytica")).
    lia.
Qed.

Lemma builtin_driver_offers_in_grace_witness :
  let H := sample_runtime in
  exists era_terms n,
    processBorrowerRequest (constructERADriver (1 # 4)) sample_app
      {| no_loans := 0; successful_loans := 0; earned_qin := 0 |}
    = Some (era_terms, n)
    /\ (2 <= n)%nat.
Proof.
  intros H.
  destruct (@builtin_driver_offers_in_grace H (1 # 4) sample_app
              {| no_loans := 0; successful_loans := 0; earned_qin := 0 |})
    as (kiva & prosper & naive & random & Hreq & Hcount & _).
  - unfold GRACE_NUM_LOANS. cbn. lia.
  - eexists _, _. split; [exact Hreq | exact Hcount].
Defined.

(** ** The dot product *)

Lemma dotProduct_from_acc (c f : list Q) :
  forall p, dotProduct_from p c f == p + dotProduct_from 0 c f.
Proof.
  revert f. induction c as [|x c IH]; intros [|y f] p; cbn; try lra.
  rewrite (IH f (p + x * y)), (IH f (0 + x * y)). lra.
Qed.

Lemma dotProduct_from_sym (c f : list Q) :
  forall p, dotProduct_from p c f == dotProduct_from p f c.
Proof.
  revert f. induction c as [|x c IH]; intros [|y f] p; cbn; try lra.
  rewrite (dotProduct_from_acc c f), (dotProduct_from_acc f c), (IH f 0). lra.
Qed.

Lemma dotProduct_from_padding (n : nat) (c f : list Q) :
  forall p,
    dotProduct_from p (make_float64 n ++ c) (make_float64 n ++ f)
    == dotProduct_from p c f.
Proof.
  induction n as [|n IH]; intros p; cbn; [lra|].
  unfold make_float64 in IH. rewrite IH.
  rewrite (dotProduct_from_acc c f (p + 0 * 0)), (dotProduct_from_acc c f p).
  lra.
Qed.

(** X6. [dotProduct] panics exactly on slices of different length.  On
    slices of equal length the leading zeros that [make] followed by
    [append] puts in front of the coefficients and of the features do
    not change the product, and the product is symmetric. *)
Theorem dotProduct_padding (c f : list Q) (n : nat) :
  (dotProduct c f = None <-> List.length c <> List.length f)
  /\ (List.length c = List.length f ->
      exists padded plain swapped,
        dotProduct (make_float64 n ++ c) (make_float64 n ++ f) = Some padded
        /\ dotProduct c f = Some plain
        /\ dotProduct f c = Some swapped
        /\ padded == plain
        /\ swapped == plain).
Proof.
  unfold dotProduct. split.
  - destruct (List.length c =? List.length f)%nat eqn:Hl.
    + apply Nat.eqb_eq in Hl. split; [discriminate|contradiction].
    + apply Nat.eqb_neq in Hl. split; auto.
  - intros Hl. rewrite !length_app, Hl, !Nat.eqb_refl.
    do 3 eexists. repeat split.
    + apply dotProduct_from_padding.
    + apply dotProduct_from_sym.
Qed.

Lemma dotProduct_padding_witness :
  exists padded plain,
    dotProduct (make_float64 2 ++ [3; 4]) (make_float64 2 ++ [1; 1000])
    = Some padded
    /\ dotProduct [3; 4] [1; 1000] = Some plain
    /\ padded == plain.
Proof.
  destruct (@dotProduct_padding [3; 4] [1; 1000] 2) as [_ Hpad].
  destruct (Hpad eq_refl) as (padded & plain & swapped & Hp & Hq & _ & He & _).
  exists padded, plain. auto.
Defined.

(** ** More on rounding *)














(** ** The answers of the driver *)

Lemma era_responses_from_nth d app info lf :
  forall todo i era_terms,
    era_responses_from d app info lf i todo = Some era_terms ->
    List.length era_terms = todo
    /\ forall j,
         (j < todo)%nat ->
         exists era name,
           nth_error (_eras d) (i + j) = Some era
           /\ nth_error (_era_external_names d) (i + j) = Some name
           /\ nth_error era_terms j
              = Some (processBorrowerApp era app info lf name).
Proof.
  induction todo as [|todo IH]; intros i era_terms; cbn.
  - intros [= <-]. split; [reflexivity|]. intros j Hj. lia.
  - destruct (nth_error (_eras d) i) as [era|] eqn:He; [|discriminate].
    destruct (nth_error (_era_external_names d) i) as [name|] eqn:Hn;
      [|discriminate].
    destruct (era_responses_from d app info lf (S i) todo) as [rest|] eqn:Hr;
      [|discriminate].
    intros [= <-]. destruct (IH _ _ Hr) as [Hlen Hnth].
    split; [cbn; now rewrite Hlen|].
    intros [|j] Hj.
    + rewrite Nat.add_0_r. exists era, name. auto.
    + destruct (Hnth j) as (era' & name' & He' & Hn' & Hj'); [lia|].
      rewrite Nat.add_succ_r. exists era', name'. auto.
Qed.

Lemma era_responses_from_panics d app info lf :
  forall todo i,
    era_responses_from d app info lf i todo = None ->
    (List.length (_eras d) < i + todo)%nat
    \/ (List.length (_era_external_names d) < i + todo)%nat.
Proof.
  intros todo i Hnone.
  destruct (Nat.le_gt_cases (i + todo) (List.length (_eras d))) as [He|He];
    [|now left].
  destruct (Nat.le_gt_cases (i + todo) (List.length (_era_external_names d)))
    as [Hn|Hn]; [|now right].
  destruct (era_responses_from_defined d app info lf todo i He Hn) as [rs Hrs].
  congruence.
Qed.

Lemma count_not_nil_le (era_terms : list (option ERATerms)) :
  (count_not_nil era_terms <= List.length era_terms)%nat.
Proof.
  induction era_terms as [|[t|] rest IH]; cbn; lia.
Qed.

(** X9. [processBorrowerRequest] panics exactly when one of the two
    slices of the driver is shorter than [_num_eras].  Otherwise it
    returns one answer per assessor, in the order of the driver, each
    being that assessor's [processBorrowerApp] under its external name
    and the loan fraction [ERA_INTEREST_FRACTION * principal], together
    with the number of offers among them. *)
Theorem processBorrowerRequest_answers (d : ERADriver) (app : BorrowerApp)
    (info : BorrowerInformation) :
  (processBorrowerRequest d app info = None <-> ~ driver_ok d)
  /\ forall era_terms n,
       processBorrowerRequest d app info = Some (era_terms, n) ->
       List.length era_terms = _num_eras d
       /\ n = count_not_nil era_terms
       /\ (n <= _num_eras d)%nat
       /\ forall j,
            (j < _num_eras d)%nat ->
            exists era name,
              nth_error (_eras d) j = Some era
              /\ nth_error (_era_external_names d) j = Some name
              /\ nth_error era_terms j
                 = Some (processBorrowerApp era app info
                           (ERA_INTEREST_FRACTION * principal_amount app) name).
Proof.
  unfold processBorrowerRequest, driver_ok. split.
  - destruct (era_responses_from _ _ _ _ _ _) as [rs|] eqn:Hrs.
    + split; [discriminate|]. intros Hbad. exfalso. apply Hbad.
      destruct (era_responses_from_nth _ _ _ _ _ _ Hrs) as [_ Hnth].
      split.
      * destruct (_num_eras d) as [|k] eqn:Hk; [lia|].
        destruct (Hnth k) as (era & name & He & _); [lia|].
        apply (proj1 (nth_error_Some _ _)).
        cbn in He. rewrite He. discriminate.
      * destruct (_num_eras d) as [|k] eqn:Hk; [lia|].
        destruct (Hnth k) as (era & name & _ & Hn & _); [lia|].
        apply (proj1 (nth_error_Some _ _)).
        cbn in Hn. rewrite Hn. discriminate.
    + split; [|reflexivity]. intros _ [He Hn].
      destruct (era_responses_from_panics _ _ _ _ _ _ Hrs); lia.
  - intros era_terms n.
    destruct (era_responses_from _ _ _ _ _ _) as [rs|] eqn:Hrs; [|discriminate].
    intros [= <- <-].
    destruct (era_responses_from_nth _ _ _ _ _ _ Hrs) as [Hlen Hnth].
    split; [exact Hlen|]. split; [reflexivity|].
    split; [rewrite <- Hlen; apply count_not_nil_le|].
    exact Hnth.
Qed.

Lemma processBorrowerRequest_answers_witness :
  let H := sample_runtime in
  exists era_terms n,
    processBorrowerRequest (constructERADriver (1 # 4)) sample_app broke_borrower
    = Some (era_terms, n)
    /\ List.length era_terms = 4%nat
    /\ (n <= 4)%nat.
Proof.
  intros H.
  destruct (processBorrowerRequest (constructERADriver (1 # 4)) sample_app
              broke_borrower) as [[era_terms n]|] eqn:Hreq.
  - destruct (@processBorrowerRequest_answers (constructERADriver (1 # 4))
                sample_app broke_borrower) as [_ Hsome].
    destruct (Hsome _ _ Hreq) as (Hlen & _ & Hn & _).
    exists era_terms, n. auto.
  - vm_compute in Hreq. discriminate Hreq.
Defined.

(** ** What an operation does to the history *)

Lemma update_record_at (h : LoanHistory) i loan (f : LoanRecord -> LoanRecord) :
  ActiveLoanForLoanHistory h = Ok (Some (i, loan)) ->
  update_record i f h = update_record i (fun _ => f loan) h.
Proof.
  intros Ha. apply ActiveLoanForLoanHistory_Some in Ha.
  destruct Ha as (pre & post & Hl & -> & _).
  unfold update_record. now rewrite Hl, !update_nth_app.
Qed.

Lemma DefaultActiveLoanIfNecessary_update (clock : Z -> Prop) now h b h1 :
  DefaultActiveLoanIfNecessary now h = Ok (b, h1) ->
  history_update clock h h1.
Proof.
  intros Hd. apply DefaultActiveLoanIfNecessary_inv in Hd.
  destruct Hd as [(_ & -> & _)|(_ & i & loan & Ha & Hst & _ & _ & ->)].
  - constructor.
  - rewrite (update_record_at _ (set_State "DEFAULTED") Ha).
    econstructor; [exact Ha|]. now constructor.
Qed.

Lemma LoanTermsForId_In (termId : string) (loan : LoanRecord) (terms : LoanTerms) :
  LoanTermsForId termId loan = Some terms ->
  In terms (Terms loan) /\ TermId terms = termId.
Proof.
  unfold LoanTermsForId. intros Hf. apply find_some in Hf.
  destruct Hf as [Hin Heq]. apply String.eqb_eq in Heq. auto.
Qed.

(** The outcomes of [SelectLoanOffer]. *)
Lemma SelectLoanOffer_inv (request : LoanSelectRequest) (now : Z) (s s' : Store)
    (r : result LoanRecord) :
  SelectLoanOffer request now s = (s', r) ->
  (s' = s /\ exists e, r = Err e)
  \/ exists user i loan loan',
       user_entity s = Some user
       /\ ActiveLoanForLoanHistory (get_loans s) = Ok (Some (i, loan))
       /\ record_step (eq now) loan loan'
       /\ get_loans s' = update_record i (fun _ => loan') (get_loans s)
       /\ r = Ok (set_Request None loan')
       /\ ((State loan' = "APPROVED" /\ user_entity s' = Some user)
           \/ (State loan' = "SENT"
               /\ exists accepted,
                    AcceptedTerms loan' = Some accepted
                    /\ QinRequired accepted <= QinBalance user
                    /\ user_entity s'
                       = Some (set_QinBalance
                                 (QinBalance user - QinRequired accepted)
                                 user))).
Proof.
  unfold SelectLoanOffer, RunInTransaction, get_user, string_nonempty.
  destruct (SelectedTerm request =? "") eqn:Hsel;
    destruct (LocationName (LoanSelectRequest_Location request) =? "")
      eqn:Hloc; cbn [andb negb];
    try (intros [= <- <-]; left; eauto; fail);
    (destruct (user_entity s) as [user|] eqn:Hu; cbn;
     [|intros [= <- <-]; left; eauto]);
    (destruct (ActiveLoanForLoanHistory (get_loans s))
       as [[[i loan]|]|e] eqn:Ha;
     cbn; try (intros [= <- <-]; left; eauto; fail));
    (destruct (State loan =? "APPROVED") eqn:Hst; cbn;
     [|intros [= <- <-]; left; eauto]);
    apply String.eqb_eq in Hst.
  - (* pickup only *)
    destruct (AcceptedTerms loan) as [accepted|] eqn:Hacc; cbn;
      [|intros [= <- <-]; left; eauto].
    case_Qltb (QinBalance user) (QinRequired accepted); cbn;
      [intros [= <- <-]; left; eauto|].
    intros [= <- <-]. right.
    eexists user, i, loan, _. repeat split.
    + now apply step_send with (accepted := accepted).
    + right. split; [reflexivity|]. exists accepted. repeat split; assumption.
  - (* terms only *)
    destruct (AcceptedTerms loan) as [old|] eqn:Hacc; cbn;
      [intros [= <- <-]; left; eauto|].
    destruct (LoanTermsForId (SelectedTerm request) loan) as [terms|] eqn:Hid;
      cbn; [|intros [= <- <-]; left; eauto].
    apply LoanTermsForId_In in Hid. destruct Hid as [Hin _].
    case_Qltb (QinBalance user) (QinRequired terms); cbn;
      [intros [= <- <-]; left; eauto|].
    intros [= <- <-]. right.
    eexists user, i, loan, _. repeat split.
    + now apply step_accept.
    + left. split; [exact Hst|exact Hu].
  - (* terms and pickup *)
    destruct (AcceptedTerms loan) as [old|] eqn:Hacc; cbn;
      [intros [= <- <-]; left; eauto|].
    destruct (LoanTermsForId (SelectedTerm request) loan) as [terms|] eqn:Hid;
      cbn; [|intros [= <- <-]; left; eauto].
    apply LoanTermsForId_In in Hid. destruct Hid as [Hin _].
    case_Qltb (QinBalance user) (QinRequired terms); cbn;
      [intros [= <- <-]; left; eauto|].
    replace (Qltb (QinBalance user) (QinRequired terms)) with false
      by (symmetry; now apply Qltb_ge).
    cbn. intros [= <- <-]. right.
    eexists user, i, loan, _. repeat split.
    + now apply step_accept_send.
    + right. split; [reflexivity|]. eexists. repeat split. assumption.
Qed.

(** The outcomes of [Repay]. *)
Lemma Repay_inv (now_check now_stamp : Z) (s s' : Store) (r : result LoanRecord) :
  Repay now_check now_stamp s = (s', r) ->
  (s' = s /\ exists e, r = Err e)
  \/ (exists user i loan accepted,
        user_entity s = Some user
        /\ ActiveLoanForLoanHistory (get_loans s) = Ok (Some (i, loan))
        /\ State loan = "SENT"
        /\ AcceptedTerms loan = Some accepted
        /\ DefaultActiveLoanIfNecessary now_check (get_loans s)
           = Ok (false, get_loans s)
        /\ let repaid :=
             set_State "REPAID"
               (set_RepaidDate (now_stamp * 1000)%Z
                  (set_Repayments
                     (Repayments loan
                      ++ [{| Repayment_Amount := AmountOwed accepted;
                             Timestamp := (now_stamp * 1000)%Z |}])
                     loan)) in
           s' = put_loans (update_record i (fun _ => repaid) (get_loans s))
                  (put_user
                     (set_QinBalance
                        (QinBalance user
                         + (QinRequired accepted + QinReward accepted)) user) s)
           /\ r = Ok (set_Request None repaid))
  \/ (exists user i loan h',
        user_entity s = Some user
        /\ ActiveLoanForLoanHistory (get_loans s) = Ok (Some (i, loan))
        /\ State loan = "SENT"
        /\ DefaultActiveLoanIfNecessary now_check (get_loans s) = Ok (true, h')
        /\ s' = put_loans h' s
        /\ r = Err ErrLoanInDefault).
Proof.
  unfold Repay, RunInTransaction, get_user.
  destruct (user_entity s) as [user|] eqn:Hu; cbn;
    [|intros [= <- <-]; left; eauto].
  destruct (ActiveLoanForLoanHistory (get_loans s)) as [[[i loan]|]|e] eqn:Ha;
    cbn; try (intros [= <- <-]; left; eauto; fail).
  destruct (State loan =? "SENT") eqn:Hst; cbn;
    [|intros [= <- <-]; left; eauto].
  apply String.eqb_eq in Hst.
  destruct (DefaultActiveLoanIfNecessary now_check (get_loans s))
    as [[[|] h']|e] eqn:Hd; cbn; [| |intros [= <- <-]; left; eauto].
  - intros [= <- <-]. right. right. exists user, i, loan, h'. auto 10.
  - destruct (DefaultActiveLoanIfNecessary_inv _ _ Hd)
      as [(_ & -> & _)|[[=] _]].
    destruct (AcceptedTerms loan) as [accepted|] eqn:Hacc; cbn;
      [|intros [= <- <-]; left; eauto].
    intros [= <- <-]. right. left. exists user, i, loan, accepted.
    repeat split; assumption.
Qed.

(** The outcomes of [DeleteActiveLoan]. *)
Lemma DeleteActiveLoan_inv (s s' : Store) (r : result LoanDeleteResponse) :
  DeleteActiveLoan s = (s', r) ->
  (s' = s /\ exists e, r = Err e)
  \/ exists i loan,
       ActiveLoanForLoanHistory (get_loans s) = Ok (Some (i, loan))
       /\ (State loan = "APPROVED" \/ State loan = "PENDING")
       /\ s' = put_loans (update_record i (set_State "CANCELED") (get_loans s)) s
       /\ r = Ok {| Success := true |}.
Proof.
  unfold DeleteActiveLoan, RunInTransaction.
  destruct (ActiveLoanForLoanHistory (get_loans s)) as [[[i loan]|]|e] eqn:Ha;
    cbn; try (intros [= <- <-]; left; eauto; fail).
  destruct (State loan =? "APPROVED") eqn:Happ; cbn.
  - apply String.eqb_eq in Happ. intros [= <- <-]. right. exists i, loan. auto.
  - destruct (State loan =? "PENDING") eqn:Hpen; cbn.
    + apply String.eqb_eq in Hpen. intros [= <- <-]. right. exists i, loan. auto.
    + intros [= <- <-]. left. eauto.
Qed.

(** [GetActiveLoan] and [GetLoans] write at most the defaulted history. *)
Lemma GetActiveLoan_inv (now : Z) (s s' : Store) (r : result LoanRecord) :
  GetActiveLoan now s = (s', r) ->
  s' = s
  \/ exists h',
       DefaultActiveLoanIfNecessary now (get_loans s) = Ok (true, h')
       /\ s' = put_loans h' s /\ r = Err ErrNoActiveLoan.
Proof.
  unfold GetActiveLoan, RunInTransaction.
  destruct (DefaultActiveLoanIfNecessary now (get_loans s))
    as [[[|] h']|e] eqn:Hd; cbn; intros [= <- <-]; auto.
  right. exists h'.
  now rewrite (DefaultActiveLoanIfNecessary_fired_no_active _ _ Hd).
Qed.

Lemma GetLoans_inv (now : Z) (s s' : Store) (r : result LoanHistory) :
  GetLoans now s = (s', r) ->
  s' = s
  \/ exists h',
       DefaultActiveLoanIfNecessary now (get_loans s) = Ok (true, h')
       /\ s' = put_loans h' s.
Proof.
  unfold GetLoans, RunInTransaction.
  destruct (DefaultActiveLoanIfNecessary now (get_loans s))
    as [[[|] h']|e] eqn:Hd; cbn; intros [= <- <-]; eauto.
Qed.

Lemma CreateUser_loans (user : User) (now : Z) (s : Store) :
  get_loans (fst (CreateUser user now s)) = get_loans s.
Proof.
  unfold CreateUser, RunInTransaction.
  destruct (_ || _); [reflexivity|].
  destruct (user_entity s); reflexivity.
Qed.

Lemma PatchUser_loans (user : User) (s : Store) :
  get_loans (fst (PatchUser user s)) = get_loans s.
Proof.
  unfold PatchUser, RunInTransaction, get_user.
  destruct (_ && _); [reflexivity|].
  destruct (user_entity s); reflexivity.
Qed.

(** Every operation leaves the history as it was, or changes its
    active record by one step; a loan request may then append the new
    record to a history without active record. *)
Lemma run_op_history `{GoRuntime} (op : Op) (s : Store) :
  history_update (op_clock op) (get_loans s) (get_loans (run_op op s))
  \/ exists d UID request now_created now_check h1 user terms,
       op = OpLoanRequest d UID request now_created now_check
       /\ history_update (op_clock op) (get_loans s) h1
       /\ Forall inactive (LoanRecords h1)
       /\ get_loans (run_op op s)
          = {| LoanRecords :=
                 LoanRecords h1
                 ++ [approved_loanRecord
                       (UID ++ "-" ++ Itoa (List.length (LoanRecords h1)))%string
                       request user terms now_created] |}.
Proof.
  destruct op; cbn [run_op].
  - left. rewrite CreateUser_loans. constructor.
  - left. rewrite PatchUser_loans. constructor.
  - destruct (LoanRequestFun eraDriver UID request now_created now_check s)
      as [s' r] eqn:Hrun.
    apply LoanRequestFun_inv in Hrun. cbn [fst].
    destruct Hrun as [[-> _]|Hrun]; [left; constructor|].
    destruct Hrun
      as (user & employment & b & h1 & info & era_terms & n & terms
          & _ & _ & Hd & Hinfo & _ & _ & -> & _).
    right. exists eraDriver, UID, request, now_created, now_check, h1, user, terms.
    split; [reflexivity|].
    split; [exact (DefaultActiveLoanIfNecessary_update _ _ _ Hd)|].
    split; [exact (borrowerInfo_from_inv _ _ Hinfo) | reflexivity].
  - left. destruct (GetActiveLoan now s) as [s' r] eqn:Hrun.
    apply GetActiveLoan_inv in Hrun. cbn [fst].
    destruct Hrun as [->|(h' & Hd & -> & _)]; [constructor|].
    rewrite get_loans_put_loans.
    exact (DefaultActiveLoanIfNecessary_update _ _ _ Hd).
  - left. destruct (SelectLoanOffer loanSelectRequest now s) as [s' r] eqn:Hrun.
    apply SelectLoanOffer_inv in Hrun. cbn [fst].
    destruct Hrun as [[-> _]|(user & i & loan & loan' & _ & Ha & Hstep & -> & _)];
      [constructor|].
    now apply history_changed with (loan := loan).
  - left. destruct (Repay now_check now_stamp s) as [s' r] eqn:Hrun.
    apply Repay_inv in Hrun. cbn [fst].
    destruct Hrun
      as [[-> _]|[(user & i & loan & accepted & _ & Ha & Hst & Hacc & _ & -> & _)
                 |(user & i & loan & h' & _ & _ & _ & Hd & -> & _)]].
    + constructor.
    + rewrite get_loans_put_loans.
      apply history_changed with (loan := loan); [exact Ha|].
      now apply step_repay.
    + rewrite get_loans_put_loans.
      exact (DefaultActiveLoanIfNecessary_update _ _ _ Hd).
  - left. destruct (DeleteActiveLoan s) as [s' r] eqn:Hrun.
    apply DeleteActiveLoan_inv in Hrun. cbn [fst].
    destruct Hrun as [[-> _]|(i & loan & Ha & Hst & -> & _)]; [constructor|].
    rewrite get_loans_put_loans, (update_record_at _ (set_State "CANCELED") Ha).
    apply history_changed with (loan := loan); [exact Ha|].
    now apply step_cancel.
  - left. destruct (GetLoans now s) as [s' r] eqn:Hrun.
    apply GetLoans_inv in Hrun. cbn [fst].
    destruct Hrun as [->|(h' & Hd & ->)]; [constructor|].
    rewrite get_loans_put_loans.
    exact (DefaultActiveLoanIfNecessary_update _ _ _ Hd).
Qed.

(** ** The lifecycle of a stored record *)

Lemma nth_error_update_nth {A : Type} (f : A -> A) (l : list A) :
  forall i j,
    nth_error (update_nth j f l) i
    = if (i =? j)%nat then option_map f (nth_error l i) else nth_error l i.
Proof.
  induction l as [|x l IH]; intros i j.
  - destruct j; cbn; destruct (i =? _)%nat; destruct i; reflexivity.
  - destruct i, j; cbn; try reflexivity. apply IH.
Qed.

Lemma length_update_nth {A : Type} (f : A -> A) (l : list A) :
  forall j, List.length (update_nth j f l) = List.length l.
Proof.
  induction l as [|x l IH]; intros [|j]; cbn; try reflexivity.
  now rewrite IH.
Qed.

Lemma ActiveLoanForLoanHistory_nth (h : LoanHistory) i loan :
  ActiveLoanForLoanHistory h = Ok (Some (i, loan)) ->
  nth_error (LoanRecords h) i = Some loan /\ IsLoanActive loan = Ok true.
Proof.
  intros Ha. apply ActiveLoanForLoanHistory_Some in Ha.
  destruct Ha as (pre & post & -> & -> & Hact & _).
  split; [|exact Hact].
  rewrite nth_error_app2, Nat.sub_diag by lia. reflexivity.
Qed.

Lemma record_step_fields (clock : Z -> Prop) (loan loan' : LoanRecord) :
  record_step clock loan loan' ->
  transition_allowed (State loan) (State loan')
  /\ LoanId loan' = LoanId loan
  /\ Amount loan' = Amount loan
  /\ CurrencyCode loan' = CurrencyCode loan
  /\ Terms loan' = Terms loan
  /\ Memo loan' = Memo loan
  /\ Request loan' = Request loan
  /\ DateCreated loan' = DateCreated loan.
Proof.
  unfold transition_allowed.
  destruct 1 as [loan Hst|loan terms Hst _ _|loan accepted location now Hst _ _
                |loan terms location now Hst _ _ _|loan accepted ts Hst _
                |loan [Hst|Hst]];
    cbn; rewrite Hst; repeat split; cbn; auto 10.
Qed.

Lemma history_update_nth (clock : Z -> Prop) (h h' : LoanHistory) i loan :
  history_update clock h h' ->
  nth_error (LoanRecords h) i = Some loan ->
  List.length (LoanRecords h') = List.length (LoanRecords h)
  /\ exists loan',
       nth_error (LoanRecords h') i = Some loan'
       /\ (loan' = loan
           \/ (IsLoanActive loan = Ok true /\ record_step clock loan loan')).
Proof.
  intros [|j active active' Ha Hstep] Hnth; [eauto|].
  destruct (@ActiveLoanForLoanHistory_nth _ _ _ Ha) as [Hj Hact].
  cbn. rewrite length_update_nth. split; [reflexivity|].
  rewrite nth_error_update_nth.
  destruct (i =? j)%nat eqn:Hij.
  - apply Nat.eqb_eq in Hij. subst j. rewrite Hnth in Hj.
    injection Hj as <-. rewrite Hnth. cbn. eauto.
  - eauto.
Qed.

Lemma operation_transitions_aux `{GoRuntime} (op : Op) (s : Store) (i : nat)
    (loan : LoanRecord) :
  nth_error (LoanRecords (get_loans s)) i = Some loan ->
  (List.length (LoanRecords (get_loans s))
   <= List.length (LoanRecords (get_loans (run_op op s))))%nat
  /\ exists loan',
       nth_error (LoanRecords (get_loans (run_op op s))) i = Some loan'
       /\ (loan' = loan
           \/ (is_active loan = true
               /\ transition_allowed (State loan) (State loan')
               /\ LoanId loan' = LoanId loan
               /\ Amount loan' = Amount loan
               /\ Terms loan' = Terms loan
               /\ DateCreated loan' = DateCreated loan)).
Proof.
  intros Hnth.
  assert (Hupd : forall h1,
             history_update (op_clock op) (get_loans s) h1 ->
             List.length (LoanRecords h1)
             = List.length (LoanRecords (get_loans s))
             /\ exists loan',
                  nth_error (LoanRecords h1) i = Some loan'
                  /\ (loan' = loan
                      \/ (is_active loan = true
                          /\ transition_allowed (State loan) (State loan')
                          /\ LoanId loan' = LoanId loan
                          /\ Amount loan' = Amount loan
                          /\ Terms loan' = Terms loan
                          /\ DateCreated loan' = DateCreated loan))).
  { intros h1 Hh1.
    destruct (@history_update_nth _ _ _ _ _ Hh1 Hnth) as (Hlen & loan' & Hn' & Hcase).
    split; [exact Hlen|]. exists loan'. split; [exact Hn'|].
    destruct Hcase as [->|[Hact Hstep]]; [now left|right].
    apply is_active_true in Hact.
    destruct (@record_step_fields _ _ _ Hstep) as (Ht & Hid & Ham & _ & Hterms & _ & _ & Hd).
    auto 10. }
  destruct (run_op_history op s)
    as [Hh|(d & UID & request & t1 & t2 & h1 & user & terms & _ & Hh & _ & ->)].
  - destruct (Hupd _ Hh) as [Hlen Hrec]. split; [lia | exact Hrec].
  - destruct (Hupd _ Hh) as (Hlen & loan' & Hn' & Hcase).
    cbn [LoanRecords]. rewrite length_app. split; [lia|].
    exists loan'. split; [|exact Hcase].
    rewrite nth_error_app1; [exact Hn'|].
    apply nth_error_Some. rewrite Hn'. discriminate.
Qed.

(** X10. The state machine.  An operation never removes or moves a
    stored record, and it leaves every record as it was except possibly
    the active one, which it changes along one of the transitions
    APPROVED to APPROVED (terms accepted), APPROVED to SENT, SENT to
    REPAID, SENT to DEFAULTED, APPROVED or PENDING to CANCELED, keeping
    its id, amount, offered terms and creation date. *)
Theorem operation_transitions `{GoRuntime} (op : Op) (s : Store) (i : nat)
    (loan : LoanRecord) :
  nth_error (LoanRecords (get_loans s)) i = Some loan ->
  (List.length (LoanRecords (get_loans s))
   <= List.length (LoanRecords (get_loans (run_op op s))))%nat
  /\ exists loan',
       nth_error (LoanRecords (get_loans (run_op op s))) i = Some loan'
       /\ (loan' = loan
           \/ (is_active loan = true
               /\ transition_allowed (State loan) (State loan')
               /\ LoanId loan' = LoanId loan
               /\ Amount loan' = Amount loan
               /\ Terms loan' = Terms loan
               /\ DateCreated loan' = DateCreated loan)).
Proof. apply operation_transitions_aux. Qed.

Lemma operation_transitions_witness :
  let H := sample_runtime in
  exists loan',
    nth_error
      (LoanRecords (get_loans (run_op (OpRepay 100 101) overdue_store))) 0
    = Some loan'
    /\ (loan' = overdue_record
        \/ transition_allowed (State overdue_record) (State loan')).
Proof.
  intros H.
  destruct (@operation_transitions H (OpRepay 100 101) overdue_store 0%nat
              overdue_record eq_refl) as (_ & loan' & Hn & Hcase).
  exists loan'. split; [exact Hn|].
  destruct Hcase as [->|(_ & Ht & _)]; auto.
Defined.

(** X11. A record that is not active (REPAID, DEFAULTED, CANCELED or
    REJECTED) is never changed again: after any further operations it
    is still stored at the same position, field for field. *)
Theorem inactive_record_permanent `{GoRuntime} (ops : list Op) (s : Store)
    (i : nat) (loan : LoanRecord) :
  nth_error (LoanRecords (get_loans s)) i = Some loan ->
  inactive loan ->
  nth_error (LoanRecords (get_loans (run_ops ops s))) i = Some loan.
Proof.
  revert s. induction ops as [|op ops IH]; intros s Hnth Hin; cbn;
    [exact Hnth|].
  apply IH; [|exact Hin].
  destruct (@operation_transitions_aux _ op s _ _ Hnth)
    as (_ & loan' & Hn' & [->|(Hact & _)]); [exact Hn'|].
  rewrite (inactive_not_active Hin) in Hact. discriminate.
Qed.

Lemma inactive_record_permanent_witness :
  let H := sample_runtime in
  let ops :=
    [OpLoanRequest (constructERADriver (1 # 4)) "uid" sample_request 299 300;
     OpDeleteActiveLoan; OpGetLoans 400] in
  nth_error (LoanRecords (get_loans (run_ops ops defaulted_store))) 0
  = Some (sample_record "DEFAULTED" 200000 (Some sample_accepted)).
Proof.
  intros H ops.
  apply (@inactive_record_permanent H ops defaulted_store 0%nat
           (sample_record "DEFAULTED" 200000 (Some sample_accepted)));
    reflexivity.
Defined.

(** ** Stores the handlers can produce *)

Lemma due_date_pos (now : Z) : (0 <= now)%Z -> (0 < due_date now)%Z.
Proof.
  intros Hnow. unfold due_date.
  rewrite Z.quot_div_nonneg by lia.
  assert (30 <= (now + 30 * 86400) / 86400)%Z
    by (apply Z.div_le_lower_bound; lia).
  lia.
Qed.

Lemma record_step_well_formed (clock : Z -> Prop) (loan loan' : LoanRecord) :
  (forall now, clock now -> (0 <= now)%Z) ->
  record_step clock loan loan' -> well_formed loan -> well_formed loan'.
Proof.
  intros Hclock Hstep (Hknown & Hpending & Hin & Hsent).
  destruct Hstep as [loan Hst|loan terms Hst Hacc Hterms
                    |loan accepted location now Hst Hacc Hnow
                    |loan terms location now Hst Hacc Hterms Hnow
                    |loan accepted ts Hst Hacc
                    |loan Hst];
    unfold well_formed; cbn;
    (split; [reflexivity || assumption
            |split; [discriminate || assumption|split]]).
  - exact Hin.
  - intros _. apply Hsent. rewrite Hst. cbn. auto.
  - intros t [= <-]. exact Hterms.
  - rewrite Hst. intros [[=]|[[=]|[[=]|[]]]].
  - exact Hin.
  - intros _. split; [rewrite Hacc; discriminate|].
    apply due_date_pos, Hclock, Hnow.
  - intros t [= <-]. exact Hterms.
  - intros _. split; [discriminate|]. apply due_date_pos, Hclock, Hnow.
  - exact Hin.
  - intros _. apply Hsent. rewrite Hst. cbn. auto.
  - exact Hin.
  - intros [[=]|[[=]|[[=]|[]]]].
Qed.

Lemma Forall_update_nth {A : Type} (P : A -> Prop) (f : A -> A) (l : list A) :
  forall j,
    Forall P l ->
    (forall x, nth_error l j = Some x -> P (f x)) ->
    Forall P (update_nth j f l).
Proof.
  induction l as [|x l IH]; intros [|j] Hl Hf; cbn; try exact Hl;
    inversion Hl; subst; constructor; auto.
Qed.

Lemma history_update_well_formed (clock : Z -> Prop) (h h' : LoanHistory) :
  (forall now, clock now -> (0 <= now)%Z) ->
  history_update clock h h' ->
  Forall well_formed (LoanRecords h) -> Forall well_formed (LoanRecords h').
Proof.
  intros Hclock [|j active active' Ha Hstep] Hwf; [exact Hwf|].
  destruct (@ActiveLoanForLoanHistory_nth _ _ _ Ha) as [Hj _].
  cbn. apply Forall_update_nth; [exact Hwf|].
  intros x _.
  apply (record_step_well_formed Hclock Hstep).
  rewrite Forall_forall in Hwf. apply Hwf. eapply nth_error_In, Hj.
Qed.

Lemma approved_loanRecord_well_formed loanId request user terms now_created :
  well_formed (approved_loanRecord loanId request user terms now_created).
Proof.
  unfold well_formed. cbn.
  split; [reflexivity|split; [discriminate|split; [discriminate|]]].
  intros [[=]|[[=]|[[=]|[]]]].
Qed.

Lemma run_ops_well_formed `{GoRuntime} (ops : list Op) :
  pickup_clocks_nonneg ops ->
  forall s,
    Forall well_formed (LoanRecords (get_loans s)) ->
    Forall well_formed (LoanRecords (get_loans (run_ops ops s))).
Proof.
  induction 1 as [|op ops Hop _ IH]; intros s Hwf; cbn; [exact Hwf|].
  apply IH.
  destruct (run_op_history op s)
    as [Hh|(d & UID & request & t1 & t2 & h1 & user & terms & _ & Hh & _ & ->)].
  - exact (history_update_well_formed Hop Hh Hwf).
  - cbn. apply Forall_app. split.
    + exact (history_update_well_formed Hop Hh Hwf).
    + constructor; [apply approved_loanRecord_well_formed | constructor].
Qed.

Lemma ActiveLoan_from_succeeds (l : list LoanRecord) :
  forall i found,
    Forall (fun loan => known_state (State loan) = true) l ->
    (List.length (filter is_active l)
     + match found with Some _ => 1 | None => 0 end <= 1)%nat ->
    exists res, ActiveLoan_from l i found = Ok res.
Proof.
  induction l as [|x l IH]; intros i found Hk Hc; [cbn; eauto|].
  inversion Hk as [|? ? Hx Hl]; subst.
  apply IsLoanActive_known in Hx. destruct Hx as [b Hb].
  change (filter is_active (x :: l))
    with (if is_active x then x :: filter is_active l else filter is_active l)
    in Hc.
  unfold is_active at 1 in Hc.
  change (ActiveLoan_from (x :: l) i found)
    with (isActive <- IsLoanActive x ;;
          if isActive then
            match found with
            | Some _ => Err (errors_New "Found multiple active loans")
            | None => ActiveLoan_from l (S i) (Some (i, x))
            end
          else ActiveLoan_from l (S i) found).
  rewrite Hb in Hc |- *. cbn [bind].
  destruct b.
  - destruct found; [cbn in Hc; lia|]. apply IH; [exact Hl | cbn in Hc |- *; lia].
  - apply IH; assumption.
Qed.

Lemma well_formed_scans (h : LoanHistory) :
  Forall well_formed (LoanRecords h) -> (active_count h <= 1)%nat ->
  exists res, ActiveLoanForLoanHistory h = Ok res.
Proof.
  intros Hwf Hc. apply ActiveLoan_from_succeeds.
  - eapply Forall_impl; [|exact Hwf]. now intros loan [Hk _].
  - unfold active_count in Hc. lia.
Qed.

Lemma well_formed_default (h : LoanHistory) (now : Z) :
  Forall well_formed (LoanRecords h) -> (active_count h <= 1)%nat ->
  exists b h', DefaultActiveLoanIfNecessary now h = Ok (b, h').
Proof.
  intros Hwf Hc. destruct (@well_formed_scans _ Hwf Hc) as [res Ha].
  unfold DefaultActiveLoanIfNecessary. rewrite Ha. cbn.
  destruct res as [[i loan]|]; [|eauto].
  destruct (State loan =? "SENT") eqn:Hst; [|eauto].
  apply String.eqb_eq in Hst.
  destruct (@ActiveLoanForLoanHistory_nth _ _ _ Ha) as [Hnth _].
  rewrite Forall_forall in Hwf.
  destruct (Hwf _ (nth_error_In _ _ Hnth)) as (_ & _ & _ & Hsent).
  destruct Hsent as [_ Hdue]; [rewrite Hst; cbn; auto|].
  replace (DueDate loan =? 0)%Z with false by (symmetry; apply Z.eqb_neq; lia).
  destruct (DueDate loan <? now * 1000)%Z; eauto.
Qed.

Lemma reachable_store_answers `{GoRuntime} (ops : list Op) :
  pickup_clocks_nonneg ops ->
  let s := run_ops ops empty_store in
  Forall well_formed (LoanRecords (get_loans s))
  /\ (exists res, ActiveLoanForLoanHistory (get_loans s) = Ok res)
  /\ (forall now, exists h, snd (GetLoans now s) = Ok h)
  /\ (forall now,
        (exists loan, snd (GetActiveLoan now s) = Ok loan)
        \/ snd (GetActiveLoan now s) = Err ErrNoActiveLoan)
  /\ (forall now_check now_stamp,
        (exists loan, snd (Repay now_check now_stamp s) = Ok loan)
        \/ exists e,
             snd (Repay now_check now_stamp s) = Err e /\ In e Repay_errors).
Proof.
  intros Hclocks s.
  assert (Hwf : Forall well_formed (LoanRecords (get_loans s)))
    by (apply run_ops_well_formed; [exact Hclocks | constructor]).
  assert (Hc : (active_count (get_loans s) <= 1)%nat)
    by (apply run_ops_single_active; unfold single_active; cbn; lia).
  split; [exact Hwf|]. split; [exact (@well_formed_scans _ Hwf Hc)|].
  split; [|split].
  - intros now. destruct (@well_formed_default _ now Hwf Hc) as (b & h' & Hd).
    unfold GetLoans, RunInTransaction. rewrite Hd. cbn. eauto.
  - intros now. destruct (@well_formed_default _ now Hwf Hc) as (b & h' & Hd).
    unfold GetActiveLoan, RunInTransaction. rewrite Hd. cbn.
    assert (Hc' : (active_count h' <= 1)%nat)
      by exact (DefaultActiveLoanIfNecessary_count _ _ Hd).
    assert (Hwf' : Forall well_formed (LoanRecords h')).
    { apply (@history_update_well_formed (fun _ => False) (get_loans s));
        [contradiction | | exact Hwf].
      exact (DefaultActiveLoanIfNecessary_update _ _ _ Hd). }
    destruct (@well_formed_scans _ Hwf' Hc') as [[[i loan]|] Ha];
      rewrite Ha; cbn; eauto.
  - intros now_check now_stamp. unfold Repay_errors.
    unfold Repay, RunInTransaction, get_user.
    destruct (user_entity s) as [user|]; cbn; [|right; eexists; split; cbn; eauto].
    destruct (@well_formed_scans _ Hwf Hc) as [[[i loan]|] Ha]; rewrite Ha; cbn;
      [|right; eexists; split; cbn; eauto].
    destruct (State loan =? "SENT") eqn:Hst; cbn;
      [|right; eexists; split; cbn; eauto].
    apply String.eqb_eq in Hst.
    destruct (@well_formed_default _ now_check Hwf Hc) as (b & h' & Hd).
    rewrite Hd. cbn. destruct b; cbn; [right; eexists; split; cbn; eauto 6|].
    destruct (@ActiveLoanForLoanHistory_nth _ _ _ Ha) as [Hnth _].
    rewrite Forall_forall in Hwf.
    destruct (Hwf _ (nth_error_In _ _ Hnth)) as (_ & _ & _ & Hsent).
    destruct Hsent as [Hacc _]; [rewrite Hst; cbn; auto|].
    destruct (AcceptedTerms loan); [|contradiction].
    cbn. eauto.
Qed.

(** X12. No internal failure on stores the handlers produced.  After
    any operations from the empty store, with pickups dated at or after
    the epoch, every stored record has a known state other than
    PENDING, accepted terms taken from its offered terms, and, once
    SENT, REPAID or DEFAULTED, accepted terms and a positive due date.
    On such a store the scan for the active loan succeeds, listing the
    loans always succeeds, reading the active loan fails only with
    [ErrNoActiveLoan], and repaying fails only with one of
    [ErrUserNotRegistered], [ErrNoActiveLoan], [ErrLoanInWrongState],
    [ErrLoanInDefault]: never with a nil dereference. *)
Theorem reachable_handlers_do_not_fail `{GoRuntime} (ops : list Op) :
  pickup_clocks_nonneg ops ->
  let s := run_ops ops empty_store in
  Forall well_formed (LoanRecords (get_loans s))
  /\ (exists res, ActiveLoanForLoanHistory (get_loans s) = Ok res)
  /\ (forall now, exists h, snd (GetLoans now s) = Ok h)
  /\ (forall now,
        (exists loan, snd (GetActiveLoan now s) = Ok loan)
        \/ snd (GetActiveLoan now s) = Err ErrNoActiveLoan)
  /\ (forall now_check now_stamp,
        (exists loan, snd (Repay now_check now_stamp s) = Ok loan)
        \/ exists e,
             snd (Repay now_check now_stamp s) = Err e /\ In e Repay_errors).
Proof. apply reachable_store_answers. Qed.

Lemma reachable_handlers_do_not_fail_witness :
  let H := sample_runtime in
  let s := run_ops sample_session empty_store in
  pickup_clocks_nonneg sample_session
  /\ Forall well_formed (LoanRecords (get_loans s))
  /\ (exists res, ActiveLoanForLoanHistory (get_loans s) = Ok res)
  /\ (forall now, exists h, snd (GetLoans now s) = Ok h)
  /\ (forall now,
        (exists loan, snd (GetActiveLoan now s) = Ok loan)
        \/ snd (GetActiveLoan now s) = Err ErrNoActiveLoan)
  /\ (forall now_check now_stamp,
        (exists loan, snd (Repay now_check now_stamp s) = Ok loan)
        \/ exists e,
             snd (Repay now_check now_stamp s) = Err e /\ In e Repay_errors).
Proof.
  intros H s.
  assert (Hclocks : pickup_clocks_nonneg sample_session).
  { unfold pickup_clocks_nonneg, sample_session.
    repeat constructor; cbn; intros now Hnow; try contradiction; lia. }
  split; [exact Hclocks|].
  exact (@reachable_handlers_do_not_fail H sample_session Hclocks).
Defined.

(** ** Failed requests *)

Lemma RunInTransaction_failed {A : Type} (body : Store -> result (Store * A))
    (s : Store) (e : Error) :
  snd (RunInTransaction body s) = Err e -> fst (RunInTransaction body s) = s.
Proof.
  unfold RunInTransaction. destruct (body s) as [[s' a]|e']; cbn; congruence.
Qed.

(** X13. A failed request is atomic.  When an operation answers with an
    error the datastore is left exactly as it was, with two exceptions
    only: [Repay] answering [ErrLoanInDefault] and [GetActiveLoan]
    answering [ErrNoActiveLoan], which may have committed the default
    of the SENT active loan, and nothing else. *)
Theorem failed_operation_atomic `{GoRuntime} (op : Op) (s : Store) (e : Error) :
  op_error op s = Some e ->
  run_op op s = s
  \/ (((exists now_check now_stamp,
          op = OpRepay now_check now_stamp /\ e = ErrLoanInDefault)
       \/ (exists now, op = OpGetActiveLoan now /\ e = ErrNoActiveLoan))
      /\ exists i loan,
           ActiveLoanForLoanHistory (get_loans s) = Ok (Some (i, loan))
           /\ State loan = "SENT"
           /\ run_op op s
              = put_loans (update_record i (set_State "DEFAULTED") (get_loans s)) s).
Proof.
  destruct op as [user now|user|d UID request t1 t2|now|request now|t1 t2| |now];
    cbn [op_error run_op]; intros He.
  - left. unfold CreateUser in *.
    destruct (_ || _); [reflexivity|].
    unfold RunInTransaction in *.
    destruct (user_entity s); [reflexivity|discriminate].
  - left. unfold PatchUser in *.
    destruct (_ && _); [reflexivity|].
    unfold RunInTransaction, get_user in *.
    destruct (user_entity s); [discriminate|reflexivity].
  - left.
    destruct (LoanRequestFun d UID request t1 t2 s) as [s' r] eqn:Hout.
    destruct (LoanRequestFun_inv _ _ _ _ _ _ Hout)
      as [[-> _]|(? & ? & ? & ? & ? & ? & ? & ? & _ & _ & _ & _ & _ & _ & _ & ->)];
      [reflexivity|discriminate].
  - destruct (GetActiveLoan now s) as [s' r] eqn:Hout.
    destruct (GetActiveLoan_inv _ _ Hout) as [->|(h' & Hd & -> & ->)];
      [left; reflexivity|].
    right. split; [right; exists now; split; [reflexivity|]; cbn in He; congruence|].
    destruct (DefaultActiveLoanIfNecessary_inv _ _ Hd)
      as [[[=] _]|(_ & i & loan & Ha & Hst & _ & _ & ->)].
    exists i, loan. auto.
  - left.
    destruct (SelectLoanOffer request now s) as [s' r] eqn:Hout.
    destruct (SelectLoanOffer_inv _ _ _ Hout)
      as [[-> _]|(? & ? & ? & ? & _ & _ & _ & _ & -> & _)];
      [reflexivity|discriminate].
  - destruct (Repay t1 t2 s) as [s' r] eqn:Hout.
    destruct (Repay_inv _ _ _ Hout)
      as [[-> _]|[(? & ? & ? & ? & _ & _ & _ & _ & _ & _ & ->)
                 |(user & i & loan & h' & _ & Ha & Hst & Hd & -> & ->)]];
      [left; reflexivity|discriminate|].
    right. split; [left; exists t1, t2; split; [reflexivity|]; cbn in He; congruence|].
    destruct (DefaultActiveLoanIfNecessary_inv _ _ Hd)
      as [[[=] _]|(_ & i' & loan' & Ha' & Hst' & _ & _ & ->)].
    exists i', loan'. auto.
  - left.
    destruct (DeleteActiveLoan s) as [s' r] eqn:Hout.
    destruct (@DeleteActiveLoan_inv _ _ _ Hout) as [[-> _]|(? & ? & _ & _ & _ & ->)];
      [reflexivity|discriminate].
  - left. unfold GetLoans in *.
    destruct (RunInTransaction _ s) as [s' r] eqn:Hout. cbn in *.
    destruct r as [h|e']; [discriminate|].
    change s' with (fst (s', @Err LoanHistory e')). rewrite <- Hout.
    apply RunInTransaction_failed with (e := e'). rewrite Hout. reflexivity.
Qed.

Lemma failed_operation_atomic_witness :
  let H := sample_runtime in
  let op := OpRepay 300 301 in
  op_error op overdue_store = Some ErrLoanInDefault
  /\ (run_op op overdue_store = overdue_store
      \/ (((exists now_check now_stamp,
              op = OpRepay now_check now_stamp
              /\ ErrLoanInDefault = ErrLoanInDefault)
           \/ (exists now,
                 op = OpGetActiveLoan now /\ ErrLoanInDefault = ErrNoActiveLoan))
          /\ exists i loan,
               ActiveLoanForLoanHistory (get_loans overdue_store)
               = Ok (Some (i, loan))
               /\ State loan = "SENT"
               /\ run_op op overdue_store
                  = put_loans
                      (update_record i (set_State "DEFAULTED")
                         (get_loans overdue_store)) overdue_store)).
Proof.
  intros H op.
  assert (He : op_error op overdue_store = Some ErrLoanInDefault)
    by reflexivity.
  split; [exact He|].
  exact (@failed_operation_atomic H op overdue_store ErrLoanInDefault He).
Defined.

(** ** The repayment window *)

Lemma due_date_window (now : Z) :
  (0 <= now)%Z ->
  ((now + 29 * DAY) * 1000 < due_date now <= (now + 30 * DAY) * 1000)%Z.
Proof.
  intros Hnow. unfold due_date, DAY.
  rewrite Z.quot_div_nonneg by lia.
  pose proof (Z.div_mod (now + 30 * 86400) 86400 ltac:(lia)) as Hdiv.
  pose proof (Z.mod_pos_bound (now + 30 * 86400) 86400 ltac:(lia)) as Hmod.
  lia.
Qed.

Lemma IsLoanActive_SENT (loan : LoanRecord) :
  State loan = "SENT" -> IsLoanActive loan = Ok true.
Proof. unfold IsLoanActive. now intros ->. Qed.

Lemma SelectLoanOffer_picked (request : LoanSelectRequest) (now : Z)
    (s s' : Store) (picked : LoanRecord) :
  SelectLoanOffer request now s = (s', Ok picked) ->
  State picked = "SENT" ->
  exists user i loan loan' accepted,
    user_entity s = Some user
    /\ ActiveLoanForLoanHistory (get_loans s) = Ok (Some (i, loan))
    /\ State loan = "APPROVED"
    /\ picked = set_Request None loan'
    /\ State loan' = "SENT"
    /\ DueDate loan' = due_date now
    /\ AcceptedTerms loan' = Some accepted
    /\ QinRequired accepted <= QinBalance user
    /\ user_entity s'
       = Some (set_QinBalance (QinBalance user - QinRequired accepted) user)
    /\ get_loans s' = update_record i (fun _ => loan') (get_loans s)
    /\ ActiveLoanForLoanHistory (get_loans s') = Ok (Some (i, loan')).
Proof.
  intros Hout Hst.
  destruct (SelectLoanOffer_inv _ _ _ Hout)
    as [[_ [e [=]]]|(user & i & loan & loan' & Hu & Ha & Hstep & Hh & [= ->] & Hcase)].
  cbn in Hst.
  destruct Hcase as [[Happ _]|(_ & accepted & Hacc & Hle & Hu')];
    [congruence|].
  exists user, i, loan, loan', accepted.
  assert (Hfields : State loan = "APPROVED" /\ DueDate loan' = due_date now).
  { destruct Hstep; cbn in *; try discriminate; subst; auto.
    rewrite Hst in *. discriminate. }
  destruct Hfields as [Happ Hdue].
  repeat (split; [assumption || reflexivity|]).
  rewrite Hh.
  apply (@ActiveLoan_kept _ _ _ (fun _ => loan') Ha).
  apply IsLoanActive_SENT, Hst.
Qed.

(** X14. The repayment window.  A loan picked up at a time [now] at or
    after the epoch is due at a midnight more than 29 days and at most
    30 days after [now].  A repayment whose default check runs no later
    than 29 days after the pickup succeeds and leaves the loan REPAID;
    one whose check runs more than 30 days after the pickup is answered
    with [ErrLoanInDefault]. *)
Theorem repayment_window (request : LoanSelectRequest) (now : Z)
    (s s' : Store) (picked : LoanRecord) :
  SelectLoanOffer request now s = (s', Ok picked) ->
  State picked = "SENT" ->
  (0 <= now)%Z ->
  ((now + 29 * DAY) * 1000 < DueDate picked <= (now + 30 * DAY) * 1000)%Z
  /\ (forall now_check now_stamp,
        (now_check <= now + 29 * DAY)%Z ->
        exists repaid,
          snd (Repay now_check now_stamp s') = Ok repaid
          /\ State repaid = "REPAID")
  /\ (forall now_check now_stamp,
        (now + 30 * DAY < now_check)%Z ->
        snd (Repay now_check now_stamp s') = Err ErrLoanInDefault).
Proof.
  intros Hout Hst Hnow.
  destruct (SelectLoanOffer_picked _ _ _ Hout Hst)
    as (user & i & loan & loan' & accepted & _ & _ & _ & -> & Hst' & Hdue & Hacc
        & _ & Hu' & _ & Ha').
  pose proof (due_date_window Hnow) as Hwin.
  cbn [DueDate set_Request]. rewrite Hdue.
  split; [exact Hwin|].
  assert (Hrepay : forall now_check now_stamp,
             snd (Repay now_check now_stamp s')
             = if (due_date now <? now_check * 1000)%Z
               then Err ErrLoanInDefault
               else Ok (set_Request None
                          (set_State "REPAID"
                             (set_RepaidDate (now_stamp * 1000)%Z
                                (set_Repayments
                                   (Repayments loan'
                                    ++ [{| Repayment_Amount := AmountOwed accepted;
                                           Timestamp := (now_stamp * 1000)%Z |}])%list
                                   loan'))))).
  { intros now_check now_stamp.
    unfold Repay, RunInTransaction, get_user, DefaultActiveLoanIfNecessary.
    rewrite Hu', Ha'. cbn. rewrite Hst', Hdue. cbn.
    replace (due_date now =? 0)%Z with false by (symmetry; apply Z.eqb_neq; lia).
    destruct (due_date now <? now_check * 1000)%Z; cbn; [reflexivity|].
    rewrite Hacc. reflexivity. }
  split; intros now_check now_stamp Ht; rewrite Hrepay.
  - replace (due_date now <? now_check * 1000)%Z with false
      by (symmetry; apply Z.ltb_ge; lia).
    eexists. split; reflexivity.
  - replace (due_date now <? now_check * 1000)%Z with true
      by (symmetry; apply Z.ltb_lt; lia).
    reflexivity.
Qed.

Lemma repayment_window_witness :
  let s' := fst (SelectLoanOffer select_both 1000 approved_store) in
  (0 <= 1000)%Z
  /\ forall now_check now_stamp,
       (now_check <= 1000 + 29 * DAY)%Z ->
       exists repaid,
         snd (Repay now_check now_stamp s') = Ok repaid
         /\ State repaid = "REPAID".
Proof.
  intros s'. split; [lia|].
  refine (proj1 (proj2
    (@repayment_window select_both 1000 approved_store s'
       (set_Request None picked_record) _ _ _)));
    [reflexivity | reflexivity | lia].
Defined.

(** ** The profile *)

(** X15. Reading back the profile.  What a successful [CreateUser] or
    [PatchUser] answers is exactly what [GetUser] answers on the store
    it leaves, and neither touches the loan history. *)
Theorem profile_read_back (s s' : Store) (u : User) :
  profile_write s (s', Ok u) ->
  GetUser s' = (s', Ok u) /\ get_loans s' = get_loans s.
Proof.
  intros [(user & now & Hout)|(user & Hout)].
  - unfold CreateUser in Hout.
    destruct (_ || _); [discriminate|].
    unfold RunInTransaction in Hout.
    destruct (user_entity s); [discriminate|].
    cbn in Hout. injection Hout as -> ->.
    split; reflexivity.
  - unfold PatchUser in Hout.
    destruct (_ && _); [discriminate|].
    unfold RunInTransaction, get_user in Hout.
    destruct (user_entity s); [|discriminate].
    cbn in Hout. injection Hout as -> ->.
    split; reflexivity.
Qed.

Lemma profile_read_back_witness :
  let out := CreateUser (sample_user 5) 1000 empty_store in
  GetUser (fst out) = out /\ get_loans (fst out) = get_loans empty_store.
Proof.
  intros out.
  apply (@profile_read_back empty_store (fst out)
           (match snd out with Ok u => u | Err _ => sample_user 0 end)).
  left. exists (sample_user 5), 1000%Z. reflexivity.
Defined.

(** X16. [PatchUser] is idempotent and keeps the ledger.  A successful
    patch leaves the qin balance and the loan history as they were;
    sending the same patch again changes nothing and gives the same
    answer. *)
Theorem PatchUser_idempotent (user : User) (s s' : Store) (u : User) :
  PatchUser user s = (s', Ok u) ->
  PatchUser user s' = (s', Ok u)
  /\ stored_balance s' = stored_balance s
  /\ get_loans s' = get_loans s.
Proof.
  unfold PatchUser.
  destruct (_ && _); [discriminate|].
  unfold RunInTransaction, get_user.
  destruct (user_entity s) as [existing|] eqn:Hu; [|discriminate].
  cbn. intros [= <- <-]. cbn.
  unfold stored_balance. rewrite Hu. cbn.
  repeat split.
  destruct (User_EmploymentInfo user), (User_ResidenceInfo user); reflexivity.
Qed.

Lemma PatchUser_idempotent_witness :
  let patch := sample_user 0 in
  let out := PatchUser patch approved_store in
  PatchUser patch (fst out) = out
  /\ stored_balance (fst out) = stored_balance approved_store
  /\ get_loans (fst out) = get_loans approved_store.
Proof.
  intros patch out.
  apply (@PatchUser_idempotent patch approved_store (fst out)
           (with_empty_infos (sample_user 10))).
  reflexivity.
Defined.

(** ** The profile and the qin ledger across operations *)

Lemma same_identity_refl (u : User) : same_identity u u.
Proof. unfold same_identity. auto. Qed.

Lemma same_identity_trans (u v w : User) :
  same_identity u v -> same_identity v w -> same_identity u w.
Proof. unfold same_identity. intuition congruence. Qed.

Lemma run_op_user `{GoRuntime} (op : Op) (s : Store) :
  user_step op s (user_entity (run_op op s)).
Proof.
  destruct op as [user now|user|d UID request t1 t2|now|request now|t1 t2| |now];
    cbn [run_op].
  - unfold CreateUser.
    destruct (_ || _); [constructor|].
    unfold RunInTransaction.
    destruct (user_entity s) eqn:Hu; cbn; [try rewrite <- Hu; constructor|].
    eapply user_created; eauto.
  - unfold PatchUser.
    destruct (_ && _); [constructor|].
    unfold RunInTransaction, get_user.
    destruct (user_entity s) as [u|] eqn:Hu; cbn; [|try rewrite <- Hu; constructor].
    eapply user_patched; eauto. unfold same_identity. cbn. auto.
  - destruct (LoanRequestFun d UID request t1 t2 s) as [s' r] eqn:Hout.
    destruct (LoanRequestFun_inv _ _ _ _ _ _ Hout)
      as [[-> _]|(? & ? & ? & ? & ? & ? & ? & ? & _ & _ & _ & _ & _ & _ & -> & _)];
      cbn; constructor.
  - destruct (GetActiveLoan now s) as [s' r] eqn:Hout.
    destruct (GetActiveLoan_inv _ _ Hout) as [->|(h' & _ & -> & _)];
      cbn; constructor.
  - destruct (SelectLoanOffer request now s) as [s' r] eqn:Hout.
    destruct (SelectLoanOffer_inv _ _ _ Hout)
      as [[-> _]|(u & i & loan & loan' & Hu & Ha & Hstep & _ & _ & Hcase)];
      cbn [fst]; [constructor|].
    destruct Hcase as [[_ ->]|(Hst & accepted & Hacc & Hle & ->)];
      [rewrite <- Hu; constructor|].
    eapply user_debited; eauto.
    + destruct Hstep; cbn in *; try discriminate; auto.
    + destruct Hstep; cbn in *; try discriminate.
      * rewrite Hst in *. discriminate.
      * left. congruence.
      * right. split; congruence.
  - destruct (Repay t1 t2 s) as [s' r] eqn:Hout.
    destruct (Repay_inv _ _ _ Hout)
      as [[-> _]|[(u & i & loan & accepted & Hu & Ha & Hst & Hacc & _ & -> & _)
                 |(u & i & loan & h' & _ & _ & _ & _ & -> & _)]];
      cbn; try constructor.
    eapply user_credited; eauto.
  - destruct (DeleteActiveLoan s) as [s' r] eqn:Hout.
    destruct (@DeleteActiveLoan_inv _ _ _ Hout) as [[-> _]|(? & ? & _ & _ & -> & _)];
      cbn; constructor.
  - destruct (GetLoans now s) as [s' r] eqn:Hout.
    destruct (GetLoans_inv _ _ Hout) as [->|(h' & _ & ->)]; cbn; constructor.
Qed.

(** X17. Registration is permanent.  Once a profile is stored, no
    sequence of operations removes it or changes the first name, last
    name, phone number, date of birth or creation date in it. *)
Theorem registration_permanent `{GoRuntime} (ops : list Op) (s : Store) (u : User) :
  user_entity s = Some u ->
  exists u', user_entity (run_ops ops s) = Some u' /\ same_identity u u'.
Proof.
  revert s u. induction ops as [|op ops IH]; intros s u Hu; cbn.
  - exists u. split; [exact Hu | apply same_identity_refl].
  - assert (Hstep : exists v, user_entity (run_op op s) = Some v
                              /\ same_identity u v).
    { pose proof (run_op_user op s) as Hs.
      inversion Hs as [Heq|? ? ? _ Hnone|? u0 v _ Hu0 Hid _ Heq
                      |? ? u0 ? ? ? _ Hu0 _ _ _ _ Heq
                      |? ? u0 ? ? ? _ Hu0 _ _ _ Heq].
      - exists u. split; [congruence | apply same_identity_refl].
      - congruence.
      - exists v. split; [reflexivity|]. congruence.
      - exists (set_QinBalance (QinBalance u0 - QinRequired accepted) u0).
        split; [reflexivity|].
        assert (u0 = u) by congruence. subst u0.
        unfold same_identity. cbn. auto.
      - exists (set_QinBalance
                  (QinBalance u0 + (QinRequired accepted + QinReward accepted)) u0).
        split; [reflexivity|].
        assert (u0 = u) by congruence. subst u0.
        unfold same_identity. cbn. auto. }
    destruct Hstep as (v & Hv & Huv).
    destruct (IH _ _ Hv) as (w & Hw & Hvw).
    exists w. split; [exact Hw|]. exact (same_identity_trans Huv Hvw).
Qed.

Lemma registration_permanent_witness :
  let H := sample_runtime in
  exists u',
    user_entity (run_ops [OpPatchUser (sample_user 0); OpRepay 100 101]
                   overdue_store) = Some u'
    /\ same_identity (sample_user 10) u'.
Proof.
  intros H.
  apply (@registration_permanent H [OpPatchUser (sample_user 0); OpRepay 100 101]
           overdue_store (sample_user 10)).
  reflexivity.
Defined.

(** X18. The qin ledger.  One operation on a registered borrower leaves
    the stored balance as it was, with two exceptions only: a pickup by
    [SelectLoanOffer] on the APPROVED active loan subtracts the
    collateral of the accepted terms, which the balance covers; a
    repayment of the SENT active loan adds the collateral and the
    reward of its accepted terms.  Without a profile the balance
    appears only through [CreateUser], as zero. *)
Theorem balance_ledger `{GoRuntime} (op : Op) (s : Store) :
  match stored_balance s with
  | None =>
      stored_balance (run_op op s) = None
      \/ (exists user now, op = OpCreateUser user now)
         /\ stored_balance (run_op op s) = Some 0
  | Some b =>
      stored_balance (run_op op s) = Some b
      \/ (exists request now i loan accepted,
            op = OpSelectLoanOffer request now
            /\ ActiveLoanForLoanHistory (get_loans s) = Ok (Some (i, loan))
            /\ State loan = "APPROVED"
            /\ (AcceptedTerms loan = Some accepted
                \/ (AcceptedTerms loan = None /\ In accepted (Terms loan)))
            /\ QinRequired accepted <= b
            /\ stored_balance (run_op op s) = Some (b - QinRequired accepted))
      \/ (exists now_check now_stamp i loan accepted,
            op = OpRepay now_check now_stamp
            /\ ActiveLoanForLoanHistory (get_loans s) = Ok (Some (i, loan))
            /\ State loan = "SENT"
            /\ AcceptedTerms loan = Some accepted
            /\ stored_balance (run_op op s)
               = Some (b + (QinRequired accepted + QinReward accepted)))
  end.
Proof.
  pose proof (run_op_user op s) as Hs.
  unfold stored_balance.
  inversion Hs as [Heq|user now u' Hop Hnone Hb _ Heq
                  |patch u0 v _ Hu0 _ Hb Heq
                  |request now u0 i loan accepted Hop Hu0 Ha Hst Hacc Hle Heq
                  |t1 t2 u0 i loan accepted Hop Hu0 Ha Hst Hacc Heq].
  - destruct (user_entity s); auto.
  - rewrite Hnone. right. split; [eauto|]. now rewrite Hb.
  - rewrite Hu0. left. now rewrite Hb.
  - rewrite Hu0. right. left. exists request, now, i, loan, accepted. cbn. auto 10.
  - rewrite Hu0. right. right. exists t1, t2, i, loan, accepted. cbn. auto 10.
Qed.

(** X19. Collateral is returned on repayment and forfeited otherwise.
    A pickup debits the collateral of the accepted terms and leaves a
    non-negative balance.  If the repayment that follows succeeds, the
    balance ends at the balance before the pickup plus the reward of
    the accepted terms; if it fails, in particular with
    [ErrLoanInDefault], the balance stays at the debited amount. *)
Theorem collateral_returned (request : LoanSelectRequest) (now : Z)
    (s s1 : Store) (picked : LoanRecord) (now_check now_stamp : Z) :
  SelectLoanOffer request now s = (s1, Ok picked) ->
  State picked = "SENT" ->
  let out := Repay now_check now_stamp s1 in
  exists b accepted b2,
    stored_balance s = Some b
    /\ AcceptedTerms picked = Some accepted
    /\ 0 <= b - QinRequired accepted
    /\ stored_balance s1 = Some (b - QinRequired accepted)
    /\ stored_balance (fst out) = Some b2
    /\ match snd out with
       | Ok _ => b2 == b + QinReward accepted
       | Err _ => b2 = b - QinRequired accepted
       end.
Proof.
  intros Hout Hst out.
  destruct (SelectLoanOffer_picked _ _ _ Hout Hst)
    as (user & i & loan & loan' & accepted & Hu & _ & _ & -> & Hst' & _ & Hacc
        & Hle & Hu1 & _ & Ha1).
  exists (QinBalance user), accepted.
  assert (Hb1 : stored_balance s1
                = Some (QinBalance user - QinRequired accepted))
    by (unfold stored_balance; now rewrite Hu1).
  assert (Hpos : 0 <= QinBalance user - QinRequired accepted) by lra.
  assert (Hb : stored_balance s = Some (QinBalance user))
    by (unfold stored_balance; now rewrite Hu).
  subst out.
  destruct (Repay now_check now_stamp s1) as [s2 r] eqn:Hrep.
  destruct (Repay_inv _ _ _ Hrep)
    as [[-> [e ->]]
       |[(u1 & i2 & loan2 & accepted2 & Hu2 & Ha2 & _ & Hacc2 & _ & -> & ->)
        |(u1 & i2 & loan2 & h' & _ & _ & _ & _ & -> & ->)]]; cbn.
  - exists (QinBalance user - QinRequired accepted). auto 10.
  - rewrite Ha1 in Ha2. injection Ha2 as <- <-.
    rewrite Hacc in Hacc2. injection Hacc2 as <-.
    rewrite Hu1 in Hu2. injection Hu2 as <-.
    eexists. repeat (split; [eassumption || reflexivity|]).
    cbn. ring.
  - exists (QinBalance user - QinRequired accepted).
    repeat (split; [assumption|]).
    reflexivity.
Qed.

Lemma collateral_returned_witness :
  let s1 := fst (SelectLoanOffer select_both 1000 approved_store) in
  let out := Repay 2000 2000 s1 in
  exists b accepted b2,
    stored_balance approved_store = Some b
    /\ AcceptedTerms picked_record = Some accepted
    /\ 0 <= b - QinRequired accepted
    /\ stored_balance s1 = Some (b - QinRequired accepted)
    /\ stored_balance (fst out) = Some b2
    /\ match snd out with
       | Ok _ => b2 == b + QinReward accepted
       | Err _ => b2 = b - QinRequired accepted
       end.
Proof.
  intros s1.
  apply (@collateral_returned select_both 1000 approved_store s1
           (set_Request None picked_record) 2000 2000);
    reflexivity.
Defined.

(** ** A created loan *)

Lemma LoanRequestFun_created `{GoRuntime} d UID request now_created now_check
    s s' loanRecord :
  LoanRequestFun d UID request now_created now_check s = (s', Ok loanRecord) ->
  LoanRequest_User request = None
  /\ Qeq_bool (LoanAmount request) 0 = false
  /\ exists user employment residence h1 stored,
       (user_entity s = Some user
        /\ exists b,
             DefaultActiveLoanIfNecessary now_check (get_loans s) = Ok (b, h1))
       /\ user_entity s' = Some user
       /\ User_EmploymentInfo user = Some employment
       /\ User_ResidenceInfo user = Some residence
       /\ Forall inactive (LoanRecords h1)
       /\ List.length (LoanRecords h1) = List.length (LoanRecords (get_loans s))
       /\ get_loans s' = {| LoanRecords := LoanRecords h1 ++ [stored] |}
       /\ State stored = "APPROVED"
       /\ LoanId stored = (UID ++ "-" ++ Itoa (List.length (LoanRecords h1)))%string
       /\ loanRecord = set_Request None stored.
Proof.
  unfold LoanRequestFun.
  destruct (LoanRequest_User request) as [?|] eqn:Hru; [discriminate|].
  destruct (Qeq_bool (LoanAmount request) 0) eqn:Hamt; [discriminate|].
  cbn [is_nil negb orb].
  unfold RunInTransaction, get_user.
  destruct (user_entity s) as [user|] eqn:Hu; [|discriminate].
  cbn [bind].
  destruct (User_EmploymentInfo user) as [employment|] eqn:He; [|discriminate].
  destruct (User_ResidenceInfo user) as [residence|] eqn:Hr; [|discriminate].
  destruct (DefaultActiveLoanIfNecessary now_check (get_loans s))
    as [[b h1]|] eqn:Hd; [|discriminate].
  cbn [bind].
  destruct (borrowerInfo_from _ _) as [info|] eqn:Hinfo; [|discriminate].
  cbn [bind].
  destruct (processBorrowerRequest _ _ _) as [[era_terms n]|]; [|discriminate].
  destruct (assign_terms _ _ _ _) as [terms|]; [|discriminate].
  cbn. intros [= <- <-].
  split; [reflexivity|]. split; [reflexivity|].
  exists user, employment, residence, h1.
  eexists. cbn.
  split; [split; [reflexivity | exists b; reflexivity]|].
  repeat (split; [eassumption || reflexivity|]).
  split; [exact (borrowerInfo_from_inv _ _ Hinfo)|].
  split.
  - destruct (DefaultActiveLoanIfNecessary_inv _ _ Hd)
      as [(_ & -> & _)|(_ & i & loan & _ & _ & _ & _ & ->)];
      [reflexivity|]. cbn. apply length_update_nth.
  - repeat split; reflexivity.
Qed.

Lemma ActiveLoan_appended (pre : list LoanRecord) (loan : LoanRecord) :
  Forall inactive pre -> IsLoanActive loan = Ok true ->
  ActiveLoanForLoanHistory {| LoanRecords := pre ++ [loan] |}
  = Ok (Some (List.length pre, loan)).
Proof.
  intros Hpre Hloan.
  apply ActiveLoanForLoanHistory_Some.
  exists pre, []. repeat split; auto.
Qed.

(** X20. A created loan is the active loan.  The record answered by a
    successful [LoanRequestFun] is APPROVED and carries the id
    [UID-<number of earlier records>]; it is appended to the history;
    [GetActiveLoan] answers it at any later time without changing the
    store; and the same request sent again is answered with
    [ErrLoanAlreadyExists], whatever the assessors. *)
Theorem created_loan_is_active `{GoRuntime} d UID request now_created
    now_check s s' loanRecord :
  LoanRequestFun d UID request now_created now_check s = (s', Ok loanRecord) ->
  State loanRecord = "APPROVED"
  /\ LoanId loanRecord
     = (UID ++ "-" ++ Itoa (List.length (LoanRecords (get_loans s))))%string
  /\ List.length (LoanRecords (get_loans s'))
     = S (List.length (LoanRecords (get_loans s)))
  /\ (forall now, GetActiveLoan now s' = (s', Ok loanRecord))
  /\ (forall d' UID' now_created' now_check',
        LoanRequestFun d' UID' request now_created' now_check' s'
        = (s', Err ErrLoanAlreadyExists)).
Proof.
  intros Hout.
  destruct (LoanRequestFun_created _ _ _ _ _ _ Hout)
    as (Hru & Hamt & user & employment & residence & h1 & stored & _ & Hu & He
        & Hr & Hin & Hlen & Hh & Hst & Hid & ->).
  assert (Hactive : IsLoanActive stored = Ok true)
    by (unfold IsLoanActive; now rewrite Hst).
  assert (Ha : ActiveLoanForLoanHistory (get_loans s')
               = Ok (Some (List.length (LoanRecords h1), stored)))
    by (rewrite Hh; now apply ActiveLoan_appended).
  assert (Hd : forall now,
             DefaultActiveLoanIfNecessary now (get_loans s')
             = Ok (false, get_loans s')).
  { intros now. unfold DefaultActiveLoanIfNecessary. rewrite Ha. cbn.
    now rewrite Hst. }
  split; [exact Hst|].
  split.
  { change (LoanId (set_Request None stored)) with (LoanId stored).
    now rewrite Hid, Hlen. }
  split; [rewrite Hh; cbn; rewrite length_app; cbn; lia|].
  split.
  - intros now. unfold GetActiveLoan, RunInTransaction.
    rewrite Hd. cbn. rewrite Ha. reflexivity.
  - intros d' UID' t1 t2.
    eapply LoanRequestFun_already_exists; eauto.
Qed.

Lemma created_loan_is_active_witness :
  let H := sample_runtime in
  exists s' loanRecord,
    LoanRequestFun (constructERADriver (1 # 4)) "uid" sample_request 299 300
      defaulted_store = (s', Ok loanRecord)
    /\ forall now, GetActiveLoan now s' = (s', Ok loanRecord).
Proof.
  intros H.
  destruct (LoanRequestFun (constructERADriver (1 # 4)) "uid" sample_request
              299 300 defaulted_store) as [s' [loanRecord|e]] eqn:Hout.
  - exists s', loanRecord. split; [reflexivity|].
    exact (proj1 (proj2 (proj2 (proj2
             (@created_loan_is_active H _ _ _ _ _ _ _ _ Hout))))).
  - vm_compute in Hout. discriminate Hout.
Defined.

(** ** The statistics handed to the assessors *)

Lemma count_state_cons (state : string) (loan : LoanRecord)
    (records : list LoanRecord) :
  count_state state (loan :: records)
  = ((if (State loan =? state)%string then 1 else 0)
     + count_state state records)%nat.
Proof.
  unfold count_state. cbn. destruct (State loan =? state); reflexivity.
Qed.

Lemma borrowerInfo_from_counts (records : list LoanRecord) :
  forall a b q,
    (a < 2 ^ 64)%N -> (b < 2 ^ 64)%N ->
    Forall inactive records ->
    borrowerInfo_from records
      {| no_loans := a; successful_loans := b; earned_qin := q |}
    = Ok {| no_loans :=
              ((a + N.of_nat (count_state "REPAID" records
                              + count_state "DEFAULTED" records)) mod 2 ^ 64)%N;
            successful_loans :=
              ((b + N.of_nat (count_state "REPAID" records)) mod 2 ^ 64)%N;
            earned_qin := q |}.
Proof.
  induction records as [|loan records IH]; intros a b q Ha Hb Hin.
  - cbn. rewrite !N.add_0_r, !N.mod_small by assumption. reflexivity.
  - inversion Hin as [|? ? Hloan Hrest]; subst.
    cbn [borrowerInfo_from]. unfold inactive in Hloan. rewrite Hloan.
    cbn [bind].
    assert (Hsucc : forall n, (uint64_succ n < 2 ^ 64)%N)
      by (intros n; unfold uint64_succ; apply N.mod_upper_bound; discriminate).
    rewrite !count_state_cons.
    destruct (State loan =? "REPAID") eqn:Hrep.
    + assert (Hdef : (State loan =? "DEFAULTED") = false).
      { apply String.eqb_eq in Hrep. now rewrite Hrep. }
      rewrite Hdef. cbn [no_loans successful_loans earned_qin].
      rewrite IH by auto. unfold uint64_succ.
      rewrite !N.Div0.add_mod_idemp_l. f_equal; f_equal; f_equal; lia.
    + destruct (State loan =? "DEFAULTED") eqn:Hdef.
      * cbn [no_loans successful_loans earned_qin].
        rewrite IH by auto. unfold uint64_succ.
        rewrite !N.Div0.add_mod_idemp_l. f_equal; f_equal; f_equal; lia.
      * rewrite IH by auto. f_equal; f_equal; f_equal; lia.
Qed.

(** X21. The statistics handed to the assessors.  On a history without
    an active loan the pass of [LoanRequestFun] over the records counts
    the REPAID and DEFAULTED loans as the number of loans and the
    REPAID ones as the successful loans, both modulo 2^64, and leaves
    the earned qin at the balance it started from; records in any other
    state are not counted. *)
Theorem borrower_statistics (records : list LoanRecord) (balance : Q) :
  Forall inactive records ->
  borrowerInfo_from records
    {| no_loans := 0; successful_loans := 0; earned_qin := balance |}
  = Ok {| no_loans :=
            (N.of_nat (count_state "REPAID" records
                       + count_state "DEFAULTED" records) mod 2 ^ 64)%N;
          successful_loans :=
            (N.of_nat (count_state "REPAID" records) mod 2 ^ 64)%N;
          earned_qin := balance |}.
Proof.
  intros Hin.
  rewrite borrowerInfo_from_counts by (auto; reflexivity).
  reflexivity.
Qed.

Lemma borrower_statistics_witness :
  borrowerInfo_from
    [sample_record "REPAID" 1 (Some sample_accepted);
     sample_record "CANCELED" 0 None;
     sample_record "DEFAULTED" 1 (Some sample_accepted);
     sample_record "REPAID" 1 (Some sample_accepted)]
    {| no_loans := 0; successful_loans := 0; earned_qin := 7 |}
  = Ok {| no_loans := 3; successful_loans := 2; earned_qin := 7 |}.
Proof.
  apply (@borrower_statistics
           [sample_record "REPAID" 1 (Some sample_accepted);
            sample_record "CANCELED" 0 None;
            sample_record "DEFAULTED" 1 (Some sample_accepted);
            sample_record "REPAID" 1 (Some sample_accepted)] 7).
  repeat constructor.
Defined.

(** ** Selecting the terms and the pickup in two requests *)

Lemma update_nth_twice {A : Type} (x y : A) (l : list A) :
  forall i,
    update_nth i (fun _ => y) (update_nth i (fun _ => x) l)
    = update_nth i (fun _ => y) l.
Proof.
  induction l as [|a l IH]; intros [|i]; cbn; try reflexivity.
  now rewrite IH.
Qed.

Lemma IsLoanActive_APPROVED (loan : LoanRecord) :
  State loan = "APPROVED" -> IsLoanActive loan = Ok true.
Proof. unfold IsLoanActive. now intros ->. Qed.

(** X22. Terms and pickup in two requests or in one.  After a request
    that selected the terms alone has succeeded, the request that names
    the pickup location alone leaves the same store and gives the same
    answer as a single request naming both would have on the store
    before. *)
Theorem select_in_two_steps (term : string) (location : PickupLocation)
    (now1 now : Z) (s s1 : Store) (chosen : LoanRecord) :
  LocationName location <> "" ->
  SelectLoanOffer
    {| SelectedTerm := term;
       LoanSelectRequest_Location := {| LocationName := "" |} |} now1 s
  = (s1, Ok chosen) ->
  SelectLoanOffer
    {| SelectedTerm := ""; LoanSelectRequest_Location := location |} now s1
  = SelectLoanOffer
      {| SelectedTerm := term; LoanSelectRequest_Location := location |} now s.
Proof.
  intros Hloc Hfirst.
  apply String.eqb_neq in Hloc.
  unfold SelectLoanOffer in *.
  cbn [SelectedTerm LoanSelectRequest_Location LocationName] in *.
  unfold string_nonempty in *. rewrite Hloc.
  destruct (term =? "") eqn:Ht; [discriminate|].
  cbn [String.eqb andb negb] in *.
  unfold RunInTransaction, get_user in *.
  destruct (user_entity s) as [user|] eqn:Hu; [|discriminate].
  cbn [bind] in *.
  destruct (ActiveLoanForLoanHistory (get_loans s)) as [[[i loan]|]|] eqn:Ha;
    try discriminate.
  cbn [bind] in *.
  destruct (State loan =? "APPROVED") eqn:Hst; [|discriminate].
  cbn [negb] in *.
  destruct (AcceptedTerms loan) as [?|] eqn:Hacc; [discriminate|].
  destruct (LoanTermsForId term loan) as [terms|] eqn:Hterm; [|discriminate].
  destruct (Qltb (QinBalance user) (QinRequired terms)) eqn:Hq; [discriminate|].
  cbn in Hfirst. injection Hfirst as <- <-.
  cbn [user_entity put_loans get_loans loans_entity]. rewrite Hu.
  cbn [bind].
  apply String.eqb_eq in Hst.
  rewrite (@ActiveLoan_kept _ _ _ (fun _ => set_AcceptedTerms (Some terms) loan) Ha)
    by (apply IsLoanActive_APPROVED; exact Hst).
  cbn. rewrite Hst, Hq. cbn.
  unfold update_record. cbn. rewrite update_nth_twice. reflexivity.
Qed.

Lemma select_in_two_steps_witness :
  let s1 :=
    fst (SelectLoanOffer
           {| SelectedTerm := "uid-0-0";
              LoanSelectRequest_Location := {| LocationName := "" |} |}
           500 approved_store) in
  SelectLoanOffer
    {| SelectedTerm := "";
       LoanSelectRequest_Location := {| LocationName := "Makati" |} |} 1000 s1
  = SelectLoanOffer select_both 1000 approved_store.
Proof.
  intros s1.
  apply (@select_in_two_steps "uid-0-0" {| LocationName := "Makati" |} 500 1000
           approved_store s1
           (set_Request None
              (set_AcceptedTerms (Some sample_accepted)
                 (sample_record "APPROVED" 0 None)))).
  - discriminate.
  - reflexivity.
Defined.

(** ** Loan ids and term ids *)

Lemma Itoa_inj (n m : nat) : Itoa n = Itoa m -> n = m.
Proof.
  unfold Itoa. intros Heq.
  apply DecimalNat.Unsigned.to_uint_inj.
  assert (Hs : Some (Nat.to_uint n) = Some (Nat.to_uint m))
    by (rewrite <- !NilEmpty.usu; now rewrite Heq).
  now injection Hs.
Qed.

Lemma append_inj_l (p a b : string) : (p ++ a = p ++ b)%string -> a = b.
Proof.
  induction p as [|c p IH]; cbn; [auto|]. intros [= Heq]. auto.
Qed.

Lemma numbered_inj (p : string) (n m : nat) :
  (p ++ "-" ++ Itoa n = p ++ "-" ++ Itoa m)%string -> n = m.
Proof.
  intros Heq. apply append_inj_l in Heq. cbn in Heq.
  injection Heq as Heq. now apply Itoa_inj.
Qed.

Lemma present_all_numbered `{GoRuntime} loanId amount era_terms :
  forall idx j t,
    nth_error (present_all loanId amount era_terms idx) j = Some t ->
    TermId t = (loanId ++ "-" ++ Itoa (idx + j))%string.
Proof.
  induction era_terms as [|[terms|] rest IH]; intros idx j t Hj; cbn in Hj.
  - destruct j; discriminate.
  - destruct j as [|j]; cbn in Hj.
    + injection Hj as <-. cbn. now rewrite Nat.add_0_r.
    + replace (idx + S j)%nat with (S idx + j)%nat by lia.
      exact (IH _ _ _ Hj).
  - exact (IH _ _ _ Hj).
Qed.

Lemma assign_terms_numbered `{GoRuntime} loanId amount era_terms terms :
  assign_terms loanId amount era_terms (count_not_nil era_terms) = Some terms ->
  forall j t,
    nth_error terms j = Some t ->
    TermId t = (loanId ++ "-" ++ Itoa j)%string.
Proof.
  rewrite assign_terms_counted. intros [= <-] j t Hj.
  destruct (0 <? count_not_nil era_terms)%nat.
  - exact (present_all_numbered _ _ _ _ _ Hj).
  - destruct j as [|[|j]]; cbn in Hj; try discriminate.
    injection Hj as <-. reflexivity.
Qed.

Lemma history_update_ids (clock : Z -> Prop) (UID : string) (h h' : LoanHistory) :
  history_update clock h h' -> ids_numbered UID h -> ids_numbered UID h'.
Proof.
  intros [|k active active' Ha Hstep] Hids; [exact Hids|].
  intros i loan Hi. cbn in Hi. rewrite nth_error_update_nth in Hi.
  destruct (i =? k)%nat eqn:Hik; [|exact (Hids _ _ Hi)].
  apply Nat.eqb_eq in Hik. subst k.
  destruct (@ActiveLoanForLoanHistory_nth _ _ _ Ha) as [Hnth _].
  rewrite Hnth in Hi. cbn in Hi. injection Hi as <-.
  destruct (record_step_fields Hstep) as (_ & Hid & _ & _ & Hterms & _).
  rewrite Hid, Hterms. exact (Hids _ _ Hnth).
Qed.

Lemma run_op_ids `{GoRuntime} (UID : string) (op : Op) (s : Store) :
  match op with
  | OpLoanRequest _ UID' _ _ _ => UID' = UID
  | _ => True
  end ->
  ids_numbered UID (get_loans s) ->
  ids_numbered UID (get_loans (run_op op s)).
Proof.
  intros Hop Hids.
  assert (Hother :
    (forall d u request t1 t2, op <> OpLoanRequest d u request t1 t2) ->
    ids_numbered UID (get_loans (run_op op s))).
  { intros Hneq.
    destruct (run_op_history op s)
      as [Hh|(d & u & request & t1 & t2 & _ & _ & _ & Heq & _)].
    - exact (history_update_ids Hh Hids).
    - destruct (Hneq _ _ _ _ _ Heq). }
  destruct op as [user now|user|d u request t1 t2|now|request now|t1 t2| |now];
    try (apply Hother; discriminate).
  subst u. cbn [run_op].
  destruct (LoanRequestFun d UID request t1 t2 s) as [s' r] eqn:Hout.
  destruct (LoanRequestFun_inv _ _ _ _ _ _ Hout)
    as [[-> _]|(user & employment & b & h1 & info & era_terms & n & terms & _ & _
                & Hd & _ & Hreq & Hassign & -> & _)];
    [exact Hids|].
  apply processBorrowerRequest_count in Hreq. subst n.
  pose proof (history_update_ids (UID := UID)
                (DefaultActiveLoanIfNecessary_update (fun _ => False) _ _ Hd)
                Hids) as Hids1.
  cbn [fst get_loans put_loans loans_entity LoanRecords].
  intros i loan Hi. cbn [LoanRecords] in Hi.
  destruct (Nat.lt_ge_cases i (List.length (LoanRecords h1))) as [Hlt|Hge].
  - rewrite nth_error_app1 in Hi by exact Hlt. exact (Hids1 _ _ Hi).
  - rewrite nth_error_app2 in Hi by exact Hge.
    destruct (i - List.length (LoanRecords h1))%nat as [|k] eqn:Hk; cbn in Hi;
      [|destruct k; discriminate].
    injection Hi as <-.
    assert (i = List.length (LoanRecords h1)) by lia. subst i.
    split; [reflexivity|].
    cbn [Terms LoanId approved_loanRecord].
    exact (assign_terms_numbered _ _ _ Hassign).
Qed.

Lemma run_ops_ids `{GoRuntime} (UID : string) (ops : list Op) :
  requests_by UID ops ->
  forall s,
    ids_numbered UID (get_loans s) ->
    ids_numbered UID (get_loans (run_ops ops s)).
Proof.
  induction 1 as [|op ops Hop _ IH]; intros s Hids; cbn; [exact Hids|].
  apply IH. exact (run_op_ids _ _ Hop Hids).
Qed.

Lemma find_numbered (prefix : string) (terms : list LoanTerms) :
  forall k j t,
    (forall j' t', nth_error terms j' = Some t' ->
                   TermId t' = (prefix ++ "-" ++ Itoa (k + j'))%string) ->
    nth_error terms j = Some t ->
    find (fun t' => TermId t' =? (prefix ++ "-" ++ Itoa (k + j))%string) terms
    = Some t.
Proof.
  induction terms as [|x terms IH]; intros k j t Hnum Hj;
    [destruct j; discriminate|].
  cbn [find]. rewrite (Hnum 0%nat x eq_refl).
  destruct j as [|j]; cbn in Hj.
  - injection Hj as <-. now rewrite String.eqb_refl.
  - destruct (_ =? _) eqn:Heq.
    + apply String.eqb_eq, numbered_inj in Heq. lia.
    + replace (k + S j)%nat with (S k + j)%nat by lia.
      apply IH; [|exact Hj].
      intros j' t' Hj'. rewrite (Hnum (S j') t' Hj').
      replace (k + S j')%nat with (S k + j')%nat by lia. reflexivity.
Qed.

(** X23. Ids spell out positions.  When every loan request of a session
    that starts from the empty store is made under the identity [UID],
    the record at position [i] of the history has the id [UID-i], no
    two records share an id, the offer at position [j] of a record has
    the id [<loan id>-j], and [LoanTermsForId] on that id finds exactly
    that offer. *)
Theorem ids_name_positions `{GoRuntime} (UID : string) (ops : list Op) :
  requests_by UID ops ->
  let h := get_loans (run_ops ops empty_store) in
  forall i loan,
    nth_error (LoanRecords h) i = Some loan ->
    LoanId loan = (UID ++ "-" ++ Itoa i)%string
    /\ (forall i' loan',
          nth_error (LoanRecords h) i' = Some loan' ->
          LoanId loan' = LoanId loan -> i' = i)
    /\ forall j t,
         nth_error (Terms loan) j = Some t ->
         TermId t = (LoanId loan ++ "-" ++ Itoa j)%string
         /\ LoanTermsForId (TermId t) loan = Some t.
Proof.
  intros Hops h i loan Hi.
  assert (Hids : ids_numbered UID h).
  { apply run_ops_ids; [exact Hops|]. intros [|k] l Hk; discriminate. }
  destruct (Hids _ _ Hi) as [Hid Hterms].
  split; [exact Hid|]. split.
  - intros i' loan' Hi' Heq.
    destruct (Hids _ _ Hi') as [Hid' _].
    rewrite Hid, Hid' in Heq. exact (numbered_inj _ _ _ Heq).
  - intros j t Hj. split; [exact (Hterms _ _ Hj)|].
    rewrite (Hterms _ _ Hj). unfold LoanTermsForId.
    apply (@find_numbered (LoanId loan) (Terms loan) 0%nat j t); [|exact Hj].
    exact Hterms.
Qed.

Lemma ids_name_positions_witness :
  let H := sample_runtime in
  let h := get_loans (run_ops sample_session empty_store) in
  requests_by "uid" sample_session
  /\ forall i loan,
       nth_error (LoanRecords h) i = Some loan ->
       LoanId loan = ("uid" ++ "-" ++ Itoa i)%string.
Proof.
  intros H h.
  assert (Hreq : requests_by "uid" sample_session)
    by (unfold requests_by, sample_session; repeat constructor).
  split; [exact Hreq|].
  intros i loan Hi.
  exact (proj1 (@ids_name_positions H "uid" sample_session Hreq i loan Hi)).
Defined.

(** ** The outcome of a loan request *)

Lemma borrowerInfo_from_known (records : list LoanRecord) :
  Forall (fun loan => known_state (State loan) = true) records ->
  forall info,
    (exists info', borrowerInfo_from records info = Ok info')
    \/ borrowerInfo_from records info = Err ErrLoanAlreadyExists.
Proof.
  induction 1 as [|loan records Hloan _ IH]; intros info; cbn [borrowerInfo_from].
  - left. eauto.
  - apply IsLoanActive_known in Hloan. destruct Hloan as [b ->]. cbn [bind].
    destruct b; [right; reflexivity | apply IH].
Qed.

Lemma well_formed_known (records : list LoanRecord) :
  Forall well_formed records ->
  Forall (fun loan => known_state (State loan) = true) records.
Proof. intros Hwf. eapply Forall_impl; [|exact Hwf]. now intros loan [Hk _]. Qed.

Lemma loan_request_outcome_aux `{GoRuntime} d UID request now_created now_check s :
  Forall well_formed (LoanRecords (get_loans s)) ->
  (active_count (get_loans s) <= 1)%nat ->
  driver_ok d ->
  let out := LoanRequestFun d UID request now_created now_check s in
  ((exists loanRecord, snd out = Ok loanRecord)
   <-> loan_request_admissible request now_check s)
  /\ forall e, snd out = Err e -> In e LoanRequest_errors /\ fst out = s.
Proof.
  intros Hwf Hc Hok out. subst out.
  destruct (@well_formed_default _ now_check Hwf Hc) as (b & h1 & Hd).
  assert (Hwf1 : Forall well_formed (LoanRecords h1)).
  { apply (@history_update_well_formed (fun _ => False) (get_loans s));
      [contradiction | | exact Hwf].
    exact (DefaultActiveLoanIfNecessary_update _ _ _ Hd). }
  split; [split|].
  - intros [loanRecord Hout].
    destruct (LoanRequestFun d UID request now_created now_check s)
      as [s' r] eqn:Hrun.
    cbn in Hout. subst r.
    destruct (LoanRequestFun_created _ _ _ _ _ _ Hrun)
      as (Hru & Hamt & user & employment & residence & h1' & stored
          & (Hu & b' & Hd') & _ & He & Hr & Hin & _).
    rewrite Hd in Hd'. injection Hd' as <- <-.
    split; [exact Hru|]. split; [exact Hamt|]. split; [eauto 6|].
    intros i loan Ha.
    destruct (DefaultActiveLoanIfNecessary_inv _ _ Hd)
      as [(_ & -> & _)|(_ & i' & loan' & Ha' & Hst & _ & Hdue & _)].
    + apply ActiveLoanForLoanHistory_None in Hin. congruence.
    + rewrite Ha in Ha'. injection Ha' as <- <-. auto.
  - intros (Hru & Hamt & (user & employment & residence & Hu & He & Hr) & Hact).
    assert (Hin : Forall inactive (LoanRecords h1)).
    { destruct (DefaultActiveLoanIfNecessary_inv _ _ Hd)
        as [(-> & -> & res & Ha)|(-> & _)].
      - destruct res as [[i loan]|];
          [|now apply ActiveLoanForLoanHistory_None].
        destruct (Hact _ _ Ha) as [Hst Hdue].
        destruct (@ActiveLoanForLoanHistory_nth _ _ _ Ha) as [Hnth _].
        rewrite Forall_forall in Hwf.
        destruct (Hwf _ (nth_error_In _ _ Hnth)) as (_ & _ & _ & Hsent).
        destruct Hsent as [_ Hpos]; [rewrite Hst; cbn; auto|].
        rewrite (@DefaultActiveLoanIfNecessary_fires now_check _ _ _ Ha Hst)
          in Hd by lia.
        discriminate.
      - apply ActiveLoanForLoanHistory_None.
        exact (DefaultActiveLoanIfNecessary_fired_no_active _ _ Hd). }
    unfold LoanRequestFun. rewrite Hru, Hamt. cbn [is_nil negb orb].
    unfold RunInTransaction, get_user. rewrite Hu. cbn [bind].
    rewrite He, Hr, Hd. cbn [bind].
    destruct (borrowerInfo_from_inactive Hin
                {| no_loans := 0; successful_loans := 0;
                   earned_qin := QinBalance user |}) as [info ->].
    cbn [bind].
    destruct (processBorrowerRequest_defined
                (borrowerApp_of UID (LoanAmount request) employment) info Hok)
      as [era_terms ->].
    rewrite assign_terms_counted. cbn. eauto.
  - intros e. unfold LoanRequest_errors, LoanRequestFun.
    destruct (negb (is_nil (LoanRequest_User request))
              || Qeq_bool (LoanAmount request) 0);
      [cbn; intros [= <-]; auto|].
    unfold RunInTransaction, get_user.
    destruct (user_entity s) as [user|]; cbn [bind];
      [|cbn; intros [= <-]; auto].
    destruct (User_EmploymentInfo user) as [employment|];
      [|cbn; intros [= <-]; auto].
    destruct (User_ResidenceInfo user) as [residence|];
      [|cbn; intros [= <-]; auto].
    rewrite Hd. cbn [bind].
    destruct (borrowerInfo_from_known (well_formed_known Hwf1)
                {| no_loans := 0; successful_loans := 0;
                   earned_qin := QinBalance user |}) as [[info ->]| ->];
      cbn [bind]; [|cbn; intros [= <-]; auto 6].
    destruct (processBorrowerRequest_defined
                (borrowerApp_of UID (LoanAmount request) employment) info Hok)
      as [era_terms ->].
    rewrite assign_terms_counted. cbn. discriminate.
Qed.

(** X24. The outcome of a loan request.  On a store the handlers
    produced, with pickups dated at or after the epoch, and with a
    driver holding as many assessors and names as it counts,
    [LoanRequestFun] creates a loan exactly when the request is well
    formed, the profile has its employment and residence sections, and
    the active loan, if any, is SENT and overdue at the time of the
    default check.  Otherwise it answers with one of
    [ErrBadJsonPopulation], [ErrUserNotRegistered],
    [ErrUserDataNotFound], [ErrLoanAlreadyExists] and leaves the store
    as it was: the assessors cannot make the request fail. *)
Theorem loan_request_outcome `{GoRuntime} (ops : list Op) d UID request
    now_created now_check :
  pickup_clocks_nonneg ops ->
  driver_ok d ->
  let s := run_ops ops empty_store in
  let out := LoanRequestFun d UID request now_created now_check s in
  ((exists loanRecord, snd out = Ok loanRecord)
   <-> loan_request_admissible request now_check s)
  /\ forall e, snd out = Err e -> In e LoanRequest_errors /\ fst out = s.
Proof.
  intros Hclocks Hok s.
  apply loan_request_outcome_aux; [| |exact Hok].
  - apply run_ops_well_formed; [exact Hclocks | constructor].
  - apply run_ops_single_active. unfold single_active. cbn. lia.
Qed.

Lemma loan_request_outcome_witness :
  let H := sample_runtime in
  let d := constructERADriver (1 # 4) in
  let s := run_ops sample_session empty_store in
  let out := LoanRequestFun d "uid" sample_request 5000 5000 s in
  ((exists loanRecord, snd out = Ok loanRecord)
   <-> loan_request_admissible sample_request 5000 s)
  /\ forall e, snd out = Err e -> In e LoanRequest_errors /\ fst out = s.
Proof.
  intros H d s.
  apply (@loan_request_outcome H sample_session d "uid" sample_request 5000 5000).
  - unfold pickup_clocks_nonneg, sample_session.
    repeat constructor; cbn; intros now Hnow; try contradiction; lia.
  - apply constructERADriver_ok.
Defined.

(** ** Selecting and cancelling on stores the handlers produced *)

Lemma SelectLoanOffer_outcome (request : LoanSelectRequest) (now : Z)
    (s s' : Store) (r : result LoanRecord) :
  SelectLoanOffer request now s = (s', r) ->
  (exists res, ActiveLoanForLoanHistory (get_loans s) = Ok res) ->
  collateral_covered s ->
  (s' = s /\ exists e, r = Err e /\ In e Select_errors)
  \/ exists user i loan loan',
       user_entity s = Some user
       /\ ActiveLoanForLoanHistory (get_loans s) = Ok (Some (i, loan))
       /\ State loan = "APPROVED"
       /\ get_loans s' = update_record i (fun _ => loan') (get_loans s)
       /\ r = Ok (set_Request None loan')
       /\ ((State loan' = "APPROVED"
            /\ user_entity s' = Some user
            /\ exists accepted,
                 AcceptedTerms loan' = Some accepted
                 /\ QinRequired accepted <= QinBalance user)
           \/ State loan' = "SENT").
Proof.
  intros Hout [res Hres] Hcov. revert Hout.
  unfold Select_errors.
  unfold SelectLoanOffer, RunInTransaction, get_user, string_nonempty.
  destruct (SelectedTerm request =? "") eqn:Hsel;
    destruct (LocationName (LoanSelectRequest_Location request) =? "")
      eqn:Hloc; cbn [andb negb];
    try (intros [= <- <-]; left; split; [reflexivity|];
         eexists; split; [reflexivity | cbn; auto 8]; fail);
    (destruct (user_entity s) as [user|] eqn:Hu; cbn;
     [|intros [= <- <-]; left; split; [reflexivity|];
       eexists; split; [reflexivity | cbn; auto 8]]);
    rewrite Hres; cbn;
    (destruct res as [[i loan]|];
     [|intros [= <- <-]; left; split; [reflexivity|];
       eexists; split; [reflexivity | cbn; auto 8]]);
    (destruct (State loan =? "APPROVED") eqn:Hst; cbn;
     [|intros [= <- <-]; left; split; [reflexivity|];
       eexists; split; [reflexivity | cbn; auto 8]]);
    apply String.eqb_eq in Hst.
  - (* pickup only *)
    destruct (AcceptedTerms loan) as [accepted|] eqn:Hacc; cbn;
      [|intros [= <- <-]; left; split; [reflexivity|];
        eexists; split; [reflexivity | cbn; auto 8]].
    destruct (Hcov _ _ _ Hres Hst Hacc) as (user' & Hu' & Hle).
    rewrite Hu in Hu'. injection Hu' as <-.
    replace (Qltb (QinBalance user) (QinRequired accepted)) with false
      by (symmetry; now apply Qltb_ge).
    cbn. intros [= <- <-]. right.
    eexists user, i, loan, _. repeat split; auto.
  - (* terms only *)
    destruct (AcceptedTerms loan) as [old|] eqn:Hacc; cbn;
      [intros [= <- <-]; left; split; [reflexivity|];
       eexists; split; [reflexivity | cbn; auto 8]|].
    destruct (LoanTermsForId (SelectedTerm request) loan) as [terms|] eqn:Hid;
      cbn; [|intros [= <- <-]; left; split; [reflexivity|];
             eexists; split; [reflexivity | cbn; auto 8]].
    case_Qltb (QinBalance user) (QinRequired terms); cbn;
      [intros [= <- <-]; left; split; [reflexivity|];
       eexists; split; [reflexivity | cbn; auto 8]|].
    intros [= <- <-]. right.
    eexists user, i, loan, _. repeat split; auto.
    left. repeat split; auto. exists terms. split; [reflexivity | exact E].
  - (* terms and pickup *)
    destruct (AcceptedTerms loan) as [old|] eqn:Hacc; cbn;
      [intros [= <- <-]; left; split; [reflexivity|];
       eexists; split; [reflexivity | cbn; auto 8]|].
    destruct (LoanTermsForId (SelectedTerm request) loan) as [terms|] eqn:Hid;
      cbn; [|intros [= <- <-]; left; split; [reflexivity|];
             eexists; split; [reflexivity | cbn; auto 8]].
    case_Qltb (QinBalance user) (QinRequired terms); cbn;
      [intros [= <- <-]; left; split; [reflexivity|];
       eexists; split; [reflexivity | cbn; auto 8]|].
    replace (Qltb (QinBalance user) (QinRequired terms)) with false
      by (symmetry; now apply Qltb_ge).
    cbn. intros [= <- <-]. right.
    eexists user, i, loan, _. repeat split; auto.
Qed.

Lemma collateral_covered_no_active (s : Store) :
  ActiveLoanForLoanHistory (get_loans s) = Ok None -> collateral_covered s.
Proof. intros Hnone i loan accepted Ha. congruence. Qed.

Lemma collateral_covered_default (now : Z) (s : Store) (h' : LoanHistory) :
  DefaultActiveLoanIfNecessary now (get_loans s) = Ok (true, h') ->
  collateral_covered (put_loans h' s).
Proof.
  intros Hd. apply collateral_covered_no_active.
  exact (DefaultActiveLoanIfNecessary_fired_no_active _ _ Hd).
Qed.

Lemma run_op_covered `{GoRuntime} (op : Op) (s : Store) :
  (exists res, ActiveLoanForLoanHistory (get_loans s) = Ok res) ->
  collateral_covered s -> collateral_covered (run_op op s).
Proof.
  intros Hscan Hcov.
  destruct op as [user now|user|d UID request t1 t2|now|request now|t1 t2| |now];
    cbn [run_op].
  - intros i loan accepted Ha Hst Hacc.
    rewrite CreateUser_loans in Ha.
    destruct (Hcov _ _ _ Ha Hst Hacc) as (u & Hu & Hle).
    exists u. split; [|exact Hle].
    unfold CreateUser. destruct (_ || _); [exact Hu|].
    unfold RunInTransaction. rewrite Hu. exact Hu.
  - intros i loan accepted Ha Hst Hacc.
    rewrite PatchUser_loans in Ha.
    destruct (Hcov _ _ _ Ha Hst Hacc) as (u & Hu & Hle).
    unfold PatchUser. destruct (_ && _); [eauto|].
    unfold RunInTransaction, get_user. rewrite Hu. cbn. eauto.
  - destruct (LoanRequestFun d UID request t1 t2 s) as [s' r] eqn:Hout.
    destruct (LoanRequestFun_inv _ _ _ _ _ _ Hout)
      as [[-> _]|(user & employment & b & h1 & info & era_terms & n & terms & _
                  & _ & _ & Hinfo & _ & _ & -> & _)];
      [exact Hcov|].
    cbn [fst]. intros i loan accepted Ha Hst Hacc.
    cbn [get_loans put_loans loans_entity] in Ha.
    rewrite ActiveLoan_appended in Ha;
      [|exact (borrowerInfo_from_inv _ _ Hinfo)
       |now apply IsLoanActive_APPROVED].
    injection Ha as <- <-. discriminate.
  - destruct (GetActiveLoan now s) as [s' r] eqn:Hout.
    destruct (GetActiveLoan_inv _ _ Hout) as [->|(h' & Hd & -> & _)];
      [exact Hcov | exact (collateral_covered_default _ _ Hd)].
  - destruct (SelectLoanOffer request now s) as [s' r] eqn:Hout.
    destruct (@SelectLoanOffer_outcome _ _ _ _ _ Hout Hscan Hcov)
      as [[-> _]|(user & i & loan & loan' & Hu & Ha & Hst & Hh & _ & Hcase)];
      [exact Hcov|].
    cbn [fst]. intros i2 loan2 accepted2 Ha2 Hst2 Hacc2.
    rewrite Hh in Ha2.
    assert (Hactive : IsLoanActive loan' = Ok true).
    { destruct Hcase as [(Hst' & _)|Hst'];
        [now apply IsLoanActive_APPROVED | now apply IsLoanActive_SENT]. }
    rewrite (@ActiveLoan_kept _ _ _ (fun _ => loan') Ha Hactive) in Ha2.
    injection Ha2 as <- <-.
    destruct Hcase as [(_ & Hu' & accepted & Hacc & Hle)|Hst'];
      [|congruence].
    exists user. split; [exact Hu'|]. congruence.
  - destruct (Repay t1 t2 s) as [s' r] eqn:Hout.
    destruct (Repay_inv _ _ _ Hout)
      as [[-> _]|[(u & i & loan & accepted & _ & Ha & _ & _ & _ & -> & _)
                 |(u & i & loan & h' & _ & _ & _ & Hd & -> & _)]];
      cbn [fst]; [exact Hcov| |exact (collateral_covered_default _ _ Hd)].
    apply collateral_covered_no_active.
    cbn [get_loans put_loans put_user loans_entity].
    apply (@ActiveLoan_deactivated _ _ _ (fun _ => _) Ha). reflexivity.
  - destruct (DeleteActiveLoan s) as [s' r] eqn:Hout.
    destruct (@DeleteActiveLoan_inv _ _ _ Hout)
      as [[-> _]|(i & loan & Ha & _ & -> & _)];
      cbn [fst]; [exact Hcov|].
    apply collateral_covered_no_active.
    cbn [get_loans put_loans loans_entity].
    apply (@ActiveLoan_deactivated _ _ _ (set_State "CANCELED") Ha). reflexivity.
  - destruct (GetLoans now s) as [s' r] eqn:Hout.
    destruct (GetLoans_inv _ _ Hout) as [->|(h' & Hd & ->)];
      [exact Hcov | exact (collateral_covered_default _ _ Hd)].
Qed.

Lemma run_ops_reachable `{GoRuntime} (ops : list Op) :
  pickup_clocks_nonneg ops ->
  forall s,
    Forall well_formed (LoanRecords (get_loans s)) ->
    single_active s ->
    collateral_covered s ->
    let s' := run_ops ops s in
    Forall well_formed (LoanRecords (get_loans s'))
    /\ single_active s'
    /\ collateral_covered s'.
Proof.
  induction 1 as [|op ops Hop Hops IH]; intros s Hwf Hc Hcov; cbn;
    [auto|].
  apply IH.
  - apply (@run_ops_well_formed _ [op]); [|exact Hwf].
    constructor; [exact Hop | constructor].
  - apply (@run_ops_single_active _ [op]). exact Hc.
  - apply run_op_covered; [|exact Hcov].
    exact (@well_formed_scans _ Hwf Hc).
Qed.

Lemma reachable_store_selects `{GoRuntime} (ops : list Op) :
  pickup_clocks_nonneg ops ->
  let s := run_ops ops empty_store in
  collateral_covered s
  /\ (forall request now e,
        snd (SelectLoanOffer request now s) = Err e ->
        In e Select_errors /\ fst (SelectLoanOffer request now s) = s)
  /\ (forall e,
        snd (DeleteActiveLoan s) = Err e ->
        In e Delete_errors /\ fst (DeleteActiveLoan s) = s).
Proof.
  intros Hclocks s.
  destruct (@run_ops_reachable _ ops Hclocks empty_store)
    as (Hwf & Hc & Hcov).
  { constructor. }
  { unfold single_active. cbn. lia. }
  { now apply collateral_covered_no_active. }
  fold s in Hwf, Hc, Hcov.
  pose proof (@well_formed_scans _ Hwf Hc) as Hscan.
  split; [exact Hcov|]. split.
  - intros request now e He.
    destruct (SelectLoanOffer request now s) as [s' r] eqn:Hout.
    cbn in He. subst r.
    destruct (@SelectLoanOffer_outcome _ _ _ _ _ Hout Hscan Hcov)
      as [(-> & e' & [= <-] & Hin)|(? & ? & ? & ? & _ & _ & _ & _ & [=] & _)].
    auto.
  - intros e. unfold DeleteActiveLoan, RunInTransaction, Delete_errors.
    destruct Hscan as [[[i loan]|] ->]; cbn.
    + destruct (negb (State loan =? "APPROVED") && negb (State loan =? "PENDING"));
        cbn; [intros [= <-]; auto | discriminate].
    + intros [= <-]. auto.
Qed.

(** X25. Selecting and cancelling never fail internally.  On a store
    the handlers produced, with pickups dated at or after the epoch,
    the balance covers the collateral of terms that are accepted and
    not yet picked up, so the internal error of [SelectLoanOffer] does
    not occur: a failed selection answers with one of
    [ErrBadJsonPopulation], [ErrUserNotRegistered], [ErrNoActiveLoan],
    [ErrLoanInWrongState], [ErrInvalidId], [ErrNotEnoughQin], a failed
    cancellation with [ErrNoActiveLoan] or [ErrLoanInWrongState], and
    both leave the store as it was. *)
Theorem select_and_cancel_errors `{GoRuntime} (ops : list Op) :
  pickup_clocks_nonneg ops ->
  let s := run_ops ops empty_store in
  collateral_covered s
  /\ (forall request now e,
        snd (SelectLoanOffer request now s) = Err e ->
        In e Select_errors /\ fst (SelectLoanOffer request now s) = s)
  /\ (forall e,
        snd (DeleteActiveLoan s) = Err e ->
        In e Delete_errors /\ fst (DeleteActiveLoan s) = s).
Proof. apply reachable_store_selects. Qed.

Lemma select_and_cancel_errors_witness :
  let H := sample_runtime in
  let s := run_ops sample_session empty_store in
  collateral_covered s
  /\ (forall request now e,
        snd (SelectLoanOffer request now s) = Err e ->
        In e Select_errors /\ fst (SelectLoanOffer request now s) = s)
  /\ (forall e,
        snd (DeleteActiveLoan s) = Err e ->
        In e Delete_errors /\ fst (DeleteActiveLoan s) = s).
Proof.
  intros H s.
  apply (@select_and_cancel_errors H sample_session).
  unfold pickup_clocks_nonneg, sample_session.
  repeat constructor; cbn; intros now Hnow; try contradiction; lia.
Defined.

(** ** The request snapshot *)



(** ** Closing the active loan *)

Lemma no_active_loan_answers (s : Store) :
  ActiveLoanForLoanHistory (get_loans s) = Ok None ->
  (forall now, GetActiveLoan now s = (s, Err ErrNoActiveLoan))
  /\ DeleteActiveLoan s = (s, Err ErrNoActiveLoan)
  /\ (forall now,
        GetLoans now s
        = (s, Ok {| LoanRecords :=
                      map (set_Request None) (LoanRecords (get_loans s)) |})).
Proof.
  intros Hnone.
  assert (Hd : forall now,
             DefaultActiveLoanIfNecessary now (get_loans s)
             = Ok (false, get_loans s))
    by (intros now; unfold DefaultActiveLoanIfNecessary; now rewrite Hnone).
  repeat split.
  - intros now. unfold GetActiveLoan, RunInTransaction.
    rewrite Hd. cbn. now rewrite Hnone.
  - unfold DeleteActiveLoan, RunInTransaction. now rewrite Hnone.
  - intros now. unfold GetLoans, RunInTransaction. now rewrite Hd.
Qed.

(** X27. A closed loan is no longer active.  After a successful
    repayment or cancellation the history has no active loan: at any
    time [GetActiveLoan] and a further [DeleteActiveLoan] answer
    [ErrNoActiveLoan], and [GetLoans] lists the history, all without
    changing the store. *)
Theorem closed_loan_not_active (s s' : Store) :
  loan_closed s s' ->
  ActiveLoanForLoanHistory (get_loans s') = Ok None
  /\ (forall now, GetActiveLoan now s' = (s', Err ErrNoActiveLoan))
  /\ DeleteActiveLoan s' = (s', Err ErrNoActiveLoan)
  /\ (forall now,
        GetLoans now s'
        = (s', Ok {| LoanRecords :=
                       map (set_Request None) (LoanRecords (get_loans s')) |})).
Proof.
  intros Hclosed.
  assert (Hnone : ActiveLoanForLoanHistory (get_loans s') = Ok None).
  { destruct Hclosed as [(t1 & t2 & repaid & Hout)|(response & Hout)].
    - destruct (Repay_inv _ _ _ Hout)
        as [[_ [e [=]]]|[(u & i & loan & accepted & _ & Ha & _ & _ & _ & -> & _)
                        |(? & ? & ? & ? & _ & _ & _ & _ & _ & [=])]].
      cbn [get_loans put_loans put_user loans_entity].
      apply (@ActiveLoan_deactivated _ _ _ (fun _ => _) Ha). reflexivity.
    - destruct (@DeleteActiveLoan_inv _ _ _ Hout)
        as [[_ [e [=]]]|(i & loan & Ha & _ & -> & _)].
      cbn [get_loans put_loans loans_entity].
      apply (@ActiveLoan_deactivated _ _ _ (set_State "CANCELED") Ha).
      reflexivity. }
  split; [exact Hnone|]. exact (no_active_loan_answers _ Hnone).
Qed.

Lemma closed_loan_not_active_witness :
  let s' := fst (DeleteActiveLoan approved_store) in
  ActiveLoanForLoanHistory (get_loans s') = Ok None
  /\ (forall now, GetActiveLoan now s' = (s', Err ErrNoActiveLoan))
  /\ DeleteActiveLoan s' = (s', Err ErrNoActiveLoan)
  /\ (forall now,
        GetLoans now s'
        = (s', Ok {| LoanRecords :=
                       map (set_Request None) (LoanRecords (get_loans s')) |})).
Proof.
  intros s'.
  apply (@closed_loan_not_active approved_store s').
  right. exists {| Success := true |}. reflexivity.
Defined.

(** ** Status codes of failed requests *)

Ltac status_codes :=
  repeat (apply Forall_cons; [cbn; auto 6|]); apply Forall_nil.

(** X28. No internal server error on stores the handlers produced.
    When an operation fails on a store reached from the empty store,
    with pickups dated at or after the epoch and a loan-request driver
    that holds the assessors it counts, the status [GetErrorCode] gives
    the error is 400, 404 or 409, never 500. *)
Theorem reachable_errors_are_client_errors `{GoRuntime} (ops : list Op)
    (op : Op) (e : Error) :
  pickup_clocks_nonneg ops ->
  op_driver_ok op ->
  op_error op (run_ops ops empty_store) = Some e ->
  In (GetErrorCode e) [StatusBadRequest; StatusNotFound; StatusConflict].
Proof.
  intros Hclocks Hok He.
  destruct (reachable_store_answers Hclocks) as (Hwf & _ & Hlist & Hread & Hrepay).
  destruct (reachable_store_selects Hclocks) as (_ & Hselect & Hcancel).
  assert (Hc : (active_count (get_loans (run_ops ops empty_store)) <= 1)%nat)
    by (apply run_ops_single_active; unfold single_active; cbn; lia).
  set (s := run_ops ops empty_store) in *.
  assert (Hcodes : forall errs,
             In e errs ->
             Forall (fun e' => In (GetErrorCode e')
                                 [StatusBadRequest; StatusNotFound;
                                  StatusConflict]) errs ->
             In (GetErrorCode e)
               [StatusBadRequest; StatusNotFound; StatusConflict]).
  { intros errs Hin Hall. rewrite Forall_forall in Hall. auto. }
  destruct op as [user now|user|d UID request t1 t2|now|request now|t1 t2| |now];
    cbn [op_error op_driver_ok] in *.
  - apply (Hcodes [ErrBadJsonPopulation; ErrUserAlreadyExists]);
      [|status_codes].
    revert He. unfold CreateUser.
    destruct (_ || _); [cbn; intros [= <-]; cbn; auto|].
    unfold RunInTransaction.
    destruct (user_entity s); cbn; [intros [= <-]; cbn; auto | discriminate].
  - apply (Hcodes [ErrBadJsonPopulation; ErrNoSuchEntity]);
      [|status_codes].
    revert He. unfold PatchUser.
    destruct (_ && _); [cbn; intros [= <-]; cbn; auto|].
    unfold RunInTransaction, get_user.
    destruct (user_entity s); cbn; [discriminate | intros [= <-]; cbn; auto].
  - apply (Hcodes LoanRequest_errors); [|status_codes].
    destruct (@loan_request_outcome_aux _ d UID request t1 t2 s Hwf Hc Hok)
      as [_ Herr].
    destruct (snd (LoanRequestFun d UID request t1 t2 s)) as [?|e'];
      [discriminate|].
    injection He as <-. exact (proj1 (Herr _ eq_refl)).
  - destruct (Hread now) as [[loan Hr]|Hr]; rewrite Hr in He;
      [discriminate|].
    injection He as <-. cbn. auto.
  - apply (Hcodes Select_errors); [|status_codes].
    destruct (snd (SelectLoanOffer request now s)) as [?|e'] eqn:Hr;
      [discriminate|].
    injection He as <-. exact (proj1 (Hselect _ _ _ Hr)).
  - apply (Hcodes Repay_errors); [|status_codes].
    destruct (Hrepay t1 t2) as [[loan Hr]|(e' & Hr & Hin)]; rewrite Hr in He;
      [discriminate|].
    injection He as <-. exact Hin.
  - apply (Hcodes Delete_errors); [|status_codes].
    destruct (snd (DeleteActiveLoan s)) as [?|e'] eqn:Hr; [discriminate|].
    injection He as <-. exact (proj1 (Hcancel _ eq_refl)).
  - destruct (Hlist now) as [h Hr]. rewrite Hr in He. discriminate.
Qed.

Lemma reachable_errors_are_client_errors_witness :
  let H := sample_runtime in
  In (GetErrorCode ErrNoActiveLoan)
    [StatusBadRequest; StatusNotFound; StatusConflict].
Proof.
  intros H.
  apply (@reachable_errors_are_client_errors H sample_session
           (OpRepay 5000 5000) ErrNoActiveLoan).
  - unfold pickup_clocks_nonneg, sample_session.
    repeat constructor; cbn; intros now Hnow; try contradiction; lia.
  - exact I.
  - vm_compute. reflexivity.
Defined.

(** ** Authentication *)

(** X29. Who gets past [DoAuth].  When a handler receives the answer
    [Auth] computed for its own token, [DoAuth] returns no error exactly
    when the token is not empty, Firebase verifies it and knows its
    user, the user is not disabled, and the email is verified or the
    handler does not require it ([GetUser] and [CreateUser] do not).  In
    that case the answer carries the UID of that user, under which the
    handler reads and writes the datastore. *)
Theorem DoAuth_admits (client : FirebaseAuth.Client) (token : string)
    (requireEmailVerification : bool) :
  let out :=
    FirebaseAuth.DoAuth token requireEmailVerification
      (FirebaseAuth.respond client token) in
  (snd out = None
   <-> token <> ""
       /\ exists tokenUID userObj,
            FirebaseAuth.VerifyIDToken client token = Some tokenUID
            /\ FirebaseAuth.GetUser client tokenUID = Some userObj
            /\ FirebaseAuth.Disabled userObj = false
            /\ (FirebaseAuth.EmailVerified userObj = true
                \/ requireEmailVerification = false)
            /\ FirebaseAuth.UserInfo_UID (fst out) = FirebaseAuth.UID userObj)
  /\ (forall e,
        snd out = Some e ->
        e = FirebaseAuth.ErrAuthTokenNotProvided
        \/ FirebaseAuth.Error (fst out) = Some e).
Proof.
  unfold FirebaseAuth.DoAuth, FirebaseAuth.respond.
  destruct (token =? "") eqn:Htoken.
  { apply String.eqb_eq in Htoken. cbn. split; [split|].
    - discriminate.
    - intros [Hne _]. contradiction.
    - intros e [= <-]. auto. }
  apply String.eqb_neq in Htoken.
  destruct (FirebaseAuth.VerifyIDToken client token) as [tokenUID|] eqn:Hv.
  2: { destruct requireEmailVerification; cbn; (split; [split|]).
       all: try discriminate.
       all: try (intros e [= <-]; auto; fail).
       all: intros (_ & uid' & u' & [=] & _). }
  destruct (FirebaseAuth.GetUser client tokenUID) as [userObj|] eqn:Huser.
  2: { destruct requireEmailVerification; cbn; (split; [split|]).
       all: try discriminate.
       all: try (intros e [= <-]; auto; fail).
       all: intros (_ & uid' & u' & [= <-] & Hu' & _); congruence. }
  destruct (FirebaseAuth.Disabled userObj) eqn:Hdis,
           (FirebaseAuth.EmailVerified userObj) eqn:Hmail,
           requireEmailVerification;
    cbn; (split; [split|]).
  all: try discriminate.
  all: try (intros e [= <-]; auto; fail).
  all: try (intros _; split; [exact Htoken|];
            exists tokenUID, userObj; auto 8; fail).
  all: intros (_ & uid' & u' & [= <-] & Hu' & Hd' & Hm' & _);
    rewrite Huser in Hu'; injection Hu' as <-; destruct Hm'; congruence.
Qed.
